(** * Choices: the widget controller of [assets/scripts/src/choices.js]

    A shallow embedding of the [Choices] class: its store-facing methods
    ([addItem], [removeItem], [removeItemsByValue], [removeActiveItems],
    [removeSelectedItems], [selectAll], ...), the renderer ([render],
    [renderGroups], [renderOptions], [renderItems], [highlightOption]), the
    key-up search path ([onKeyUp]), the handlers of the enter and backspace
    keys ([handleEnter], [handleBackspace]), the click handler ([onClick])
    and the methods that show and hide the dropdown.

    Methods are written in a small monad over the widget's state with the
    three ways a JavaScript statement can end: falling through, [return] and
    a thrown [TypeError].  The modules the class imports ([./store],
    [./actions], [./lib/utils]) are not part of the sources at hand; they are
    modelled from the specification and marked as such. *)

From Stdlib Require Import List String Ascii ZArith Bool Arith Lia.
Import ListNotations.
Local Open Scope string_scope.
Local Open Scope list_scope.
Local Open Scope Z_scope.

Set Implicit Arguments.

(** ** JavaScript values and primitives *)

(** The records held by the store (specification, section 3). *)
Module Item.
Record t : Type := mk
  { id : Z; value : string; label : string; optionId : Z;
    active : bool; selected : bool }.
End Item.

Module Opt.
Record t : Type := mk
  { id : Z; value : string; label : string; groupId : Z;
    disabled : bool; selected : bool; active : bool }.
End Opt.

Module Group.
Record t : Type := mk
  { id : Z; value : string; active : bool; disabled : bool }.
End Group.

Module JS.

(** The values a caller can hand to the public methods.  A function is
    opaque: it is known by a name only, and calling it is recorded in the
    widget's log.  An object is read through the fields of an item. *)
Inductive val : Type :=
| VUndefined
| VNull
| VBool (b : bool)
| VNum (n : Z)
| VStr (s : string)
| VFun (name : string)
| VObj (o : Item.t).

(** ToBoolean. *)
Definition truthy (v : val) : bool :=
  match v with
  | VUndefined | VNull => false
  | VBool b => b
  | VNum n => negb (n =? 0)
  | VStr s => negb (s =? "")%string
  | VFun _ | VObj _ => true
  end.

(** Modelled from the spec: [isType] of [lib/utils.js], which is not among
    the sources.  The specification names its two uses ("removing a
    non-record", "callback-is-a-function"); the test is on the class of
    the value ([Object], [Function], [String]). *)
Definition isType (type : string) (v : val) : bool :=
  match v with
  | VObj _ => (type =? "Object")%string
  | VFun _ => (type =? "Function")%string
  | VStr _ => (type =? "String")%string
  | VNum _ => (type =? "Number")%string
  | VBool _ => (type =? "Boolean")%string
  | VUndefined | VNull => false
  end.

(** A default parameter value replaces [undefined] only. *)
Definition default (v dflt : val) : val :=
  match v with VUndefined => dflt | _ => v end.

(** [arr[i]]: [undefined] (here [None]) outside the array. *)
Definition index {A : Type} (arr : list A) (i : Z) : option A :=
  if i <? 0 then None else nth_error arr (Z.to_nat i).

(** [arr.length]. *)
Definition length {A : Type} (arr : list A) : Z := Z.of_nat (List.length arr).

(** [arr.indexOf(x)], [-1] when absent. *)
Fixpoint indexOf_from (arr : list nat) (x : nat) (i : Z) : Z :=
  match arr with
  | [] => -1
  | y :: r => if Nat.eqb y x then i else indexOf_from r x (i + 1)
  end.
Definition indexOf (arr : list nat) (x : nat) : Z := indexOf_from arr x 0.

(** [arr.join(sep)] on an array of strings. *)
Definition join (sep : string) (arr : list string) : string :=
  String.concat sep arr.

(** [s.trim()], on strings of ASCII characters. *)
Definition is_space (c : ascii) : bool :=
  let n := nat_of_ascii c in
  (Nat.eqb n 32 || (Nat.leb 9 n && Nat.leb n 13))%bool.

Fixpoint trimStart (s : string) : string :=
  match s with
  | EmptyString => EmptyString
  | String c r => if is_space c then trimStart r else s
  end.

Fixpoint trimEnd (s : string) : string :=
  match s with
  | EmptyString => EmptyString
  | String c r =>
      match trimEnd r with
      | EmptyString => if is_space c then EmptyString else String c EmptyString
      | r' => String c r'
      end
  end.

Definition trim (s : string) : string := trimEnd (trimStart s).

(** [s.split(sep)] for a string separator.  [skip] counts the characters
    of a separator still to be passed over. *)
Fixpoint split_from (sep s cur : string) (skip : nat) : list string :=
  match s with
  | EmptyString => [cur]
  | String c r =>
      match skip with
      | S k => split_from sep r cur k
      | O =>
          if String.prefix sep s
          then cur :: split_from sep r EmptyString (String.length sep - 1)
          else split_from sep r (cur ++ String c EmptyString)%string 0
      end
  end.

Definition split (sep s : string) : list string :=
  match sep with
  | EmptyString => map (fun c => String c EmptyString) (list_ascii_of_string s)
  | _ => split_from sep s EmptyString 0
  end.

End JS.

(** ** Actions *)

(** Modelled from the spec: the action creators of [./actions/index], which
    are not among the sources.  Each "returns [{type, payload...}]"
    (section 4.1); the payload is the creator's argument list as the calls
    in [choices.js] give it. *)
Module Actions.

Inductive action : Type :=
| ADD_ITEM (value label : string) (id optionId : Z)
| REMOVE_ITEM (id optionId : Z)
| SELECT_ITEM (id : Z) (selected : bool)
| ADD_OPTION (value label : string) (id groupId : Z) (disabled : bool)
| FILTER_OPTIONS (results : list Opt.t)
| ACTIVATE_OPTIONS
| ADD_GROUP (value : string) (id : Z) (active disabled : bool).

Definition addItem := ADD_ITEM.
Definition removeItem := REMOVE_ITEM.
Definition selectItem := SELECT_ITEM.
Definition addOption := ADD_OPTION.
Definition filterOptions := FILTER_OPTIONS.
Definition activateOptions := ACTIVATE_OPTIONS.
Definition addGroup := ADD_GROUP.

Definition is_filter (a : action) : bool :=
  match a with FILTER_OPTIONS _ => true | _ => false end.

End Actions.
Export Actions.

(** ** Reducers *)

(** Modelled from the spec: the three reducers behind [./store/index], which
    are not among the sources (section 4.2).  A reducer maps the elements of
    a collection and an action to [Some] new sequence, which the store holds
    in a new array, or to [None] when the action is not one of its own and
    the collection it was given is returned as it is. *)
Module Reducers.

Definition deactivate (id : Z) (it : Item.t) : Item.t :=
  if Item.id it =? id
  then Item.mk (Item.id it) (Item.value it) (Item.label it)
               (Item.optionId it) false (Item.selected it)
  else it.

Definition select (id : Z) (sel : bool) (it : Item.t) : Item.t :=
  if Item.id it =? id
  then Item.mk (Item.id it) (Item.value it) (Item.label it)
               (Item.optionId it) (Item.active it) sel
  else it.

(** "[addItem] appends a new active, unselected item"; "[removeItem] sets
    [active=false] on the matching item"; "[selectItem] sets [selected] on
    the matching item, leaving all others untouched". *)
Definition items (state : list Item.t) (a : action) : option (list Item.t) :=
  match a with
  | ADD_ITEM value label id optionId =>
      Some (state ++ [Item.mk id value label optionId true false])
  | REMOVE_ITEM id _ => Some (map (deactivate id) state)
  | SELECT_ITEM id sel => Some (map (select id sel) state)
  | _ => None
  end.

Definition set_selected (id : Z) (sel : bool) (o : Opt.t) : Opt.t :=
  if Opt.id o =? id
  then Opt.mk (Opt.id o) (Opt.value o) (Opt.label o) (Opt.groupId o)
              (Opt.disabled o) sel (Opt.active o)
  else o.

Definition set_active (act : bool) (o : Opt.t) : Opt.t :=
  Opt.mk (Opt.id o) (Opt.value o) (Opt.label o) (Opt.groupId o)
         (Opt.disabled o) (Opt.selected o) act.

Definition has_id (id : Z) (o : Opt.t) : bool := Opt.id o =? id.

(** The options a search returned, in the search's order, as they stand in
    the collection. *)
Definition found (state results : list Opt.t) : list Opt.t :=
  flat_map (fun r => filter (has_id (Opt.id r)) state) results.

Definition missed (state results : list Opt.t) : list Opt.t :=
  filter (fun o => negb (existsb (has_id (Opt.id o)) results)) state.

(** "[addOption] appends a new option"; "[filterOptions(results)] sets
    [active=true] only for options present in the ranked result list (in
    the search's order) and [active=false] for the rest";
    "[activateOptions()] sets [active=true] for all non-disabled options".
    An option is [selected] "once the option has produced a corresponding
    Item", and removing that item unselects it. *)
Definition options (state : list Opt.t) (a : action) : option (list Opt.t) :=
  match a with
  | ADD_OPTION value label id groupId disabled =>
      Some (state ++ [Opt.mk id value label groupId disabled false true])
  | ADD_ITEM _ _ _ optionId =>
      if optionId =? -1 then None else Some (map (set_selected optionId true) state)
  | REMOVE_ITEM _ optionId =>
      if optionId =? -1 then None else Some (map (set_selected optionId false) state)
  | FILTER_OPTIONS results =>
      Some (map (set_active true) (found state results)
            ++ map (set_active false) (missed state results))
  | ACTIVATE_OPTIONS =>
      Some (map (fun o => if Opt.disabled o then o else set_active true o) state)
  | _ => None
  end.

(** "[addGroup] appends a new group with a [value] (label), [disabled]
    flag, and an [active] flag". *)
Definition groups (state : list Group.t) (a : action) : option (list Group.t) :=
  match a with
  | ADD_GROUP value id active disabled =>
      Some (state ++ [Group.mk id value active disabled])
  | _ => None
  end.

End Reducers.

(** ** Store *)

(** Modelled from the spec: the [Store] class of [./store/index], which is
    not among the sources (section 4.3).  The renderer compares collections
    by reference, so an array carries the address it was allocated at:
    "every mutation returns a new ordered sequence", and [getState] returns
    the "same object instance until next dispatch".  [dispatched] is the
    record of the actions the store has received. *)
Module Store.

Record arr (A : Type) : Type := mkArr { ref : nat; elems : list A }.

Record tree : Type := mkTree
  { tree_ref : nat;
    items : arr Item.t;
    options : arr Opt.t;
    groups : arr Group.t }.

(** The only listener the class ever registers is its own [render]. *)
Inductive listener : Type := Render.

Record t : Type := mk
  { state : tree;
    listeners : list listener;
    next_ref : nat;
    dispatched : list action }.

(** [new Store(...)]: three empty collections. *)
Definition create : t :=
  mk (mkTree 3%nat (mkArr 0%nat []) (mkArr 1%nat []) (mkArr 2%nat [])) [] 4%nat [].

Definition getState (s : t) : tree := state s.

Definition subscribe (l : listener) (s : t) : t :=
  mk (state s) (listeners s ++ [l]) (next_ref s) (dispatched s).

(** The array a reducer's answer stands for, and the next free address. *)
Definition alloc {A : Type} (r : option (list A)) (old : arr A) (n : nat)
  : arr A * nat :=
  match r with
  | None => (old, n)
  | Some l => (mkArr n l, S n)
  end.

(** The state change of [dispatch(action)]: "reduces each sub-collection
    independently" and "replaces the combined state tree".  A remove-item
    action with an option id reaches the options reducer in the same
    step, so listeners see both updates at once. *)
Definition reduce (a : action) (s : t) : t :=
  let old := state s in
  let i := alloc (Reducers.items (elems (items old)) a) (items old) (next_ref s) in
  let o := alloc (Reducers.options (elems (options old)) a) (options old) (snd i) in
  let g := alloc (Reducers.groups (elems (groups old)) a) (groups old) (snd o) in
  mk (mkTree (snd g) (fst i) (fst o) (fst g))
     (listeners s) (S (snd g)) (dispatched s ++ [a]).

(** Selectors. *)
Definition getItems (s : t) : list Item.t := elems (items (state s)).

Definition getItemsFilteredByActive (s : t) : list Item.t :=
  filter Item.active (getItems s).

Definition getItemsReducedToValues (s : t) : list string :=
  map Item.value (getItemsFilteredByActive s).

Definition getOptions (s : t) : list Opt.t := elems (options (state s)).

Definition getOptionsFilteredByActive (s : t) : list Opt.t :=
  filter Opt.active (getOptions s).

Definition selectable (o : Opt.t) : bool :=
  (Opt.active o && negb (Opt.disabled o) && negb (Opt.selected o))%bool.

(** The source spells the call [getOptionsFiltedBySelectable]. *)
Definition getOptionsFiltedBySelectable (s : t) : list Opt.t :=
  filter selectable (getOptions s).

Definition getGroupsFilteredByActive (s : t) : list Group.t :=
  filter Group.active (elems (groups (state s))).

End Store.

(** ** The page: the passed element and the elements the widget builds *)

Module Dom.

(** [element.type]; the constructor accepts the first three. *)
Inductive input_type : Type :=
| SelectOne
| SelectMultiple
| Text
| OtherType.

Definition is_select (ty : input_type) : bool :=
  match ty with SelectOne | SelectMultiple => true | _ => false end.

Definition is_select_one (ty : input_type) : bool :=
  match ty with SelectOne => true | _ => false end.

Definition is_text (ty : input_type) : bool :=
  match ty with Text => true | _ => false end.

(** A native [<option>]. *)
Record native_option : Type := mkNativeOption
  { no_value : string; no_innerHTML : string;
    no_disabled : bool; no_selected : bool }.

(** A native [<optgroup>] with the options below it. *)
Record native_group : Type := mkNativeGroup
  { ng_label : string; ng_disabled : bool; ng_options : list native_option }.

(** The element the widget was created on.  [el_value] is the string last
    assigned to its [value]. *)
Record element : Type := mkElement
  { el_type : input_type;
    el_value : string;
    el_disabled : bool;
    el_groups : list native_group;
    el_options : list native_option }.

Definition set_value (v : string) (e : element) : element :=
  mkElement (el_type e) v (el_disabled e) (el_groups e) (el_options e).

(** What the [option] template builds; [data-option-selectable] is set
    when the option is not disabled, and the highlighted state is a class
    on the element. *)
Record option_el : Type := mkOptionEl
  { oe_data : Opt.t; oe_highlighted : bool }.

Definition oe_selectable (e : option_el) : bool := negb (Opt.disabled (oe_data e)).

(** The children of the dropdown: the [option], [optgroup] and [notice]
    templates. *)
Inductive node : Type :=
| OptionEl (e : option_el)
| GroupEl (g : Group.t) (children : list option_el)
| NoticeEl (label : string).

(** What the [item] template builds. *)
Record item_el : Type := mkItemEl { ie_data : Item.t }.

(** The cloned text input. *)
Record input_el : Type := mkInput { in_value : string; in_focused : bool }.

(** The elements carrying [data-option], in document order.  An element
    of the dropdown is referred to by its position in this list. *)
Definition option_els (d : list node) : list option_el :=
  flat_map (fun n => match n with
                     | OptionEl e => [e]
                     | GroupEl _ es => es
                     | NoticeEl _ => []
                     end) d.

(** Positions from [i] on of the elements of [es] passing [p]. *)
Fixpoint positions (p : option_el -> bool) (es : list option_el) (i : nat)
  : list nat :=
  match es with
  | [] => []
  | e :: r => if p e then i :: positions p r (S i) else positions p r (S i)
  end.

(** [dropdown.querySelectorAll('[data-option-selectable]')]. *)
Definition querySelectable (d : list node) : list nat :=
  positions oe_selectable (option_els d) 0%nat.

(** [dropdown.querySelectorAll('.is-highlighted')]. *)
Definition queryHighlighted (d : list node) : list nat :=
  positions oe_highlighted (option_els d) 0%nat.

(** Rewrite the option elements of [es], numbered from [i]. *)
Fixpoint update_els (f : nat -> option_el -> option_el) (es : list option_el)
  (i : nat) : list option_el :=
  match es with
  | [] => []
  | e :: r => f i e :: update_els f r (S i)
  end.

Fixpoint update_nodes (f : nat -> option_el -> option_el) (d : list node)
  (i : nat) : list node :=
  match d with
  | [] => []
  | OptionEl e :: r => OptionEl (f i e) :: update_nodes f r (S i)
  | GroupEl g es :: r =>
      GroupEl g (update_els f es i) :: update_nodes f r (i + List.length es)%nat
  | NoticeEl l :: r => NoticeEl l :: update_nodes f r i
  end.

(** [el.classList.remove(highlightedState)] for each [el] of [refs]. *)
Definition unhighlight (refs : list nat) (d : list node) : list node :=
  update_nodes (fun i e => if existsb (Nat.eqb i) refs
                           then mkOptionEl (oe_data e) false else e) d 0%nat.

(** [el.classList.add(highlightedState)]. *)
Definition highlight (el : nat) (d : list node) : list node :=
  update_nodes (fun i e => if Nat.eqb i el
                           then mkOptionEl (oe_data e) true else e) d 0%nat.

End Dom.
Export Dom.

(** ** The widget's state and the statements over it *)

Module Widget.

(** [this.options], after the user's options were merged over the
    defaults: the fields the methods below read.  [false] for
    [prependValue] and [appendValue] is [None]. *)
Record config : Type := mkConfig
  { items : list string;
    delimiter : string;
    allowSearch : bool;
    prependValue : option string;
    appendValue : option string;
    callbackOnInit : JS.val;
    callbackOnRemoveItem : JS.val;
    callbackOnAddItem : JS.val }.

(** The constructor's [defaultOptions]. *)
Definition defaultOptions : config :=
  mkConfig [] "," true None None
           (JS.VFun "callbackOnInit") (JS.VFun "callbackOnRemoveItem")
           (JS.VFun "callbackOnAddItem").

(** [currentState] and [prevState] start as two literal [{}]. *)
Inductive snapshot : Type :=
| EmptyObject
| Snap (t : Store.tree).

(** What the page can observe besides the elements: the console and the
    calls made to the (opaque) callbacks. *)
Inductive event : Type :=
| ConsoleError (msg : string)
| Call (fn : string) (args : list JS.val).

(** A pending [setTimeout]: every timer of the class runs the [later]
    closure of a debounced function, known by the cell holding its
    [timeout] variable. *)
Record timer : Type := mkTimer { timer_id : nat; due : nat; cell : nat }.

(** The event loop's timers, in milliseconds. *)
Record timers : Type := mkTimers
  { clock : nat;
    pending : list timer;
    cells : list (option nat);
    next_timer : nat }.

(** The fields of a [Choices] object that the methods below read or write.
    [itemList] is [this.list]; [log] and [loop] stand for the console with
    the callbacks, and for the page's timers. *)
Record widget : Type := mkWidget
  { options : config;
    store : Store.t;
    currentState : snapshot;
    prevState : snapshot;
    passedElement : element;
    highlightPosition : Z;
    presetItems : list string;
    isSearching : bool;
    dropdown : option (list node);
    itemList : list item_el;
    input : input_el;
    log : list event;
    loop : timers }.

Definition set_store (x : Store.t) (w : widget) : widget :=
  mkWidget (options w) x (currentState w) (prevState w) (passedElement w)
           (highlightPosition w) (presetItems w) (isSearching w) (dropdown w)
           (itemList w) (input w) (log w) (loop w).

Definition set_currentState (x : snapshot) (w : widget) : widget :=
  mkWidget (options w) (store w) x (prevState w) (passedElement w)
           (highlightPosition w) (presetItems w) (isSearching w) (dropdown w)
           (itemList w) (input w) (log w) (loop w).

Definition set_prevState (x : snapshot) (w : widget) : widget :=
  mkWidget (options w) (store w) (currentState w) x (passedElement w)
           (highlightPosition w) (presetItems w) (isSearching w) (dropdown w)
           (itemList w) (input w) (log w) (loop w).

Definition set_passedElement (x : element) (w : widget) : widget :=
  mkWidget (options w) (store w) (currentState w) (prevState w) x
           (highlightPosition w) (presetItems w) (isSearching w) (dropdown w)
           (itemList w) (input w) (log w) (loop w).

Definition set_highlightPosition (x : Z) (w : widget) : widget :=
  mkWidget (options w) (store w) (currentState w) (prevState w) (passedElement w)
           x (presetItems w) (isSearching w) (dropdown w)
           (itemList w) (input w) (log w) (loop w).

Definition set_isSearching (x : bool) (w : widget) : widget :=
  mkWidget (options w) (store w) (currentState w) (prevState w) (passedElement w)
           (highlightPosition w) (presetItems w) x (dropdown w)
           (itemList w) (input w) (log w) (loop w).

Definition set_dropdown (x : option (list node)) (w : widget) : widget :=
  mkWidget (options w) (store w) (currentState w) (prevState w) (passedElement w)
           (highlightPosition w) (presetItems w) (isSearching w) x
           (itemList w) (input w) (log w) (loop w).

Definition set_itemList (x : list item_el) (w : widget) : widget :=
  mkWidget (options w) (store w) (currentState w) (prevState w) (passedElement w)
           (highlightPosition w) (presetItems w) (isSearching w) (dropdown w)
           x (input w) (log w) (loop w).

Definition set_input (x : input_el) (w : widget) : widget :=
  mkWidget (options w) (store w) (currentState w) (prevState w) (passedElement w)
           (highlightPosition w) (presetItems w) (isSearching w) (dropdown w)
           (itemList w) x (log w) (loop w).

Definition set_log (x : list event) (w : widget) : widget :=
  mkWidget (options w) (store w) (currentState w) (prevState w) (passedElement w)
           (highlightPosition w) (presetItems w) (isSearching w) (dropdown w)
           (itemList w) (input w) x (loop w).

Definition set_loop (x : timers) (w : widget) : widget :=
  mkWidget (options w) (store w) (currentState w) (prevState w) (passedElement w)
           (highlightPosition w) (presetItems w) (isSearching w) (dropdown w)
           (itemList w) (input w) (log w) x.

(** *** Statements *)

(** How a statement ends: it falls through with a value, it executes
    [return], or it throws. *)
Inductive outcome (A : Type) : Type :=
| Normal (a : A) (w : widget)
| Return (w : widget)
| Throw (w : widget).
Arguments Return {A} w.
Arguments Throw {A} w.

Definition M (A : Type) : Type := widget -> outcome A.

Definition ret {A : Type} (a : A) : M A := fun w => Normal a w.

Definition bind {A B : Type} (m : M A) (f : A -> M B) : M B :=
  fun w => match m w with
           | Normal a w' => f a w'
           | Return w' => Return w'
           | Throw w' => Throw w'
           end.

Definition gets {A : Type} (f : widget -> A) : M A := fun w => Normal (f w) w.

Definition modify (f : widget -> widget) : M unit := fun w => Normal tt (f w).

(** [return;] *)
Definition return_ : M unit := fun w => Return w.

(** A [TypeError]: a property of [undefined] was read. *)
Definition throw {A : Type} : M A := fun w => Throw w.

(** A function body seen from its caller: [return] ends the body only. *)
Definition method (body : M unit) : M unit :=
  fun w => match body w with
           | Normal _ w' => Normal tt w'
           | Return w' => Normal tt w'
           | Throw w' => Throw w'
           end.

(** The state a statement leaves behind, however it ended. *)
Definition exec {A : Type} (m : M A) (w : widget) : widget :=
  match m w with
  | Normal _ w' => w'
  | Return w' => w'
  | Throw w' => w'
  end.

End Widget.
Export Widget.

Declare Scope js_scope.
Delimit Scope js_scope with js.
Notation "x <- m ;; k" := (bind m (fun x => k))
  (at level 61, m at next level, right associativity) : js_scope.
Notation "m ;; k" := (bind m (fun _ => k))
  (at level 61, right associativity) : js_scope.
Bind Scope js_scope with M.
Local Open Scope js_scope.

Definition when (b : bool) (m : M unit) : M unit := if b then m else ret tt.

(** [arr.forEach(f)]. *)
Fixpoint forEach {A : Type} (f : A -> M unit) (arr : list A) : M unit :=
  match arr with
  | [] => ret tt
  | x :: r => f x ;; forEach f r
  end.

(** [console.error(msg)]. *)
Definition console_error (msg : string) : M unit :=
  modify (fun w => set_log (log w ++ [ConsoleError msg]) w).

(** Calling a value that passed the function test. *)
Definition call (f : JS.val) (args : list JS.val) : M unit :=
  match f with
  | JS.VFun name => modify (fun w => set_log (log w ++ [Call name args]) w)
  | _ => throw
  end.

(** [this.options], continued: the switches the keyboard handlers read.
    [false] for [maxItems] and [regexFilter] is [None]. *)
Module Settings.

Record t : Type := mk
  { addItems : bool;
    removeItems : bool;
    editItems : bool;
    maxItems : option Z;
    allowDuplicates : bool;
    regexFilter : option string }.

(** Their values in the constructor's [defaultOptions]. *)
Definition default : t := mk true true false None true None.

End Settings.

(** ** The classes on the container and on the dropdown *)

(** [this.options.classNames]: the state classes the handlers set. *)
Module ClassNames.

Record t : Type := mk
  { activeState : string;
    focusState : string;
    openState : string;
    flippedState : string }.

(** Their values in the constructor's [defaultOptions]. *)
Definition default : t := mk "is-active" "is-focused" "is-open" "is-flipped".

End ClassNames.

(** [element.classList], a list without repetition. *)
Module ClassList.

Definition contains (c : string) (l : list string) : bool :=
  existsb (String.eqb c) l.

Definition add (c : string) (l : list string) : list string :=
  if contains c l then l else l ++ [c].

Definition remove (c : string) (l : list string) : list string :=
  filter (fun x => negb (x =? c)%string) l.

End ClassList.

(** The class lists of [this.containerOuter] and of [this.dropdown]; a
    text input has no dropdown ([None]). *)
Module Chrome.

Record t : Type := mk
  { containerOuter : list string;
    dropdown : option (list string) }.

(** How a method over the classes ends: normally, or by reading
    [classList] of the missing dropdown, with the classes as they stand
    then. *)
Inductive result : Type :=
| Done (c : t)
| TypeError (c : t).

End Chrome.

(** ** The class *)

Module Choices.

(** *** Rendering *)

(** Comparing two snapshots, or the same field of two snapshots, with
    [!==]; a field of [{}] is [undefined]. *)
Definition differs (cur prev : snapshot) : bool :=
  match cur, prev with
  | Snap c, Snap p => negb (Nat.eqb (Store.tree_ref c) (Store.tree_ref p))
  | _, _ => true
  end.

Definition field_differs {A : Type} (f : Store.tree -> Store.arr A)
  (cur prev : snapshot) : bool :=
  match cur, prev with
  | Snap c, Snap p => negb (Nat.eqb (Store.ref (f c)) (Store.ref (f p)))
  | EmptyObject, EmptyObject => false
  | _, _ => true
  end.

(** [this.dropdown], where the code reads a property of it. *)
Definition the_dropdown : M (list node) :=
  d <- gets dropdown ;;
  match d with
  | Some d => ret d
  | None => throw
  end.

(** The element [highlightOption] picks when it is called without one:
    [options[highlightPosition]] if the array is longer than the position,
    the last element otherwise, and [options[0]] when that gave
    [undefined]. *)
Definition lastKnown (options : list nat) (highlightPosition : Z) : option nat :=
  let el := if JS.length options >? highlightPosition
            then JS.index options highlightPosition
            else JS.index options (JS.length options - 1) in
  match el with
  | None => JS.index options 0
  | Some _ => el
  end.

(** [highlightOption(el)]; [None] is the call without an argument.
    Adding the class to [undefined] would throw. *)
Definition highlightOption (el : option nat) : M unit :=
  method (
    d <- the_dropdown ;;
    let options := querySelectable d in
    when (negb (JS.length options =? 0)) (
      let highlightedOptions := queryHighlighted d in
      let d := unhighlight highlightedOptions d in
      modify (set_dropdown (Some d)) ;;
      match el with
      | Some el =>
          modify (set_dropdown (Some (highlight el d))) ;;
          modify (set_highlightPosition (JS.indexOf options el))
      | None =>
          (* Highlight option based on last known highlight location *)
          hp <- gets highlightPosition ;;
          match lastKnown options hp with
          | Some el => modify (set_dropdown (Some (highlight el d)))
          | None => throw
          end
      end)).

Definition option_template (data : Opt.t) : option_el := mkOptionEl data false.

Definition renderGroups (groups : list Group.t) (options : list Opt.t)
  (fragment : list node) : list node :=
  fold_left
    (fun fragment group =>
       let groupOptions :=
         filter (fun option => Opt.groupId option =? Group.id group) options in
       if JS.length groupOptions >=? 1
       then fragment ++ [GroupEl group (map option_template groupOptions)]
       else fragment)
    groups fragment.

Definition renderOptions (type : input_type) (options : list Opt.t)
  (fragment : list node) : list node :=
  fold_left
    (fun fragment option =>
       let dropdownItem := OptionEl (option_template option) in
       if is_select_one type then fragment ++ [dropdownItem]
       else if negb (Opt.selected option) then fragment ++ [dropdownItem]
       else fragment)
    options fragment.

Definition renderItems (items : list Item.t) (fragment : list item_el) : M unit :=
  method (
    s <- gets store ;;
    let itemsFiltered := Store.getItemsReducedToValues s in
    cfg <- gets options ;;
    modify (fun w => set_passedElement
                       (set_value (JS.join (delimiter cfg) itemsFiltered)
                                  (passedElement w)) w) ;;
    modify (set_itemList []) ;;
    let fragment := fold_left (fun fragment item => fragment ++ [mkItemEl item])
                              items fragment in
    modify (fun w => set_itemList (itemList w ++ fragment) w)).

Definition no_results : string := "No results found".
Definition no_options : string := "No options to select".

(** The fragment [render] builds for the dropdown. *)
Definition optionListFragment (type : input_type) (searching : bool)
  (activeGroups : list Group.t) (activeOptions : list Opt.t) : list node :=
  if ((JS.length activeGroups >=? 1) && negb searching)%bool
  then renderGroups activeGroups activeOptions []
  else if JS.length activeOptions >=? 1
       then renderOptions type activeOptions []
       else [].

(** [this.dropdown.appendChild(...)], of an element or of a fragment's
    children. *)
Definition appendChildren (nodes : list node) : M unit :=
  d <- the_dropdown ;;
  modify (set_dropdown (Some (d ++ nodes))).

Definition render : M unit :=
  method (
    s <- gets store ;;
    modify (set_currentState (Snap (Store.getState s))) ;;
    cur <- gets currentState ;;
    prev <- gets prevState ;;
    when (differs cur prev) (
      (* OPTIONS *)
      when (field_differs Store.options cur prev
            || field_differs Store.groups cur prev)%bool (
        el <- gets passedElement ;;
        when (is_select (el_type el)) (
          let activeGroups := Store.getGroupsFilteredByActive s in
          let activeOptions := Store.getOptionsFilteredByActive s in
          _ <- the_dropdown ;;
          modify (set_dropdown (Some [])) ;;
          searching <- gets isSearching ;;
          let fragment :=
            optionListFragment (el_type el) searching activeGroups activeOptions in
          if negb (JS.length fragment =? 0)
          then appendChildren fragment ;;
               highlightOption None
          else
            let dropdownItem :=
              if searching then NoticeEl no_results else NoticeEl no_options in
            appendChildren [dropdownItem])) ;;
      (* ITEMS *)
      when (field_differs Store.items cur prev) (
        let activeItems := Store.getItemsFilteredByActive s in
        renderItems activeItems []) ;;
      modify (set_prevState cur))).

(** *** The store's [dispatch], seen from the widget *)

Definition notify (l : Store.listener) : M unit :=
  match l with Store.Render => render end.

(** [this.store.dispatch(action)]: the state is replaced, then every
    listener runs. *)
Definition dispatch (a : action) : M unit :=
  modify (fun w => set_store (Store.reduce a (store w)) w) ;;
  s <- gets store ;;
  forEach notify (Store.listeners s).

(** *** Items *)

(** [removeItem(item, callback = this.options.callbackOnRemoveItem)]. *)
Definition removeItem (item callback : JS.val) : M unit :=
  method (
    when (negb (JS.truthy item) || negb (JS.isType "Object" item))%bool (
      console_error "removeItem: No item object was passed to be removed" ;;
      return_) ;;
    match item with
    | JS.VObj item =>
        let id := Item.id item in
        let value := Item.value item in
        let optionId := Item.optionId item in
        dispatch (Actions.removeItem id optionId) ;;
        cfg <- gets options ;;
        let callback := JS.default callback (callbackOnRemoveItem cfg) in
        (* Run callback *)
        when (JS.truthy callback) (
          when (negb (JS.isType "Function" callback))
               (console_error "callbackOnRemoveItem: Callback is not a function") ;;
          return_ ;;
          call callback [JS.VStr value])
    | _ => throw
    end).

(** [removeItemsByValue(value)]. *)
Definition removeItemsByValue (value : JS.val) : M unit :=
  method (
    when (negb (JS.truthy value) || negb (JS.isType "String" value))%bool
         (console_error "removeItemsByValue: No value was passed to be removed") ;;
    return_ ;;
    s <- gets store ;;
    let items := Store.getItemsFilteredByActive s in
    forEach (fun item =>
               when (match value with
                     | JS.VStr v => (Item.value item =? v)%string
                     | _ => false
                     end)
                    (removeItem (JS.VObj item) JS.VUndefined))
            items).

(** [removeActiveItems(excludedId)]. *)
Definition removeActiveItems (excludedId : Z) : M unit :=
  method (
    s <- gets store ;;
    let items := Store.getItemsFilteredByActive s in
    forEach (fun item =>
               when (Item.active item && negb (excludedId =? Item.id item))%bool
                    (removeItem (JS.VObj item) JS.VUndefined))
            items).

(** [label || passedValue]. *)
Definition or_label (label : option string) (passedValue : string) : string :=
  match label with
  | Some l => if (l =? "")%string then passedValue else l
  | None => passedValue
  end.

(** [optionId = -1] for a missing argument, then [optionId || -1]. *)
Definition or_optionId (optionId : option Z) : Z :=
  match optionId with
  | Some i => if i =? 0 then -1 else i
  | None => -1
  end.

(** [addItem(value, label, optionId = -1,
             callback = this.options.callbackOnAddItem)]. *)
Definition addItem (value : string) (label : option string)
  (optionId : option Z) (callback : JS.val) : M unit :=
  method (
    s <- gets store ;;
    let items := Store.getItems s in
    let passedValue := JS.trim value in
    let passedLabel := or_label label passedValue in
    let passedOptionId := or_optionId optionId in
    cfg <- gets options ;;
    (* If a prepended value has been passed, prepend it *)
    let passedValue :=
      match prependValue cfg with
      | Some p => if (p =? "")%string then passedValue else (p ++ passedValue)%string
      | None => passedValue
      end in
    (* If an appended value has been passed, append it *)
    let passedValue :=
      match appendValue cfg with
      | Some a => if (a =? "")%string then passedValue else (passedValue ++ a)%string
      | None => passedValue
      end in
    (* Generate unique id; [items] is an array, hence truthy *)
    let id := JS.length items + 1 in
    dispatch (Actions.addItem passedValue passedLabel id passedOptionId) ;;
    el <- gets passedElement ;;
    when (is_select_one (el_type el)) (removeActiveItems id) ;;
    let callback := JS.default callback (callbackOnAddItem cfg) in
    (* Run callback if it is a function *)
    when (JS.truthy callback) (
      if JS.isType "Function" callback
      then call callback [JS.VNum id; JS.VStr value]
      else console_error "callbackOnAddItem: Callback is not a function")).

(** *** Building the widget *)

(** [addOption(option, groupId = -1)].  [parentDisabled] stands for
    [option.parentNode.disabled]. *)
Definition addOption (option : native_option) (parentDisabled : bool)
  (groupId : Z) : M unit :=
  method (
    (* Generate unique id *)
    s <- gets store ;;
    let options := Store.getOptions s in
    let id := JS.length options + 1 in
    let value := no_value option in
    let label := no_innerHTML option in
    let isDisabled := (no_disabled option || parentDisabled)%bool in
    dispatch (Actions.addOption value label id groupId isDisabled) ;;
    when (no_selected option && negb isDisabled)%bool
         (addItem value (Some label) (Some id) JS.VUndefined)).

(** [addGroup(group, id, isFirst)]; [Array.from(...)] is an array, so the
    first branch is the one taken. *)
Definition addGroup (group : native_group) (id : Z) (isFirst : bool) : M unit :=
  method (
    let groupOptions := ng_options group in
    let groupId := id in
    dispatch (Actions.addGroup (ng_label group) groupId true (ng_disabled group)) ;;
    forEach (fun option => addOption option (ng_disabled group) groupId)
            groupOptions).

(** [forEach] with the index of each element. *)
Fixpoint forEachIndexed {A : Type} (f : A -> Z -> M unit) (arr : list A)
  (index : Z) : M unit :=
  match arr with
  | [] => ret tt
  | x :: r => f x index ;; forEachIndexed f r (index + 1)
  end.

(** [generateInput()]: the store-facing part.  The containers it builds
    are assigned at its end.  The source's second test for [select-one] is
    covered by the first one and never reached. *)
Definition generateInput : M unit :=
  method (
    el <- gets passedElement ;;
    (if is_select (el_type el) then
       modify (set_highlightPosition 0) ;;
       modify (set_dropdown (Some [])) ;;
       modify (set_isSearching false) ;;
       let passedGroups := el_groups el in
       if negb (JS.length passedGroups =? 0) then
         forEachIndexed (fun group index => addGroup group index (index =? 0))
                        passedGroups 0
       else
         forEach (fun option => addOption option (el_disabled el) (-1))
                 (el_options el)
     else if is_text (el_type el) then
       (* Add any preset values seperated by delimiter *)
       presets <- gets presetItems ;;
       forEach (fun value => addItem value None None JS.VUndefined) presets
     else ret tt) ;;
    modify (set_input (mkInput "" false)) ;;
    modify (set_itemList [])).

(** [init(callback = this.options.callbackOnInit)]. *)
Definition init (callback : JS.val) : M unit :=
  method (
    generateInput ;;
    modify (fun w => set_store (Store.subscribe Store.Render (store w)) w) ;;
    (* Render any items *)
    render ;;
    cfg <- gets options ;;
    let callback := JS.default callback (callbackOnInit cfg) in
    when (JS.truthy callback) (
      if JS.isType "Function" callback
      then call callback []
      else console_error "callbackOnInit: Callback is not a function")).

Definition canInit (element : element) : bool :=
  match el_type element with
  | SelectOne | SelectMultiple | Text => true
  | OtherType => false
  end.

(** The fields as the constructor sets them before [init].  [isSearching]
    is [undefined] until [generateInput]; both tests on it ([!== true] and
    truthiness) read [undefined] as they read [false]. *)
Definition fields (element : element) (userOptions : config) : widget :=
  mkWidget userOptions Store.create EmptyObject EmptyObject element 0
    (if negb (JS.length (items userOptions) =? 0) then items userOptions
     else if negb (el_value element =? "")%string
          then JS.split (delimiter userOptions) (el_value element)
          else [])
    false None [] (mkInput "" false) [] (mkTimers 0 [] [] 0).

(** [new Choices(element, userOptions)] on an element (not a selector). *)
Definition constructor (element : element) (userOptions : config)
  : outcome unit :=
  (if canInit element
   then init JS.VUndefined
   else console_error "Choices: Incompatible input passed")
    (fields element userOptions).

Definition new (element : element) (userOptions : config) : widget :=
  exec (fun _ => constructor element userOptions) (fields element userOptions).

(** *** Timers and the debounced search *)

Definition set_pending (x : list timer) (t : timers) : timers :=
  mkTimers (clock t) x (cells t) (next_timer t).

Definition set_clock (x : nat) (t : timers) : timers :=
  mkTimers x (pending t) (cells t) (next_timer t).

Fixpoint assign {A : Type} (i : nat) (x : A) (l : list A) : list A :=
  match l, i with
  | [], _ => []
  | _ :: r, O => x :: r
  | y :: r, S j => y :: assign j x r
  end.

(** [timeout = x] in the closure whose variable is cell [c]. *)
Definition set_cell (c : nat) (x : option nat) : M unit :=
  modify (fun w => set_loop (mkTimers (clock (loop w)) (pending (loop w))
                                      (assign c x (cells (loop w)))
                                      (next_timer (loop w))) w).

(** [clearTimeout(id)]; nothing happens for [null] or a timer that ran. *)
Definition clearTimeout (id : option nat) : M unit :=
  match id with
  | None => ret tt
  | Some id =>
      modify (fun w => set_loop
                (set_pending (filter (fun t => negb (Nat.eqb (timer_id t) id))
                                     (pending (loop w))) (loop w)) w)
  end.

(** [setTimeout(later, wait)], [later] being the closure over cell [c]. *)
Definition setTimeout (c : nat) (wait : nat) : M nat :=
  lp <- gets loop ;;
  let id := next_timer lp in
  modify (set_loop (mkTimers (clock lp)
                             (pending lp ++ [mkTimer id (clock lp + wait) c])
                             (cells lp) (S id))) ;;
  ret id.

(** Modelled from the spec: [debounce] of [lib/utils.js], which is not
    among the sources.  "Only the most recent debounced invocation within
    the delay window executes; earlier scheduled invocations are discarded
    (cancellation-by-replacement, not explicit cancellation tokens)":
    [debounce(func, wait)] returns a function with a [timeout] variable of
    its own, and calling that function replaces the invocation it has
    pending, if any, by one due [wait] milliseconds from now.
    [debounce] is the creation of the function (the fresh cell),
    [debounced] a call of it. *)
Definition debounce : M nat :=
  lp <- gets loop ;;
  let c := List.length (cells lp) in
  modify (set_loop (mkTimers (clock lp) (pending lp) (cells lp ++ [None])
                             (next_timer lp))) ;;
  ret c.

Definition debounced (c : nat) (wait : nat) : M unit :=
  method (
    lp <- gets loop ;;
    clearTimeout (nth c (cells lp) None) ;;
    id <- setTimeout c wait ;;
    set_cell c (Some id)).

Section Search.

(** [new Fuse(haystack, ...).search(needle)]: the ranked matches, an
    external collaborator. *)
Variable fuse_search : list Opt.t -> string -> list Opt.t.

(** The arrow function [onKeyUp] hands to [debounce]. *)
Definition handleFilter_body : M unit :=
  method (
    inp <- gets input ;;
    (* Ensure value *still* has a value after 500 delay *)
    when (negb (in_value inp =? "")%string
          && (1 <=? String.length (in_value inp))%nat)%bool (
      s <- gets store ;;
      let haystack := Store.getOptionsFiltedBySelectable s in
      let needle := in_value inp in
      let results := fuse_search haystack needle in
      modify (set_isSearching true) ;;
      dispatch (Actions.filterOptions results))).

(** The [later] closure of a debounced function. *)
Definition later (c : nat) : M unit :=
  method (
    set_cell c None ;;
    handleFilter_body).

(** The timer to run next when the clock reaches [t]: the earliest due,
    the first set among equals. *)
Definition sooner (t : nat) (best : option timer) (tm : timer) : option timer :=
  if (due tm <=? t)%nat
  then match best with
       | None => Some tm
       | Some b => if (due tm <? due b)%nat then Some tm else best
       end
  else best.

Definition earliest (t : nat) (l : list timer) : option timer :=
  fold_left (sooner t) l None.

(** Run the timers due by [t].  A timer's body sets no timer, so the
    number of pending timers bounds the runs; [fuel] is that number. *)
Fixpoint run_due (fuel : nat) (t : nat) : M unit :=
  match fuel with
  | O => ret tt
  | S k =>
      lp <- gets loop ;;
      match earliest t (pending lp) with
      | None => ret tt
      | Some tm =>
          clearTimeout (Some (timer_id tm)) ;;
          modify (fun w => set_loop (set_clock (due tm) (loop w)) w) ;;
          later (cell tm) ;;
          run_due k t
      end
  end.

(** [ms] milliseconds pass with no event from the page. *)
Definition elapse (ms : nat) : M unit :=
  lp <- gets loop ;;
  let t := (clock lp + ms)%nat in
  run_due (List.length (pending lp)) t ;;
  modify (fun w => set_loop (set_clock t (loop w)) w).

End Search.

(** A key event; [target_is_input] is [e.target === this.input]. *)
Record key_event : Type := mkKeyEvent { target_is_input : bool }.

(** [onKeyUp(e)].  [this.input === document.activeElement] is the focus
    of the cloned input. *)
Definition onKeyUp (e : key_event) : M unit :=
  method (
    when (negb (target_is_input e)) return_ ;;
    d <- gets dropdown ;;
    cfg <- gets options ;;
    when (match d with Some _ => true | None => false end && allowSearch cfg)%bool (
      inp <- gets input ;;
      when (in_focused inp) (
        s <- gets store ;;
        let options := Store.getOptions s in
        let hasUnactiveOptions :=
          existsb (fun option => negb (Opt.active option)) options in
        (* Check that have a value to search *)
        if (negb (in_value inp =? "")%string && negb (JS.length options =? 0))%bool
        then
          handleFilter <- debounce ;;
          debounced handleFilter 500
        else if hasUnactiveOptions then
          (* Otherwise reset options to active *)
          modify (set_isSearching false) ;;
          dispatch Actions.activateOptions
        else ret tt))).

(** A keystroke in the focused input: the page updates the input's value,
    then delivers the key-up event. *)
Definition keystroke (value : string) : M unit :=
  modify (set_input (mkInput value true)) ;;
  onKeyUp (mkKeyEvent true).

(** *** Selecting items, and the keys that add and remove them *)

(** [selectItem(item)].  The class passes an item of the store or
    [undefined], which is [None]. *)
Definition selectItem (item : option Item.t) : M unit :=
  method (
    match item with
    | None => return_
    | Some item =>
        let id := Item.id item in
        dispatch (Actions.selectItem id true)
    end).

(** [deselectItem(item)]. *)
Definition deselectItem (item : option Item.t) : M unit :=
  method (
    match item with
    | None => return_
    | Some item =>
        let id := Item.id item in
        dispatch (Actions.selectItem id false)
    end).

(** [selectAll()]. *)
Definition selectAll : M unit :=
  method (
    s <- gets store ;;
    let items := Store.getItems s in
    forEach (fun item => selectItem (Some item)) items).

(** [deselectAll()]. *)
Definition deselectAll : M unit :=
  method (
    s <- gets store ;;
    let items := Store.getItems s in
    forEach (fun item => deselectItem (Some item)) items).

(** [removeSelectedItems()]. *)
Definition removeSelectedItems : M unit :=
  method (
    s <- gets store ;;
    let items := Store.getItemsFilteredByActive s in
    forEach (fun item =>
               when (Item.selected item && Item.active item)%bool
                    (removeItem (JS.VObj item) JS.VUndefined))
            items).

(** [clearInput()]; the argument the callers pass is not read. *)
Definition clearInput : M unit :=
  method (
    inp <- gets input ;;
    when (negb (in_value inp =? "")%string)
         (modify (set_input (mkInput "" (in_focused inp))))).

Section Keys.

Variable settings : Settings.t.

(** [new RegExp(pattern, 'i').test(value)], an external collaborator:
    [None] when the pattern is not a regular expression and the
    constructor throws. *)
Variable regexp_test : string -> string -> option bool.

(** [regexFilter(value)]; [RegExp(false)] is the pattern ["false"]. *)
Definition regexFilter (value : string) : M bool :=
  let pattern := match Settings.regexFilter settings with
                 | Some p => p
                 | None => "false"
                 end in
  match regexp_test pattern value with
  | Some passesTest => ret passesTest
  | None => throw
  end.

(** [this.options.maxItems && this.options.maxItems <= children]. *)
Definition reached (maxItems : option Z) (children : Z) : bool :=
  match maxItems with
  | Some n => (negb (n =? 0) && (n <=? children))%bool
  | None => false
  end.

(** [handleEnter(activeItems, value)]. *)
Definition handleEnter (activeItems : list Item.t) (value : string) : M unit :=
  method (
    el <- gets passedElement ;;
    when (is_text (el_type el)) (
      list <- gets itemList ;;
      let canUpdate :=
        if Settings.addItems settings then
          if reached (Settings.maxItems settings) (JS.length list)
          then false
          else if (negb (Settings.allowDuplicates settings)
                   && negb (el_value el =? "")%string)%bool
               then negb (existsb (fun item => (Item.value item =? value)%string)
                                  activeItems)
               else true
        else false in
      when canUpdate (
        canAddItem <-
          match Settings.regexFilter settings with
          | Some p => if (p =? "")%string then ret true else regexFilter value
          | None => ret true
          end ;;
        (* All is good, add *)
        when canAddItem (
          addItem value None None JS.VUndefined ;;
          clearInput)))).

(** [handleBackspace(activeItems)]; an array is truthy. *)
Definition handleBackspace (activeItems : list Item.t) : M unit :=
  method (
    when (Settings.removeItems settings) (
      let lastItem := JS.index activeItems (JS.length activeItems - 1) in
      let hasSelectedItems := existsb Item.selected activeItems in
      if (Settings.editItems settings && negb hasSelectedItems
          && match lastItem with Some _ => true | None => false end)%bool
      then
        match lastItem with
        | Some item =>
            modify (fun w => set_input (mkInput (Item.value item)
                                                (in_focused (input w))) w) ;;
            removeItem (JS.VObj item) JS.VUndefined
        | None => throw
        end
      else
        selectItem lastItem ;;
        removeSelectedItems)).

End Keys.

(** *** Showing and hiding the dropdown *)

Section Visibility.

Variable classNames : ClassNames.t.

(** [showDropdown()]; [shouldFlip] is what the page's geometry gives for
    [dimensions.top + dimensions.height >= document.body.offsetHeight]. *)
Definition showDropdown (shouldFlip : bool) (c : Chrome.t) : Chrome.result :=
  let outer := ClassList.add (ClassNames.openState classNames)
                             (Chrome.containerOuter c) in
  match Chrome.dropdown c with
  | None => Chrome.TypeError (Chrome.mk outer None)
  | Some dropdown =>
      let dropdown := ClassList.add (ClassNames.activeState classNames) dropdown in
      (* Whether or not the dropdown should appear above or below input *)
      let outer :=
        if shouldFlip
        then ClassList.add (ClassNames.flippedState classNames) outer
        else ClassList.remove (ClassNames.flippedState classNames) outer in
      Chrome.Done (Chrome.mk outer (Some dropdown))
  end.

(** [hideDropdown()]. *)
Definition hideDropdown (c : Chrome.t) : Chrome.result :=
  (* A dropdown flips if it does not have space below the input *)
  let isFlipped := ClassList.contains (ClassNames.flippedState classNames)
                                      (Chrome.containerOuter c) in
  let outer := ClassList.remove (ClassNames.openState classNames)
                                (Chrome.containerOuter c) in
  match Chrome.dropdown c with
  | None => Chrome.TypeError (Chrome.mk outer None)
  | Some dropdown =>
      let dropdown := ClassList.remove (ClassNames.activeState classNames) dropdown in
      let outer :=
        if isFlipped
        then ClassList.remove (ClassNames.flippedState classNames) outer
        else outer in
      Chrome.Done (Chrome.mk outer (Some dropdown))
  end.

(** [toggleDropdown()]. *)
Definition toggleDropdown (shouldFlip : bool) (c : Chrome.t) : Chrome.result :=
  match Chrome.dropdown c with
  | None => Chrome.Done c
  | Some dropdown =>
      let isActive := ClassList.contains (ClassNames.activeState classNames)
                                         dropdown in
      if isActive then hideDropdown c else showDropdown shouldFlip c
  end.

(** [this.dropdown && this.dropdown.classList.contains(activeState)]. *)
Definition hasActiveDropdown (c : Chrome.t) : bool :=
  match Chrome.dropdown c with
  | None => false
  | Some dropdown => ClassList.contains (ClassNames.activeState classNames) dropdown
  end.

(** [onFocus(e)]. *)
Definition onFocus (c : Chrome.t) : Chrome.t :=
  if negb (ClassList.contains (ClassNames.activeState classNames)
                              (Chrome.containerOuter c))
  then Chrome.mk (ClassList.add (ClassNames.focusState classNames)
                                (Chrome.containerOuter c))
                 (Chrome.dropdown c)
  else c.

(** [onBlur(e)]. *)
Definition onBlur (c : Chrome.t) : Chrome.t :=
  if negb (hasActiveDropdown c)
  then Chrome.mk (ClassList.remove (ClassNames.focusState classNames)
                                   (Chrome.containerOuter c))
                 (Chrome.dropdown c)
  else c.

(** *** Clicks *)

Variable settings : Settings.t.

(** Where a click landed: on an element of the container carrying
    [data-item] or [data-option], with the [data-id] the template wrote
    there, elsewhere in the container, or outside it. *)
Inductive click_target : Type :=
| OnItem (passedId : Z)
| OnOption (id : Z)
| Inside
| Outside.

(** A click event; [shouldFlip] is the page's geometry at that time. *)
Record click_event : Type := mkClick
  { target : click_target; shiftKey : bool; shouldFlip : bool }.

(** A method over the classes, called from a handler. *)
Definition lift (r : Chrome.result) : M Chrome.t :=
  match r with
  | Chrome.Done c => ret c
  | Chrome.TypeError _ => throw
  end.

(** [this.input.focus()]: the input takes the focus unless it is disabled,
    which [generateInput] makes it when [addItems] is off, and the focus
    listener runs. *)
Definition focus (c : Chrome.t) : M Chrome.t :=
  if Settings.addItems settings
  then modify (fun w => set_input (mkInput (in_value (input w)) true) w) ;;
       ret (onFocus c)
  else ret c.

(** [onClick(e)]. *)
Definition onClick (e : click_event) (c : Chrome.t) : M Chrome.t :=
  s <- gets store ;;
  let activeItems := Store.getItemsFilteredByActive s in
  let hasShiftKey := shiftKey e in
  c <- (if (match Chrome.dropdown c with Some _ => true | None => false end
            && negb (hasActiveDropdown c))%bool
        then lift (toggleDropdown (shouldFlip e) c)
        else ret c) ;;
  match target e with
  | Outside =>
      (* Click is outside of our element so close dropdown and de-select items *)
      let hasSelectedItems := existsb Item.selected activeItems in
      when hasSelectedItems deselectAll ;;
      let c := Chrome.mk (ClassList.remove (ClassNames.focusState classNames)
                                           (Chrome.containerOuter c))
                         (Chrome.dropdown c) in
      if hasActiveDropdown c
      then lift (toggleDropdown (shouldFlip e) c)
      else ret c
  | inside =>
      (* If input is not in focus, it ought to be *)
      inp <- gets input ;;
      c <- (if negb (in_focused inp) then focus c else ret c) ;;
      match inside with
      | OnItem passedId =>
          (* If we are clicking on an item *)
          when (Settings.removeItems settings)
               (forEach (fun item =>
                           if ((Item.id item =? passedId)
                               && negb (Item.selected item))%bool
                           then selectItem (Some item)
                           else if negb hasShiftKey
                                then deselectItem (Some item)
                                else ret tt)
                        activeItems) ;;
          ret c
      | OnOption id =>
          (* If we are clicking on an option *)
          s <- gets store ;;
          let options := Store.getOptionsFilteredByActive s in
          match find (fun option => Opt.id option =? id) options with
          | None => throw
          | Some option =>
              if (negb (Opt.selected option) && negb (Opt.disabled option))%bool
              then
                addItem (Opt.value option) (Some (Opt.label option))
                        (Some (Opt.id option)) JS.VUndefined ;;
                el <- gets passedElement ;;
                if is_select_one (el_type el)
                then lift (toggleDropdown (shouldFlip e) c)
                else ret c
              else ret c
          end
      | _ => ret c
      end
  end.

End Visibility.

End Choices.
Export Choices.

(** ** Notions used in the statements *)

(** Every address of the tree is one the store has handed out. *)
Definition tree_below (n : nat) (t : Store.tree) : bool :=
  ((Store.tree_ref t <? n)%nat
   && (Store.ref (Store.items t) <? n)%nat
   && (Store.ref (Store.options t) <? n)%nat
   && (Store.ref (Store.groups t) <? n)%nat)%bool.

Definition snapshot_below (n : nat) (s : snapshot) : bool :=
  match s with
  | EmptyObject => true
  | Snap t => tree_below n t
  end.

Definition has_dropdown (w : widget) : bool :=
  match dropdown w with Some _ => true | None => false end.

(** The state [generateInput] leaves and every method keeps: a select has
    its dropdown, and the snapshots hold addresses of past states only. *)
Definition ready (w : widget) : bool :=
  ((negb (is_select (el_type (passedElement w))) || has_dropdown w)
   && tree_below (Store.next_ref (store w)) (Store.state (store w))
   && snapshot_below (Store.next_ref (store w)) (prevState w))%bool.

(** [init] has subscribed [render]. *)
Definition subscribed (w : widget) : bool :=
  negb (JS.length (Store.listeners (store w)) =? 0).

(** The control's value, and the string the store's items serialize to. *)
Definition controlValue (w : widget) : string := el_value (passedElement w).

Definition serialized (w : widget) : string :=
  JS.join (delimiter (options w)) (Store.getItemsReducedToValues (store w)).

Definition synced (w : widget) : bool := (controlValue w =? serialized w)%string.

(** The ids [1..n]. *)
Definition ids_upto (n : nat) : list Z := map Z.of_nat (seq 1 n).

Fixpoint ids_match (ids expected : list Z) : bool :=
  match ids, expected with
  | [], [] => true
  | i :: r, e :: r' => (i =? e) && ids_match r r'
  | _, _ => false
  end.

(** The items carry the ids [1..n] in insertion order. *)
Definition ids_in_order (w : widget) : bool :=
  let items := Store.getItems (store w) in
  ids_match (map Item.id items) (ids_upto (List.length items)).

(** The arguments of one [addItem] call. *)
Record add_args : Type := mkAddArgs
  { arg_value : string;
    arg_label : option string;
    arg_optionId : option Z;
    arg_callback : JS.val }.

Definition addItem_with (a : add_args) : M unit :=
  addItem (arg_value a) (arg_label a) (arg_optionId a) (arg_callback a).

(** The value [addItem] stores for an argument. *)
Definition storedValue (cfg : config) (value : string) : string :=
  let v := JS.trim value in
  let v := match prependValue cfg with
           | Some p => if (p =? "")%string then v else (p ++ v)%string
           | None => v
           end in
  match appendValue cfg with
  | Some a => if (a =? "")%string then v else (v ++ a)%string
  | None => v
  end.

Definition remove_action (it : Item.t) : action :=
  REMOVE_ITEM (Item.id it) (Item.optionId it).

(** [render]'s test for the option and group region. *)
Definition options_dirty (w : widget) : bool :=
  let cur := Snap (Store.getState (store w)) in
  (differs cur (prevState w)
   && (field_differs Store.options cur (prevState w)
       || field_differs Store.groups cur (prevState w)))%bool.

Definition items_dirty (w : widget) : bool :=
  let cur := Snap (Store.getState (store w)) in
  (differs cur (prevState w) && field_differs Store.items cur (prevState w))%bool.

(** The fragment [render] would build in state [w]. *)
Definition fragment_of (w : widget) : list node :=
  optionListFragment (el_type (passedElement w)) (isSearching w)
    (Store.getGroupsFilteredByActive (store w))
    (Store.getOptionsFilteredByActive (store w)).

Definition notice_of (w : widget) : node :=
  if isSearching w then NoticeEl no_results else NoticeEl no_options.

(** A list of nodes without the highlighted class. *)
Definition clear_highlight (e : option_el) : option_el := mkOptionEl (oe_data e) false.

Definition plain (d : list node) : list node :=
  update_nodes (fun _ e => clear_highlight e) d 0%nat.

(** A position clamped to the bounds of an array of [len] elements. *)
Definition clamp (position : Z) (len : nat) : nat :=
  Z.to_nat (Z.max 0 (Z.min position (Z.of_nat len - 1))).

(** The dropdown [d] after the highlight was restored from [position]: the
    selectable element at the clamped position is the highlighted one; a
    dropdown without selectable elements is left as it is. *)
Definition restored (position : Z) (d : list node) : list node :=
  match querySelectable d with
  | [] => d
  | options =>
      highlight (nth (clamp position (List.length options)) options 0%nat)
                (unhighlight (queryHighlighted d) d)
  end.

(** What a [render] that does not throw leaves in each field. *)
Definition rendered_dropdown (w : widget) : option (list node) :=
  if (options_dirty w && is_select (el_type (passedElement w)))%bool
  then Some (if JS.length (fragment_of w) =? 0
             then [notice_of w]
             else restored (highlightPosition w) (fragment_of w))
  else dropdown w.

Definition rendered_element (w : widget) : element :=
  if items_dirty w
  then set_value (serialized w) (passedElement w)
  else passedElement w.

Definition rendered_items (w : widget) : list item_el :=
  if items_dirty w
  then map mkItemEl (Store.getItemsFilteredByActive (store w))
  else itemList w.

Definition rendered (w : widget) : widget :=
  let cur := Snap (Store.getState (store w)) in
  mkWidget (options w) (store w) cur
           (if differs cur (prevState w) then cur else prevState w)
           (rendered_element w) (highlightPosition w) (presetItems w)
           (isSearching w) (rendered_dropdown w) (rendered_items w)
           (input w) (log w) (loop w).

(** The widget as [init] has it when it calls [render] for the first time. *)
Definition before_first_render (element : element) (userOptions : config) : widget :=
  exec (generateInput ;;
        modify (fun w => set_store (Store.subscribe Store.Render (store w)) w))
       (fields element userOptions).

(** A widget whose store has taken an action that was not rendered yet. *)
Definition unrendered (a : action) (w : widget) : widget :=
  set_store (Store.reduce a (store w)) w.

(** [w'] differs from [w] in what is shown only: the elements built and the
    snapshots behind them. *)
Definition same_but_view (w w' : widget) : Prop :=
  store w' = store w /\ options w' = options w /\ log w' = log w
  /\ loop w' = loop w /\ input w' = input w /\ isSearching w' = isSearching w
  /\ presetItems w' = presetItems w /\ highlightPosition w' = highlightPosition w
  /\ el_type (passedElement w') = el_type (passedElement w).

(** A select has its dropdown: what [render] needs in order not to throw. *)
Definition mounted (w : widget) : bool :=
  (negb (is_select (el_type (passedElement w))) || has_dropdown w)%bool.

(** What the methods leave, for a mounted widget. *)
Definition after_dispatch (a : action) (w : widget) : widget :=
  fold_left (fun w _ => rendered w) (Store.listeners (store w)) (unrendered a w).

Definition remove_diagnostic : event :=
  ConsoleError "callbackOnRemoveItem: Callback is not a function".

Definition add_diagnostic : event :=
  ConsoleError "callbackOnAddItem: Callback is not a function".

Definition no_item_diagnostic : event :=
  ConsoleError "removeItem: No item object was passed to be removed".

Definition no_value_diagnostic : event :=
  ConsoleError "removeItemsByValue: No value was passed to be removed".

Definition is_function (v : JS.val) : bool := JS.isType "Function" v.

Definition is_object (v : JS.val) : bool := (JS.truthy v && JS.isType "Object" v)%bool.

Definition say (e : event) (w : widget) : widget := set_log (log w ++ [e]) w.

Definition after_removeItem (it : Item.t) (callback : JS.val) (w : widget) : widget :=
  let w1 := after_dispatch (remove_action it) w in
  let callback := JS.default callback (callbackOnRemoveItem (options w1)) in
  if (JS.truthy callback && negb (is_function callback))%bool
  then say remove_diagnostic w1
  else w1.

(** The test and the step of the loop of [removeActiveItems]. *)
Definition removable (excludedId : Z) (it : Item.t) : bool :=
  (Item.active it && negb (excludedId =? Item.id it))%bool.

Definition remove_step (excludedId : Z) (w : widget) (it : Item.t) : widget :=
  if removable excludedId it then after_removeItem it JS.VUndefined w else w.

Definition after_removeActiveItems (excludedId : Z) (w : widget) : widget :=
  fold_left (remove_step excludedId) (Store.getItemsFilteredByActive (store w)) w.

(** The id [addItem] generates and the action it dispatches. *)
Definition new_id (w : widget) : Z := JS.length (Store.getItems (store w)) + 1.

Definition add_action (w : widget) (value : string) (label : option string)
  (optionId : option Z) : action :=
  ADD_ITEM (storedValue (options w) value) (or_label label (JS.trim value))
           (new_id w) (or_optionId optionId).

Definition after_callback (callback : JS.val) (args : list JS.val)
  (diagnostic : event) (w : widget) : widget :=
  if JS.truthy callback
  then match callback with
       | JS.VFun name => say (Call name args) w
       | _ => say diagnostic w
       end
  else w.

Definition after_addItem (value : string) (label : option string)
  (optionId : option Z) (callback : JS.val) (w : widget) : widget :=
  let w1 := after_dispatch (add_action w value label optionId) w in
  let w2 := if is_select_one (el_type (passedElement w1))
            then after_removeActiveItems (new_id w) w1
            else w1 in
  after_callback (JS.default callback (callbackOnAddItem (options w)))
                 [JS.VNum (new_id w); JS.VStr value] add_diagnostic w2.

(** The dropdown's children, [[]] when there is no dropdown. *)
Definition children (w : widget) : list node :=
  match dropdown w with Some d => d | None => [] end.

(** The entries a method added to the log. *)
Definition is_call (e : event) : bool :=
  match e with Call _ _ => true | ConsoleError _ => false end.

Definition filters_dispatched (w : widget) : nat :=
  List.length (filter is_filter (Store.dispatched (store w))).

(** How the grouped, the flat and the placeholder renderings would be
    chosen by the state of the store and the search mode alone. *)
Definition by_case_split (w : widget) : list node :=
  let activeGroups := Store.getGroupsFilteredByActive (store w) in
  let activeOptions := Store.getOptionsFilteredByActive (store w) in
  if ((1 <=? JS.length activeGroups) && negb (isSearching w))%bool
  then renderGroups activeGroups activeOptions []
  else if 1 <=? JS.length activeOptions
       then renderOptions (el_type (passedElement w)) activeOptions []
       else [notice_of w].

(** A call that stops at a diagnostic: the store is as it was and the log
    has one more entry, an error. *)
Definition aborts_with_diagnostic (m : M unit) (w : widget) : Prop :=
  store (exec m w) = store w
  /\ exists msg, log (exec m w) = log w ++ [ConsoleError msg].

(** No element of [d] carries the highlighted class, as in a fragment just
    built from the templates. *)
Definition unhighlighted (d : list node) : Prop :=
  Forall (fun e => oe_highlighted e = false) (option_els d).

(** The claim that the case split alone decides what is shown. *)
Definition case_split_holds (w : widget) : Prop :=
  options_dirty w = true ->
  plain (children (exec render w)) = by_case_split w.

(** What is shown: the fragment of the case split, or the placeholder when
    that fragment has no element. *)
Definition fragment_or_placeholder (w : widget) : list node :=
  match fragment_of w with
  | [] => [notice_of w]
  | fragment => fragment
  end.

(** The claim that a rebuilt, non-empty list has one highlighted option. *)
Definition one_highlighted_after_rebuild (w : widget) : Prop :=
  options_dirty w = true ->
  fragment_of w <> [] ->
  List.length (queryHighlighted (children (exec render w))) = 1%nat.

(** The highlighted elements after the highlight was restored in a list
    whose selectable elements are [options]. *)
Definition highlighted_from (position : Z) (options : list nat) : list nat :=
  match options with
  | [] => []
  | _ => [nth (clamp position (List.length options)) options 0%nat]
  end.

(** An action that numbers a new item as [addItem] does. *)
Definition well_numbered (a : action) (w : widget) : Prop :=
  match a with
  | ADD_ITEM _ _ id _ => id = new_id w
  | _ => True
  end.

(** What every method keeps of the widget [w] it started from. *)
Definition keeps (w w' : widget) : Prop :=
  options w' = options w
  /\ el_type (passedElement w') = el_type (passedElement w)
  /\ Store.listeners (store w') = Store.listeners (store w)
  /\ (mounted w = true -> mounted w' = true)
  /\ (ready w = true -> ready w' = true)
  /\ (ids_in_order w = true -> ids_in_order w' = true)
  /\ (Store.listeners (store w) = [] -> prevState w' = prevState w).

(** The statement ends normally on a mounted widget and keeps it so. *)
Definition runs (m : M unit) : Prop :=
  forall w, mounted w = true -> exists w', m w = Normal tt w' /\ keeps w w'.

(** The widgets a page can get: built by the constructor on an element it
    accepts, then changed through the item methods. *)
Inductive reachable : widget -> Prop :=
| reach_new (element : element) (userOptions : config) :
    canInit element = true -> reachable (Choices.new element userOptions)
| reach_addItem (w : widget) (value : string) (label : option string)
    (optionId : option Z) (callback : JS.val) :
    reachable w -> reachable (exec (addItem value label optionId callback) w)
| reach_removeItem (w : widget) (item callback : JS.val) :
    reachable w -> reachable (exec (removeItem item callback) w)
| reach_removeItemsByValue (w : widget) (value : JS.val) :
    reachable w -> reachable (exec (removeItemsByValue value) w)
| reach_removeActiveItems (w : widget) (excludedId : Z) :
    reachable w -> reachable (exec (removeActiveItems excludedId) w).

(** The widget once [generateInput] has made the dropdown of a select. *)
Definition prepared (w : widget) : widget :=
  if is_select (el_type (passedElement w))
  then set_isSearching false (set_dropdown (Some []) (set_highlightPosition 0 w))
  else w.

(** The items a list of removals leaves active. *)
Definition survives (removed : list Item.t) (it : Item.t) : bool :=
  (Item.active it
   && negb (existsb (fun r => Item.id it =? Item.id r) removed))%bool.

(** The search input holds a value, as the debounced body tests it. *)
Definition has_value (w : widget) : bool :=
  (negb (in_value (input w) =? "")%string
   && (1 <=? String.length (in_value (input w)))%nat)%bool.

(** *** Sample pages *)

Definition text_input (value : string) : element :=
  mkElement Text value false [] [].

Definition colours : widget := Choices.new (text_input "red,green,blue") defaultOptions.

(** The widget on an empty text input. *)
Definition empty_text : widget := Choices.new (text_input "") defaultOptions.

(** A multiple select whose only option is chosen. *)
Definition chosen_select : element :=
  mkElement SelectMultiple "" false [] [mkNativeOption "a" "A" false true].

(** A multiple select whose only option is disabled. *)
Definition disabled_select : element :=
  mkElement SelectMultiple "" false [] [mkNativeOption "a" "A" true false].

(** A multiple select with three options, the second one disabled. *)
Definition three_select : element :=
  mkElement SelectMultiple "" false []
    [mkNativeOption "a" "A" false false; mkNativeOption "b" "B" true false;
     mkNativeOption "c" "C" false false].

(** A single select with two options, the first one chosen. *)
Definition single_select : element :=
  mkElement SelectOne "" false []
    [mkNativeOption "a" "A" false true; mkNativeOption "b" "B" false false].

(** Three keystrokes in the search input, 100 ms apart: the last key-up is
    200 ms after the first, within the 500 ms of the debounce. *)
Definition typing (fuse_search : list Opt.t -> string -> list Opt.t) : M unit :=
  keystroke "r" ;;
  elapse fuse_search 100 ;;
  keystroke "re" ;;
  elapse fuse_search 100 ;;
  keystroke "red".

(** The keystrokes, then 500 ms of rest. *)
Definition burst (fuse_search : list Opt.t -> string -> list Opt.t) : M unit :=
  typing fuse_search ;;
  elapse fuse_search 500.

(** The same three calls at the same times, made to one debounced
    function. *)
Definition typing_into_one (fuse_search : list Opt.t -> string -> list Opt.t)
  : M unit :=
  handleFilter <- debounce ;;
  modify (set_input (mkInput "r" true)) ;;
  debounced handleFilter 500 ;;
  elapse fuse_search 100 ;;
  modify (set_input (mkInput "re" true)) ;;
  debounced handleFilter 500 ;;
  elapse fuse_search 100 ;;
  modify (set_input (mkInput "red" true)) ;;
  debounced handleFilter 500.

Definition burst_into_one (fuse_search : list Opt.t -> string -> list Opt.t)
  : M unit :=
  typing_into_one fuse_search ;;
  elapse fuse_search 500.

(** The widget the keystrokes are typed into. *)
Definition searchable : widget := Choices.new three_select defaultOptions.

(** That widget once its third option was chosen, before the render that
    follows. *)
Definition chosen_unrendered : widget := unrendered (ADD_ITEM "c" "C" 1 3) searchable.

(** The same select before its first render, with the last known highlight
    position beyond the list. *)
Definition highlighted_beyond : widget :=
  set_highlightPosition 7 (before_first_render three_select defaultOptions).

(** *** Selection *)

(** An item with its [selected] flag set to [sel]. *)
Definition marked (sel : bool) (it : Item.t) : Item.t :=
  Item.mk (Item.id it) (Item.value it) (Item.label it) (Item.optionId it)
          (Item.active it) sel.

Definition select_action (sel : bool) (it : Item.t) : action :=
  SELECT_ITEM (Item.id it) sel.

(** What [selectItem] and [deselectItem] leave. *)
Definition after_selectItem (sel : bool) (item : option Item.t) (w : widget)
  : widget :=
  match item with
  | None => w
  | Some item => after_dispatch (select_action sel item) w
  end.

Definition after_selectAll (sel : bool) (w : widget) : widget :=
  fold_left (fun w item => after_selectItem sel (Some item) w)
            (Store.getItems (store w)) w.

(** The test and the step of the loop of [removeSelectedItems]. *)
Definition chosen (it : Item.t) : bool := (Item.selected it && Item.active it)%bool.

Definition remove_chosen (w : widget) (it : Item.t) : widget :=
  if chosen it then after_removeItem it JS.VUndefined w else w.

Definition after_removeSelectedItems (w : widget) : widget :=
  fold_left remove_chosen (Store.getItemsFilteredByActive (store w)) w.

(** The item list shows the active items of the store. *)
Definition shown (w : widget) : Prop :=
  itemList w = map mkItemEl (Store.getItemsFilteredByActive (store w)).

(** The items a key handler is given: the active ones. *)
Definition activeItems (w : widget) : list Item.t :=
  Store.getItemsFilteredByActive (store w).

(** The item [addItem] appends for a value alone. *)
Definition entered (w : widget) (value : string) : Item.t :=
  Item.mk (new_id w) (storedValue (options w) value) (JS.trim value) (-1) true false.

(** Settings under which the last item is edited, not removed. *)
Definition editing : Settings.t := Settings.mk true true true None true None.

(** No two active items hold the same value. *)
Definition distinct_values (w : widget) : Prop :=
  NoDup (Store.getItemsReducedToValues (store w)).

(** What [clearInput] leaves. *)
Definition after_clearInput (w : widget) : widget :=
  if (in_value (input w) =? "")%string then w
  else set_input (mkInput "" (in_focused (input w))) w.

(** [handleEnter]'s [canUpdate], for the items it is given. *)
Definition can_update (settings : Settings.t) (given : list Item.t)
  (value : string) (w : widget) : bool :=
  (is_text (el_type (passedElement w))
   && Settings.addItems settings
   && negb (reached (Settings.maxItems settings) (JS.length (itemList w)))
   && (Settings.allowDuplicates settings
       || (controlValue w =? "")%string
       || negb (existsb (fun item => (Item.value item =? value)%string) given)))%bool.

(** [handleEnter]'s [canAddItem]; [None] when the filter is not a regular
    expression. *)
Definition passes (settings : Settings.t)
  (regexp_test : string -> string -> option bool) (value : string) : option bool :=
  match Settings.regexFilter settings with
  | Some p => if (p =? "")%string then Some true else regexp_test p value
  | None => Some true
  end.

(** A filter that lets every value through. *)
Definition any_value (pattern value : string) : option bool := Some true.

(** The widget on ["red,green,blue"] with its second item selected. *)
Definition green_selected : widget :=
  exec (selectItem (Some (Item.mk 2 "green" "green" (-1) true false))) colours.

(** Settings with a limit of three items. *)
Definition capped : Settings.t := Settings.mk true true false (Some 3) true None.

(** Settings that refuse duplicates. *)
Definition no_duplicates : Settings.t := Settings.mk true true false None false None.

(** *** What the constructor builds *)

(** The items [addItem] appends for a list of values, the first one being
    the item number [n + 1]. *)
Fixpoint entered_from (cfg : config) (n : nat) (values : list string)
  : list Item.t :=
  match values with
  | [] => []
  | v :: r =>
      Item.mk (Z.of_nat n + 1) (storedValue cfg v) (JS.trim v) (-1) true false
      :: entered_from cfg (S n) r
  end.

(** *** The options and groups of a select *)

(** An option with its [selected] flag cleared. *)
Definition unselected (o : Opt.t) : Opt.t :=
  Opt.mk (Opt.id o) (Opt.value o) (Opt.label o) (Opt.groupId o) (Opt.disabled o)
         false (Opt.active o).

(** The option [addOption] adds for a native option when the store holds
    [n] options, before it is chosen. *)
Definition option_of (n : nat) (groupId : Z) (parentDisabled : bool)
  (o : native_option) : Opt.t :=
  Opt.mk (Z.of_nat n + 1) (no_value o) (no_innerHTML o) groupId
         (no_disabled o || parentDisabled) false true.

Fixpoint options_from (n : nat) (groupId : Z) (parentDisabled : bool)
  (nos : list native_option) : list Opt.t :=
  match nos with
  | [] => []
  | o :: r => option_of n groupId parentDisabled o
              :: options_from (S n) groupId parentDisabled r
  end.

(** The options of the native groups, the first group having the id
    [index]. *)
Fixpoint grouped_from (n : nat) (index : Z) (groups : list native_group)
  : list Opt.t :=
  match groups with
  | [] => []
  | g :: r =>
      options_from n index (ng_disabled g) (ng_options g)
      ++ grouped_from (n + List.length (ng_options g)) (index + 1) r
  end.

Fixpoint groups_from (index : Z) (groups : list native_group) : list Group.t :=
  match groups with
  | [] => []
  | g :: r => Group.mk index (ng_label g) true (ng_disabled g)
              :: groups_from (index + 1) r
  end.

(** [addOption]'s test for adding an item. *)
Definition preselected (parentDisabled : bool) (o : native_option) : bool :=
  (no_selected o && negb (no_disabled o || parentDisabled))%bool.

(** The item [addOption] adds for a pre-selected native option when the
    store holds [n] options and [m] items. *)
Definition item_of (cfg : config) (n m : nat) (o : native_option) : Item.t :=
  Item.mk (Z.of_nat m + 1) (storedValue cfg (no_value o))
          (or_label (Some (no_innerHTML o)) (JS.trim (no_value o)))
          (Z.of_nat n + 1) true false.

Fixpoint items_from (cfg : config) (n m : nat) (parentDisabled : bool)
  (nos : list native_option) : list Item.t :=
  match nos with
  | [] => []
  | o :: r =>
      if preselected parentDisabled o
      then item_of cfg n m o :: items_from cfg (S n) (S m) parentDisabled r
      else items_from cfg (S n) m parentDisabled r
  end.

Fixpoint grouped_items (cfg : config) (n m : nat) (groups : list native_group)
  : list Item.t :=
  match groups with
  | [] => []
  | g :: r =>
      items_from cfg n m (ng_disabled g) (ng_options g)
      ++ grouped_items cfg (n + List.length (ng_options g))
           (m + List.length (items_from cfg n m (ng_disabled g) (ng_options g))) r
  end.

(** The groups of the store. *)
Definition getGroups (s : Store.t) : list Group.t :=
  Store.elems (Store.groups (Store.state s)).

(** What a run of [addOption] calls adds to the store of [w]: the options
    [os], and the items [its] unless the element is a single select. *)
Definition adds (w w' : widget) (os : list Opt.t) (gs : list Group.t)
  (its : list Item.t) : Prop :=
  keeps w w'
  /\ map unselected (Store.getOptions (store w'))
     = map unselected (Store.getOptions (store w)) ++ os
  /\ getGroups (store w') = getGroups (store w) ++ gs
  /\ (is_select_one (el_type (passedElement w)) = false ->
      Store.getItems (store w') = Store.getItems (store w) ++ its).

(** A multiple select with two groups, the second one disabled. *)
Definition grouped_select : element :=
  mkElement SelectMultiple "" false
    [mkNativeGroup "Warm" false
       [mkNativeOption "r" "Red" false true; mkNativeOption "o" "Orange" true true];
     mkNativeGroup "Cold" true [mkNativeOption "b" "Blue" false true]]
    [].

(** The actions of the items reducer. *)
Definition on_items (a : action) : bool :=
  match a with
  | ADD_ITEM _ _ _ _ | REMOVE_ITEM _ _ | SELECT_ITEM _ _ => true
  | _ => false
  end.

(** What [addOption] leaves. *)
Definition after_addOption (option : native_option) (parentDisabled : bool)
  (groupId : Z) (w : widget) : widget :=
  let id := JS.length (Store.getOptions (store w)) + 1 in
  let isDisabled := (no_disabled option || parentDisabled)%bool in
  let w1 := after_dispatch
              (ADD_OPTION (no_value option) (no_innerHTML option) id groupId isDisabled)
              w in
  if preselected parentDisabled option
  then after_addItem (no_value option) (Some (no_innerHTML option)) (Some id)
                     JS.VUndefined w1
  else w1.

(** The options, groups and items [generateInput] makes of a select's
    native options: those of the groups when there is a group, the
    element's own otherwise. *)
Definition built_options (element : element) : list Opt.t :=
  if negb (JS.length (el_groups element) =? 0)
  then grouped_from 0 0 (el_groups element)
  else options_from 0 (-1) (el_disabled element) (el_options element).

Definition built_items (cfg : config) (element : element) : list Item.t :=
  if negb (JS.length (el_groups element) =? 0)
  then grouped_items cfg 0 0 (el_groups element)
  else items_from cfg 0 0 (el_disabled element) (el_options element).

(** *** What the dropdown lists *)

(** The options behind the elements of a list of nodes, in document
    order. *)
Definition listed (d : list node) : list Opt.t := map oe_data (option_els d).

(** [renderOptions]'s test for listing an option. *)
Definition offered (type : input_type) (o : Opt.t) : bool :=
  (is_select_one type || negb (Opt.selected o))%bool.

(** The options of a group, as [renderGroups] picks them. *)
Definition of_group (g : Group.t) (o : Opt.t) : bool := Opt.groupId o =? Group.id g.

(** *** The search, when the input is empty *)

(** A search that returns the options it is given. *)
Definition every_option (haystack : list Opt.t) (needle : string) : list Opt.t :=
  haystack.

(** A key-up with ["r"] in the input, then, before the delay is over, a
    key-up with the input emptied. *)
Definition typed_then_cleared : widget :=
  exec (keystroke "r" ;; elapse every_option 100 ;; keystroke "") searchable.

(** An option as [activateOptions] leaves it. *)
Definition activated (o : Opt.t) : Opt.t :=
  if Opt.disabled o then o else Reducers.set_active true o.

(** The [searchable] widget after a search that matched its third option
    only, the input emptied since. *)
Definition filtered : widget :=
  exec (modify (set_isSearching true) ;;
        dispatch (FILTER_OPTIONS [Opt.mk 3 "c" "C" (-1) false false true]) ;;
        modify (set_input (mkInput "" true))) searchable.

(** *** Clicks *)

(** A closed dropdown: the dropdown is not active and the container is
    neither open nor flipped. *)
Definition closed (classNames : ClassNames.t) (c : Chrome.t) : Prop :=
  hasActiveDropdown classNames c = false
  /\ ClassList.contains (ClassNames.openState classNames) (Chrome.containerOuter c)
     = false
  /\ ClassList.contains (ClassNames.flippedState classNames) (Chrome.containerOuter c)
     = false.

(** What a click on the item [passedId] decides for an active item:
    select it, deselect it, or leave it. *)
Definition click_choice (passedId : Z) (hasShiftKey : bool) (item : Item.t)
  : option bool :=
  if ((Item.id item =? passedId) && negb (Item.selected item))%bool then Some true
  else if negb hasShiftKey then Some false
  else None.

Definition clicked (passedId : Z) (hasShiftKey : bool) (item : Item.t) : Item.t :=
  match click_choice passedId hasShiftKey item with
  | Some sel => marked sel item
  | None => item
  end.

(** The items a click selects or deselects, with the flag each gets. *)
Definition picks (passedId : Z) (hasShiftKey : bool) (l : list Item.t)
  : list (Item.t * bool) :=
  flat_map (fun item => match click_choice passedId hasShiftKey item with
                        | Some sel => [(item, sel)]
                        | None => []
                        end) l.

Definition click_step (passedId : Z) (hasShiftKey : bool) (item : Item.t)
  (w : widget) : widget :=
  match click_choice passedId hasShiftKey item with
  | Some sel => after_selectItem sel (Some item) w
  | None => w
  end.

(** The widget once the click has focused the input. *)
Definition focused (settings : Settings.t) (w : widget) : widget :=
  if (negb (in_focused (input w)) && Settings.addItems settings)%bool
  then set_input (mkInput (in_value (input w)) true) w
  else w.

(** The page of a select: a container and a closed dropdown, as
    [generateInput] builds them. *)
Definition select_chrome : Chrome.t :=
  Chrome.mk ["choices"] (Some ["choices__list"; "choices__list--dropdown"]).

(** The page of a text input. *)
Definition text_chrome : Chrome.t := Chrome.mk ["choices"] None.

(** *** What a render leaves alone *)

(** The last render saw the state the store holds. *)
Definition rendered_last (w : widget) : Prop :=
  prevState w = Snap (Store.getState (store w)).

(** ** Proof tools *)

Ltac unfold_m :=
  unfold method, bind, gets, modify, when, ret, return_, throw, exec in *.

(** ** The elements of the dropdown *)

Section DomFacts.

Variables f g : nat -> option_el -> option_el.

Lemma update_els_length (es : list option_el) (i : nat) :
  List.length (update_els f es i) = List.length es.
Proof.
  revert i; induction es as [|e es IH]; intros i; simpl; [reflexivity|].
  now rewrite IH.
Qed.

Lemma update_els_app (es1 es2 : list option_el) (i : nat) :
  update_els f (es1 ++ es2) i
  = update_els f es1 i ++ update_els f es2 (i + List.length es1)%nat.
Proof.
  revert i; induction es1 as [|e es1 IH]; intros i; simpl.
  - now rewrite Nat.add_0_r.
  - rewrite IH. now replace (S i + List.length es1)%nat
                  with (i + S (List.length es1))%nat by lia.
Qed.

Lemma option_els_update (d : list node) (i : nat) :
  option_els (update_nodes f d i) = update_els f (option_els d) i.
Proof.
  revert i; induction d as [|n d IH]; intros i; [reflexivity|].
  destruct n as [e|grp es|l]; unfold option_els in *; simpl.
  - now rewrite IH.
  - now rewrite IH, update_els_app.
  - now rewrite IH.
Qed.

Lemma update_els_ext (es : list option_el) (i : nat) :
  (forall j e, f j e = g j e) -> update_els f es i = update_els g es i.
Proof.
  intros E; revert i; induction es as [|e es IH]; intros i; simpl; [reflexivity|].
  now rewrite E, IH.
Qed.

Lemma update_nodes_ext (d : list node) (i : nat) :
  (forall j e, f j e = g j e) -> update_nodes f d i = update_nodes g d i.
Proof.
  intros E; revert i; induction d as [|n d IH]; intros i; [reflexivity|].
  destruct n as [e|grp es|l]; simpl.
  - now rewrite E, IH.
  - now rewrite IH, (update_els_ext es i E).
  - now rewrite IH.
Qed.

End DomFacts.

Lemma update_els_compose (f g : nat -> option_el -> option_el)
  (es : list option_el) (i : nat) :
  update_els f (update_els g es i) i = update_els (fun j e => f j (g j e)) es i.
Proof.
  revert i; induction es as [|e es IH]; intros i; simpl; [reflexivity|].
  now rewrite IH.
Qed.

Lemma update_nodes_compose (f g : nat -> option_el -> option_el)
  (d : list node) (i : nat) :
  update_nodes f (update_nodes g d i) i = update_nodes (fun j e => f j (g j e)) d i.
Proof.
  revert i; induction d as [|n d IH]; intros i; [reflexivity|].
  destruct n as [e|grp es|l]; simpl.
  - now rewrite IH.
  - now rewrite update_els_length, IH, update_els_compose.
  - now rewrite IH.
Qed.

Lemma positions_bounds (p : option_el -> bool) (es : list option_el) (i x : nat) :
  In x (positions p es i) -> (i <= x < i + List.length es)%nat.
Proof.
  revert i; induction es as [|e es IH]; intros i; simpl; [tauto|].
  destruct (p e); simpl; intros H.
  - destruct H as [<-|H]; [lia|]. apply IH in H; lia.
  - apply IH in H; lia.
Qed.

(** Positions of a list in which [p] holds at position [k] and nowhere
    else. *)
Lemma positions_only (p : option_el -> bool) (f : nat -> option_el -> option_el)
  (k : nat) (es : list option_el) (i : nat) :
  (forall j e, p (f j e) = Nat.eqb j k) ->
  positions p (update_els f es i) i
  = if ((i <=? k) && (k <? i + List.length es))%nat%bool then [k] else [].
Proof.
  intros P; revert i; induction es as [|e es IH]; intros i;
    cbn [positions update_els List.length].
  - destruct (Nat.leb_spec i k); destruct (Nat.ltb_spec k (i + 0)); simpl;
      try reflexivity; lia.
  - rewrite P, IH.
    destruct (Nat.leb_spec (S i) k); destruct (Nat.leb_spec i k);
      destruct (Nat.ltb_spec k (S i + List.length es));
      destruct (Nat.ltb_spec k (i + S (List.length es)));
      destruct (Nat.eqb_spec i k);
      subst; simpl; try reflexivity; lia.
Qed.

Lemma positions_complete (p : option_el -> bool) (es : list option_el)
  (i n : nat) (e : option_el) :
  nth_error es n = Some e -> p e = true -> In (i + n)%nat (positions p es i).
Proof.
  revert i n; induction es as [|e0 es IH]; intros i n; [now destruct n|].
  destruct n as [|n]; simpl; intros H Pe.
  - injection H as ->. rewrite Pe, Nat.add_0_r. now left.
  - replace (i + S n)%nat with (S i + n)%nat by lia.
    destruct (p e0); [right|]; now apply IH.
Qed.

Lemma unhighlight_els (hs : list nat) (es : list option_el) (i : nat) :
  (forall n e, nth_error es n = Some e -> oe_highlighted e = true ->
               In (i + n)%nat hs) ->
  update_els (fun j e => if existsb (Nat.eqb j) hs
                         then mkOptionEl (oe_data e) false else e) es i
  = update_els (fun _ e => clear_highlight e) es i.
Proof.
  revert i; induction es as [|e es IH]; intros i H; simpl; [reflexivity|].
  rewrite IH.
  - f_equal. destruct (existsb (Nat.eqb i) hs) eqn:E; [reflexivity|].
    destruct e as [data [|]]; [|reflexivity].
    specialize (H 0%nat _ eq_refl eq_refl). rewrite Nat.add_0_r in H.
    assert (existsb (Nat.eqb i) hs = true) as E'
        by (apply existsb_exists; exists i; split; [assumption|apply Nat.eqb_refl]).
    congruence.
  - intros n e' Hn He'. replace (S i + n)%nat with (i + S n)%nat by lia.
    now apply (H (S n) e').
Qed.

(** After the old highlights are dropped and [k] is highlighted, [k] is the
    one highlighted element. *)
Lemma highlight_only (k : nat) (d : list node) :
  (k < List.length (option_els d))%nat ->
  queryHighlighted (highlight k (unhighlight (queryHighlighted d) d)) = [k].
Proof.
  intros K. unfold highlight, unhighlight.
  unfold queryHighlighted at 1.
  rewrite !option_els_update.
  rewrite unhighlight_els
    by (intros n e; apply (positions_complete oe_highlighted (option_els d) 0)).
  rewrite update_els_compose.
  rewrite (positions_only oe_highlighted _ k).
  - simpl. now destruct (Nat.ltb_spec k (List.length (option_els d))); [|lia].
  - intros j e. now destruct (Nat.eqb j k).
Qed.

Lemma highlight_plain (k : nat) (hs : list nat) (d : list node) :
  plain (highlight k (unhighlight hs d)) = plain d.
Proof.
  unfold plain, highlight, unhighlight.
  rewrite !update_nodes_compose. apply update_nodes_ext.
  intros j e. destruct (existsb (Nat.eqb j) hs); now destruct (Nat.eqb j k).
Qed.

Lemma highlight_selectable (k : nat) (hs : list nat) (d : list node) :
  querySelectable (highlight k (unhighlight hs d)) = querySelectable d.
Proof.
  unfold querySelectable, highlight, unhighlight.
  rewrite update_nodes_compose, option_els_update.
  generalize (option_els d) 0%nat. intros es.
  induction es as [|e es IH]; intros i; simpl; [reflexivity|].
  rewrite IH. unfold oe_selectable.
  now destruct (existsb (Nat.eqb i) hs); destruct (Nat.eqb i k).
Qed.

(** *** The element picked from the last known position *)

Lemma lastKnown_clamp (options : list nat) (hp : Z) :
  options <> [] ->
  (clamp hp (List.length options) < List.length options)%nat
  /\ lastKnown options hp = nth_error options (clamp hp (List.length options)).
Proof.
  intros NE.
  assert (0 < List.length options)%nat as L
      by (destruct options; [congruence|simpl; lia]).
  unfold lastKnown, clamp, JS.index, JS.length.
  destruct (Z.gtb_spec (Z.of_nat (List.length options)) hp) as [G|G].
  - destruct (Z.ltb_spec hp 0) as [N|N].
    + rewrite Z.max_l by lia. simpl. split; [lia|reflexivity].
    + rewrite Z.max_r, Z.min_l by lia. split; [lia|].
      destruct (nth_error options (Z.to_nat hp)) eqn:E; [reflexivity|].
      apply nth_error_None in E; lia.
  - destruct (Z.ltb_spec (Z.of_nat (List.length options) - 1) 0) as [N|N]; [lia|].
    rewrite Z.max_r, Z.min_r by lia. split; [lia|].
    destruct (nth_error options (Z.to_nat (Z.of_nat (List.length options) - 1))) eqn:E;
      [reflexivity|].
    apply nth_error_None in E; lia.
Qed.

Lemma selectable_in_range (d : list node) (el : nat) :
  In el (querySelectable d) -> (el < List.length (option_els d))%nat.
Proof.
  intros H. apply positions_bounds in H. lia.
Qed.

Lemma length_zero_nil {A : Type} (l : list A) :
  (JS.length l =? 0) = true -> l = [].
Proof.
  destruct l; [reflexivity|]. intros H. apply Z.eqb_eq in H.
  unfold JS.length in H. simpl List.length in H. lia.
Qed.

(** *** [highlightOption] and [render] in closed form *)

Lemma highlightOption_restored (w : widget) (d : list node) :
  dropdown w = Some d ->
  highlightOption None w
  = Normal tt (set_dropdown (Some (restored (highlightPosition w) d)) w).
Proof.
  intros D. destruct w as [cfg st cur prev el hp pre srch dd il inp lg lp].
  simpl in D; subst dd.
  unfold highlightOption, the_dropdown, restored. unfold_m. cbn.
  destruct (querySelectable d) as [|q qs] eqn:Q; [reflexivity|].
  assert (q :: qs <> []) as L by congruence.
  destruct (lastKnown_clamp hp L) as [B E].
  replace (JS.length (q :: qs) =? 0) with false by reflexivity. cbn - [lastKnown].
  rewrite E.
  destruct (nth_error (q :: qs) (clamp hp (List.length (q :: qs))))
    as [el'|] eqn:N; [|apply nth_error_None in N; lia].
  apply (nth_error_nth _ _ 0%nat) in N. cbn in N |- *.
  now rewrite N.
Qed.

Lemma fold_items (items : list Item.t) (fragment : list item_el) :
  fold_left (fun fragment item => fragment ++ [mkItemEl item]) items fragment
  = fragment ++ map mkItemEl items.
Proof.
  revert fragment; induction items as [|it items IH]; intros fragment; simpl.
  - now rewrite app_nil_r.
  - now rewrite IH, <- app_assoc.
Qed.

(** [render] ends normally unless it has to rebuild the dropdown of a select
    that has none, where reading the dropdown throws. *)
Lemma render_outcome (w : widget) :
  render w = if (mounted w || negb (options_dirty w))%bool
             then Normal tt (rendered w)
             else Throw (set_currentState (Snap (Store.getState (store w))) w).
Proof.
  destruct w as [cfg st cur prev el hp pre srch dd il inp lg lp].
  unfold mounted, has_dropdown; cbn [passedElement dropdown].
  unfold render, appendChildren, renderItems, the_dropdown, rendered,
    rendered_dropdown, rendered_element, rendered_items, options_dirty,
    items_dirty, serialized, fragment_of.
  unfold_m. cbn [store prevState].
  destruct (differs (Snap (Store.getState st)) prev) eqn:D;
    destruct (field_differs Store.items (Snap (Store.getState st)) prev) eqn:I;
    destruct (field_differs Store.options (Snap (Store.getState st)) prev
              || field_differs Store.groups (Snap (Store.getState st)) prev)%bool
      eqn:O;
    destruct (is_select (el_type el)) eqn:S;
    destruct dd as [d|];
    destruct (JS.length (optionListFragment (el_type el) srch
                (Store.getGroupsFilteredByActive st)
                (Store.getOptionsFilteredByActive st)) =? 0) eqn:F;
    repeat (progress
              (cbn - [differs field_differs optionListFragment JS.length JS.join
                      highlightOption is_select];
               repeat match goal with
                      | H : ?x = _ |- context [?x] => rewrite H
                      end));
    try (erewrite highlightOption_restored by reflexivity);
    cbn - [field_differs optionListFragment JS.length JS.join];
    rewrite ?fold_items; reflexivity.
Qed.

Lemma render_rendered (w : widget) :
  mounted w = true -> render w = Normal tt (rendered w).
Proof.
  intros M. now rewrite render_outcome, M.
Qed.

(** *** The methods in closed form *)

Lemma mounted_rendered (w : widget) : mounted w = true -> mounted (rendered w) = true.
Proof.
  unfold mounted, has_dropdown, rendered, rendered_dropdown, rendered_element.
  cbn [passedElement dropdown].
  assert (el_type (if items_dirty w then set_value (serialized w) (passedElement w)
                   else passedElement w) = el_type (passedElement w)) as ->
      by (destruct (items_dirty w); reflexivity).
  destruct (is_select (el_type (passedElement w))); [|reflexivity].
  rewrite andb_true_r. now destruct (options_dirty w).
Qed.

Lemma forEach_closed {A : Type} (P : widget -> Prop) (f : A -> M unit)
  (g : A -> widget -> widget) (l : list A) :
  (forall x w, P w -> f x w = Normal tt (g x w)) ->
  (forall x w, P w -> P (g x w)) ->
  forall w, P w ->
  forEach f l w = Normal tt (fold_left (fun w x => g x w) l w)
  /\ P (fold_left (fun w x => g x w) l w).
Proof.
  intros F G. induction l as [|x l IH]; intros w Pw; simpl.
  - now split.
  - unfold bind. rewrite (F x w Pw). apply IH. now apply G.
Qed.

Lemma notify_all (ls : list Store.listener) (w : widget) :
  mounted w = true ->
  forEach notify ls w = Normal tt (fold_left (fun w _ => rendered w) ls w)
  /\ mounted (fold_left (fun w _ => rendered w) ls w) = true.
Proof.
  apply (forEach_closed (fun w => mounted w = true) notify (fun _ w => rendered w)).
  - intros [] w' M. now apply render_rendered.
  - intros _ w'. apply mounted_rendered.
Qed.

Lemma dispatch_closed (a : action) (w : widget) :
  mounted w = true -> dispatch a w = Normal tt (after_dispatch a w).
Proof.
  intros M. unfold dispatch, after_dispatch. unfold_m.
  now apply notify_all.
Qed.

Lemma mounted_after_dispatch (a : action) (w : widget) :
  mounted w = true -> mounted (after_dispatch a w) = true.
Proof.
  intros M. unfold after_dispatch. now apply notify_all.
Qed.

Lemma removeItem_closed (it : Item.t) (callback : JS.val) (w : widget) :
  mounted w = true ->
  removeItem (JS.VObj it) callback w = Normal tt (after_removeItem it callback w).
Proof.
  intros M. unfold removeItem, after_removeItem, remove_action, Actions.removeItem.
  unfold_m. cbn [JS.truthy JS.isType negb orb String.eqb Ascii.eqb Bool.eqb].
  rewrite (dispatch_closed _ w M).
  destruct (JS.truthy (JS.default callback
              (callbackOnRemoveItem (options (after_dispatch
                 (REMOVE_ITEM (Item.id it) (Item.optionId it)) w))))); [|reflexivity].
  unfold is_function, console_error, say, remove_diagnostic. unfold_m.
  now destruct (JS.isType "Function" _).
Qed.

Lemma mounted_say (e : event) (w : widget) : mounted (say e w) = mounted w.
Proof. reflexivity. Qed.

Lemma mounted_after_removeItem (it : Item.t) (callback : JS.val) (w : widget) :
  mounted w = true -> mounted (after_removeItem it callback w) = true.
Proof.
  intros M. unfold after_removeItem.
  destruct (_ && _)%bool; [rewrite mounted_say|]; now apply mounted_after_dispatch.
Qed.

Lemma removeActiveItems_closed (excludedId : Z) (w : widget) :
  mounted w = true ->
  removeActiveItems excludedId w = Normal tt (after_removeActiveItems excludedId w)
  /\ mounted (after_removeActiveItems excludedId w) = true.
Proof.
  intros M. unfold removeActiveItems, after_removeActiveItems. unfold_m.
  destruct (forEach_closed (fun w => mounted w = true)
              (fun item =>
                 if (Item.active item && negb (excludedId =? Item.id item))%bool
                 then removeItem (JS.VObj item) JS.VUndefined
                 else fun w => Normal tt w)
              (fun it w => remove_step excludedId w it)
              (Store.getItemsFilteredByActive (store w))) with (w := w) as [E P].
  - intros it w' M'. unfold remove_step, removable.
    destruct (_ && _)%bool; [|reflexivity].
    now apply removeItem_closed.
  - intros it w' M'. unfold remove_step, removable.
    destruct (_ && _)%bool; [|assumption].
    now apply mounted_after_removeItem.
  - assumption.
  - rewrite E. now split.
Qed.

Lemma callback_closed (callback : JS.val) (args : list JS.val) (msg : string)
  (w : widget) :
  when (JS.truthy callback)
       (if JS.isType "Function" callback
        then call callback args
        else console_error msg) w
  = Normal tt (after_callback callback args (ConsoleError msg) w).
Proof.
  unfold after_callback, when. destruct (JS.truthy callback); [|reflexivity].
  destruct callback; reflexivity.
Qed.

Lemma addItem_closed (value : string) (label : option string)
  (optionId : option Z) (callback : JS.val) (w : widget) :
  mounted w = true ->
  addItem value label optionId callback w
  = Normal tt (after_addItem value label optionId callback w).
Proof.
  intros M. unfold addItem, after_addItem.
  unfold method, bind, gets.
  set (a := Actions.addItem _ _ _ _).
  change (add_action w value label optionId) with a.
  change (JS.length (Store.getItems (store w)) + 1) with (new_id w).
  rewrite (dispatch_closed a w M).
  pose proof (mounted_after_dispatch a w M) as M1.
  set (w1 := after_dispatch a w) in *.
  unfold when at 1.
  destruct (is_select_one (el_type (passedElement w1))).
  - destruct (removeActiveItems_closed (new_id w) w1 M1) as [E M2].
    rewrite E. now rewrite callback_closed.
  - unfold ret. now rewrite callback_closed.
Qed.

(** ** What the methods change, and what they keep *)

(** *** The store's addresses *)

Lemma tree_below_spec (n : nat) (t : Store.tree) :
  tree_below n t = true
  <-> (Store.tree_ref t < n /\ Store.ref (Store.items t) < n
       /\ Store.ref (Store.options t) < n /\ Store.ref (Store.groups t) < n)%nat.
Proof.
  unfold tree_below. rewrite !andb_true_iff, !Nat.ltb_lt. tauto.
Qed.

Lemma snapshot_below_mono (n m : nat) (s : snapshot) :
  (n <= m)%nat -> snapshot_below n s = true -> snapshot_below m s = true.
Proof.
  destruct s as [|t]; [reflexivity|]. simpl. rewrite !tree_below_spec. lia.
Qed.

Lemma alloc_bounds {A : Type} (r : option (list A)) (old : Store.arr A) (n : nat) :
  (n <= snd (Store.alloc r old n) <= S n)%nat
  /\ (Store.ref (fst (Store.alloc r old n)) = Store.ref old /\ r = None
      \/ Store.ref (fst (Store.alloc r old n)) = n /\ r <> None).
Proof.
  destruct r; simpl; split; try lia; [right|left]; split; congruence.
Qed.

Lemma reduce_next_ref (a : action) (s : Store.t) :
  (Store.next_ref s < Store.next_ref (Store.reduce a s))%nat.
Proof.
  unfold Store.reduce; cbn [Store.next_ref].
  destruct (alloc_bounds (Reducers.items (Store.elems (Store.items (Store.state s))) a)
              (Store.items (Store.state s)) (Store.next_ref s)) as [? _].
  set (i := Store.alloc (Reducers.items _ a) _ _) in *.
  destruct (alloc_bounds (Reducers.options (Store.elems (Store.options (Store.state s))) a)
              (Store.options (Store.state s)) (snd i)) as [? _].
  set (o := Store.alloc (Reducers.options _ a) _ _) in *.
  destruct (alloc_bounds (Reducers.groups (Store.elems (Store.groups (Store.state s))) a)
              (Store.groups (Store.state s)) (snd o)) as [? _].
  lia.
Qed.

Lemma reduce_tree_below (a : action) (s : Store.t) :
  tree_below (Store.next_ref s) (Store.state s) = true ->
  tree_below (Store.next_ref (Store.reduce a s)) (Store.state (Store.reduce a s)) = true.
Proof.
  rewrite !tree_below_spec. intros (T & I & O & G).
  unfold Store.reduce; cbn [Store.next_ref Store.state Store.tree_ref Store.items
                             Store.options Store.groups].
  destruct (alloc_bounds (Reducers.items (Store.elems (Store.items (Store.state s))) a)
              (Store.items (Store.state s)) (Store.next_ref s)) as [? [[-> _]|[-> _]]];
  set (i := Store.alloc (Reducers.items _ a) _ _) in *;
  destruct (alloc_bounds (Reducers.options (Store.elems (Store.options (Store.state s))) a)
              (Store.options (Store.state s)) (snd i)) as [? [[-> _]|[-> _]]];
  set (o := Store.alloc (Reducers.options _ a) _ _) in *;
  destruct (alloc_bounds (Reducers.groups (Store.elems (Store.groups (Store.state s))) a)
              (Store.groups (Store.state s)) (snd o)) as [? [[-> _]|[-> _]]];
  lia.
Qed.

(** A new state differs from every snapshot taken before it, and so does
    each collection that was reduced to a new array. *)
Lemma reduce_fresh (a : action) (s : Store.t) (prev : snapshot) :
  snapshot_below (Store.next_ref s) prev = true ->
  differs (Snap (Store.state (Store.reduce a s))) prev = true
  /\ (Reducers.items (Store.elems (Store.items (Store.state s))) a <> None ->
      field_differs Store.items (Snap (Store.state (Store.reduce a s))) prev = true).
Proof.
  destruct prev as [|p]; [now split|].
  simpl. rewrite tree_below_spec. intros (T & I & _).
  unfold Store.reduce; cbn [Store.state Store.tree_ref Store.items].
  destruct (alloc_bounds (Reducers.items (Store.elems (Store.items (Store.state s))) a)
              (Store.items (Store.state s)) (Store.next_ref s)) as [? RI].
  set (i := Store.alloc (Reducers.items _ a) _ _) in *.
  destruct (alloc_bounds (Reducers.options (Store.elems (Store.options (Store.state s))) a)
              (Store.options (Store.state s)) (snd i)) as [? _].
  set (o := Store.alloc (Reducers.options _ a) _ _) in *.
  destruct (alloc_bounds (Reducers.groups (Store.elems (Store.groups (Store.state s))) a)
              (Store.groups (Store.state s)) (snd o)) as [? _].
  split.
  - apply negb_true_iff, Nat.eqb_neq. lia.
  - intros HI. destruct RI as [[_ N]|[-> _]]; [congruence|].
    apply negb_true_iff, Nat.eqb_neq. lia.
Qed.

(** *** [render] *)

Lemma el_type_rendered (w : widget) :
  el_type (passedElement (rendered w)) = el_type (passedElement w).
Proof.
  unfold rendered, rendered_element; cbn [passedElement].
  now destruct (items_dirty w).
Qed.

Lemma ready_spec (w : widget) :
  ready w = true
  <-> mounted w = true
      /\ tree_below (Store.next_ref (store w)) (Store.state (store w)) = true
      /\ snapshot_below (Store.next_ref (store w)) (prevState w) = true.
Proof.
  unfold ready, mounted. rewrite !andb_true_iff. tauto.
Qed.

Lemma ready_rendered (w : widget) : ready w = true -> ready (rendered w) = true.
Proof.
  rewrite !ready_spec. intros (M & T & P). split; [now apply mounted_rendered|].
  split; [assumption|]. cbn [rendered prevState store].
  now destruct (differs _ _).
Qed.

Lemma synced_rendered_dirty (w : widget) :
  items_dirty w = true -> synced (rendered w) = true.
Proof.
  intros D. unfold synced, controlValue, rendered, rendered_element.
  cbn [passedElement]. rewrite D. unfold serialized; cbn [options store el_value set_value].
  apply String.eqb_refl.
Qed.

Lemma synced_rendered (w : widget) :
  synced w = true -> synced (rendered w) = true.
Proof.
  intros S. destruct (items_dirty w) eqn:D; [now apply synced_rendered_dirty|].
  unfold synced, controlValue, rendered, rendered_element in *.
  cbn [passedElement]. now rewrite D.
Qed.

(** Rendering once more changes nothing. *)
Lemma rendered_idempotent (w : widget) : rendered (rendered w) = rendered w.
Proof.
  assert (differs (Snap (Store.getState (store (rendered w)))) (prevState (rendered w))
          = false) as D.
  { cbn [rendered store prevState].
    destruct (differs (Snap (Store.getState (store w))) (prevState w)) eqn:E;
      [|assumption].
    simpl. now rewrite Nat.eqb_refl. }
  unfold rendered at 1.
  unfold rendered_element, rendered_dropdown, rendered_items, items_dirty, options_dirty.
  rewrite D. reflexivity.
Qed.

Lemma same_but_view_refl (w : widget) : same_but_view w w.
Proof. unfold same_but_view; tauto. Qed.

Lemma same_but_view_trans (w1 w2 w3 : widget) :
  same_but_view w1 w2 -> same_but_view w2 w3 -> same_but_view w1 w3.
Proof.
  unfold same_but_view. intros (A1 & A2 & A3 & A4 & A5 & A6 & A7 & A8 & A9)
                               (B1 & B2 & B3 & B4 & B5 & B6 & B7 & B8 & B9).
  repeat split; congruence.
Qed.

Lemma rendered_view (w : widget) : same_but_view w (rendered w).
Proof.
  unfold same_but_view. repeat split; try reflexivity. apply el_type_rendered.
Qed.

Lemma renders_view (ls : list Store.listener) (w : widget) :
  same_but_view w (fold_left (fun w _ => rendered w) ls w).
Proof.
  revert w; induction ls as [|l ls IH]; intros w; simpl.
  - apply same_but_view_refl.
  - eapply same_but_view_trans; [apply rendered_view|apply IH].
Qed.

(** *** [dispatch] *)

Lemma after_dispatch_view (a : action) (w : widget) :
  same_but_view (unrendered a w) (after_dispatch a w).
Proof. apply renders_view. Qed.

Lemma store_after_dispatch (a : action) (w : widget) :
  store (after_dispatch a w) = Store.reduce a (store w).
Proof. now destruct (after_dispatch_view a w) as (-> & _). Qed.

Lemma options_after_dispatch (a : action) (w : widget) :
  options (after_dispatch a w) = options w.
Proof. now destruct (after_dispatch_view a w) as (_ & -> & _). Qed.

Lemma log_after_dispatch (a : action) (w : widget) :
  log (after_dispatch a w) = log w.
Proof. now destruct (after_dispatch_view a w) as (_ & _ & -> & _). Qed.

Lemma el_type_after_dispatch (a : action) (w : widget) :
  el_type (passedElement (after_dispatch a w)) = el_type (passedElement w).
Proof. now destruct (after_dispatch_view a w) as (_ & _ & _ & _ & _ & _ & _ & _ & ->). Qed.

Lemma dispatched_after_dispatch (a : action) (w : widget) :
  Store.dispatched (store (after_dispatch a w)) = Store.dispatched (store w) ++ [a].
Proof. now rewrite store_after_dispatch. Qed.

Lemma ready_unrendered (a : action) (w : widget) :
  ready w = true -> ready (unrendered a w) = true.
Proof.
  rewrite !ready_spec. intros (M & T & P). split; [exact M|]. split.
  - now apply reduce_tree_below.
  - cbn [unrendered store prevState set_store].
    eapply snapshot_below_mono; [|exact P].
    pose proof (reduce_next_ref a (store w)); lia.
Qed.

Lemma ready_renders (ls : list Store.listener) (w : widget) :
  ready w = true -> ready (fold_left (fun w _ => rendered w) ls w) = true.
Proof.
  revert w; induction ls as [|l ls IH]; intros w R; simpl; [assumption|].
  now apply IH, ready_rendered.
Qed.

Lemma ready_after_dispatch (a : action) (w : widget) :
  ready w = true -> ready (after_dispatch a w) = true.
Proof.
  intros R. now apply ready_renders, ready_unrendered.
Qed.

Lemma ready_mounted (w : widget) : ready w = true -> mounted w = true.
Proof. rewrite ready_spec; tauto. Qed.

(** ** The renderer runs once per change *)

(** C3. [render] is idempotent: a second call with no dispatch in between
    ends normally in the very state the first call left, so the dropdown,
    the item list and the control's value stay as they are; the second
    call's test of the current state against the previous snapshot finds
    them the same object. *)
Theorem render_idempotent (w w1 : widget) :
  render w = Normal tt w1 ->
  render w1 = Normal tt w1
  /\ differs (Snap (Store.getState (store w1))) (prevState w1) = false.
Proof.
  rewrite render_outcome. destruct (mounted w || negb (options_dirty w))%bool;
    [|discriminate].
  intros [= <-].
  assert (differs (Snap (Store.getState (store (rendered w)))) (prevState (rendered w))
          = false) as D.
  { cbn [rendered store prevState].
    destruct (differs (Snap (Store.getState (store w))) (prevState w)) eqn:E;
      [|assumption].
    simpl. now rewrite Nat.eqb_refl. }
  split; [|exact D].
  rewrite render_outcome. unfold options_dirty at 1. rewrite D.
  cbn [andb negb]. rewrite orb_true_r. now rewrite rendered_idempotent.
Qed.

Lemma render_idempotent_witness :
  render chosen_unrendered = Normal tt (rendered chosen_unrendered)
  /\ (render (rendered chosen_unrendered) = Normal tt (rendered chosen_unrendered)
      /\ differs (Snap (Store.getState (store (rendered chosen_unrendered))))
                 (prevState (rendered chosen_unrendered)) = false).
Proof.
  split; [vm_compute; reflexivity|].
  apply (render_idempotent chosen_unrendered). vm_compute; reflexivity.
Defined.

(** ** Invalid arguments and early returns *)

Lemma removeItem_no_object (item callback : JS.val) (w : widget) :
  is_object item = false ->
  removeItem item callback w = Normal tt (say no_item_diagnostic w).
Proof.
  intros O. unfold removeItem. unfold_m.
  assert ((negb (JS.truthy item) || negb (JS.isType "Object" item))%bool = true) as ->.
  { unfold is_object in O. destruct (JS.truthy item), (JS.isType "Object" item);
      simpl in *; congruence. }
  reflexivity.
Qed.

Lemma removeItemsByValue_closed (value : JS.val) (w : widget) :
  removeItemsByValue value w
  = Normal tt (if (negb (JS.truthy value) || negb (JS.isType "String" value))%bool
               then say no_value_diagnostic w else w).
Proof.
  unfold removeItemsByValue. unfold_m.
  now destruct (negb (JS.truthy value) || negb (JS.isType "String" value))%bool.
Qed.

(** C8. [removeItemsByValue] returns before its loop whatever it is given:
    the [return] after the guard is not part of the [if].  It ends normally,
    with at most the diagnostic added to the log; the store, and with it
    the record of dispatched actions, is the one it started from. *)
Theorem removeItemsByValue_returns_early (value : JS.val) (w : widget) :
  exists w',
    removeItemsByValue value w = Normal tt w'
    /\ store w' = store w
    /\ Store.dispatched (store w') = Store.dispatched (store w)
    /\ (w' = w \/ w' = say no_value_diagnostic w).
Proof.
  rewrite removeItemsByValue_closed.
  destruct (negb (JS.truthy value) || negb (JS.isType "String" value))%bool.
  - exists (say no_value_diagnostic w). repeat split; try reflexivity. now right.
  - exists w. repeat split; try reflexivity. now left.
Qed.

(** On the three colours, removing by the value "red" removes nothing. *)
Lemma removeItemsByValue_removes_nothing :
  removeItemsByValue (JS.VStr "red") colours = Normal tt colours
  /\ Store.getItemsReducedToValues (store colours) = ["red"; "green"; "blue"].
Proof. vm_compute. split; reflexivity. Qed.

Lemma after_removeItem_truthy (it : Item.t) (callback : JS.val) (w : widget) :
  JS.truthy (JS.default callback (callbackOnRemoveItem (options w))) = true ->
  after_removeItem it callback w
  = let w1 := after_dispatch (remove_action it) w in
    if is_function (JS.default callback (callbackOnRemoveItem (options w)))
    then w1 else say remove_diagnostic w1.
Proof.
  intros T. unfold after_removeItem. cbv zeta.
  rewrite options_after_dispatch, T. cbn [andb].
  now destruct (is_function _).
Qed.

(** C10. [removeItem] on an item object with a truthy callback, a function
    or not, dispatches the remove action and returns before the call of the
    callback: the log gains no call, only the diagnostic when the callback
    is not a function. *)
Theorem removeItem_never_calls_back (w : widget) (it : Item.t) (callback : JS.val) :
  mounted w = true ->
  JS.truthy (JS.default callback (callbackOnRemoveItem (options w))) = true ->
  exists w',
    removeItem (JS.VObj it) callback w = Normal tt w'
    /\ store w' = Store.reduce (REMOVE_ITEM (Item.id it) (Item.optionId it)) (store w)
    /\ Store.dispatched (store w')
       = Store.dispatched (store w) ++ [REMOVE_ITEM (Item.id it) (Item.optionId it)]
    /\ log w' = log w ++ (if is_function (JS.default callback
                                            (callbackOnRemoveItem (options w)))
                          then [] else [remove_diagnostic])
    /\ filter is_call (log w') = filter is_call (log w).
Proof.
  intros M T. exists (after_removeItem it callback w).
  split; [now apply removeItem_closed|].
  rewrite (after_removeItem_truthy it callback w T). cbv zeta.
  destruct (is_function _); unfold say; cbn [store log set_log];
    rewrite ?store_after_dispatch, ?log_after_dispatch, ?app_nil_r.
  - repeat split; reflexivity.
  - repeat split; try reflexivity.
    rewrite filter_app. simpl. now rewrite app_nil_r.
Qed.

Lemma removeItem_never_calls_back_witness :
  mounted colours = true
  /\ JS.truthy (JS.default JS.VUndefined (callbackOnRemoveItem (options colours))) = true
  /\ exists w',
      removeItem (JS.VObj (Item.mk 2 "green" "green" (-1) true false)) JS.VUndefined colours
      = Normal tt w'
      /\ store w' = Store.reduce (REMOVE_ITEM 2 (-1)) (store colours)
      /\ Store.dispatched (store w')
         = Store.dispatched (store colours) ++ [REMOVE_ITEM 2 (-1)]
      /\ log w' = log colours ++ []
      /\ filter is_call (log w') = filter is_call (log colours).
Proof.
  split; [vm_compute; reflexivity|]. split; [vm_compute; reflexivity|].
  apply (removeItem_never_calls_back colours
           (Item.mk 2 "green" "green" (-1) true false) JS.VUndefined);
    vm_compute; reflexivity.
Defined.

(** *** The removals of [removeActiveItems] *)

Lemma store_after_removeItem (it : Item.t) (callback : JS.val) (w : widget) :
  store (after_removeItem it callback w) = Store.reduce (remove_action it) (store w).
Proof.
  unfold after_removeItem. cbv zeta.
  destruct (_ && _)%bool; unfold say; cbn [store set_log]; apply store_after_dispatch.
Qed.

Lemma calls_after_removeItem (it : Item.t) (callback : JS.val) (w : widget) :
  filter is_call (log (after_removeItem it callback w)) = filter is_call (log w).
Proof.
  unfold after_removeItem. cbv zeta.
  destruct (_ && _)%bool; unfold say; cbn [log set_log];
    rewrite ?filter_app, log_after_dispatch; simpl; now rewrite ?app_nil_r.
Qed.

Lemma removals_store (excludedId : Z) (l : list Item.t) (w : widget) :
  store (fold_left (remove_step excludedId) l w)
  = fold_left (fun s it => Store.reduce (remove_action it) s)
              (filter (removable excludedId) l) (store w).
Proof.
  revert w; induction l as [|it l IH]; intros w; simpl; [reflexivity|].
  rewrite IH. unfold remove_step. destruct (removable excludedId it); [|reflexivity].
  simpl. now rewrite store_after_removeItem.
Qed.

Lemma removals_calls (excludedId : Z) (l : list Item.t) (w : widget) :
  filter is_call (log (fold_left (remove_step excludedId) l w))
  = filter is_call (log w).
Proof.
  revert w; induction l as [|it l IH]; intros w; simpl; [reflexivity|].
  rewrite IH. unfold remove_step. destruct (removable excludedId it); [|reflexivity].
  apply calls_after_removeItem.
Qed.

Lemma reductions_dispatched (acts : list action) (s : Store.t) :
  Store.dispatched (fold_left (fun s a => Store.reduce a s) acts s)
  = Store.dispatched s ++ acts.
Proof.
  revert s; induction acts as [|a acts IH]; intros s; simpl.
  - now rewrite app_nil_r.
  - rewrite IH. simpl. now rewrite <- app_assoc.
Qed.

Lemma fold_left_map {A B C : Type} (f : A -> C -> A) (g : B -> C) (l : list B) (a : A) :
  fold_left (fun a b => f a (g b)) l a = fold_left f (map g l) a.
Proof.
  revert a; induction l as [|b l IH]; intros a; simpl; [reflexivity|apply IH].
Qed.

(** The items [removeActiveItems] removes: those of its snapshot with another
    id than the excluded one. *)
Lemma store_after_removeActiveItems (excludedId : Z) (w : widget) :
  store (after_removeActiveItems excludedId w)
  = fold_left (fun s a => Store.reduce a s)
      (map remove_action
           (filter (fun it => negb (excludedId =? Item.id it))
                   (Store.getItemsFilteredByActive (store w))))
      (store w).
Proof.
  unfold after_removeActiveItems. rewrite removals_store.
  rewrite <- fold_left_map. f_equal.
  unfold Store.getItemsFilteredByActive, removable.
  induction (Store.getItems (store w)) as [|it l IH]; simpl; [reflexivity|].
  destruct (Item.active it) eqn:A; simpl; [|exact IH].
  rewrite A. simpl. destruct (negb (excludedId =? Item.id it)); simpl; now rewrite IH.
Qed.

(** C6, as the code has it.  [removeItem] on anything but an object logs its
    diagnostic and stops there: nothing is dispatched, the widget is
    otherwise as it was.  A truthy callback that is not a function is
    noticed only after the action went to the store: [removeItem] and
    [addItem] dispatch as for a valid call, then log the diagnostic; the
    callback is not called. *)
Theorem invalid_arguments (w : widget) (item callback : JS.val) (it : Item.t)
  (value : string) (label : option string) (optionId : option Z) :
  mounted w = true ->
  (is_object item = false ->
   removeItem item callback w = Normal tt (say no_item_diagnostic w)
   /\ store (say no_item_diagnostic w) = store w)
  /\ (JS.truthy (JS.default callback (callbackOnRemoveItem (options w))) = true ->
      is_function (JS.default callback (callbackOnRemoveItem (options w))) = false ->
      exists w1,
        removeItem (JS.VObj it) callback w = Normal tt (say remove_diagnostic w1)
        /\ store w1 = Store.reduce (remove_action it) (store w)
        /\ log w1 = log w)
  /\ (JS.truthy (JS.default callback (callbackOnAddItem (options w))) = true ->
      is_function (JS.default callback (callbackOnAddItem (options w))) = false ->
      exists w2 rest,
        addItem value label optionId callback w = Normal tt (say add_diagnostic w2)
        /\ Store.dispatched (store w2)
           = Store.dispatched (store w) ++ add_action w value label optionId :: rest
        /\ filter is_call (log w2) = filter is_call (log w)).
Proof.
  intros M. split; [|split].
  - intros O. split; [now apply removeItem_no_object|reflexivity].
  - intros T F. exists (after_dispatch (remove_action it) w).
    rewrite (removeItem_closed it callback w M).
    rewrite (after_removeItem_truthy it callback w T). cbv zeta. rewrite F.
    now rewrite store_after_dispatch, log_after_dispatch.
  - intros T F. rewrite (addItem_closed value label optionId callback w M).
    unfold after_addItem, after_callback. rewrite T.
    set (a := add_action w value label optionId).
    set (w1 := after_dispatch a w).
    assert (match JS.default callback (callbackOnAddItem (options w)) with
            | JS.VFun name =>
                say (Call name [JS.VNum (new_id w); JS.VStr value])
                    (if is_select_one (el_type (passedElement w1))
                     then after_removeActiveItems (new_id w) w1 else w1)
            | _ => say add_diagnostic
                       (if is_select_one (el_type (passedElement w1))
                        then after_removeActiveItems (new_id w) w1 else w1)
            end
            = say add_diagnostic
                  (if is_select_one (el_type (passedElement w1))
                   then after_removeActiveItems (new_id w) w1 else w1)) as ->
        by (destruct (JS.default callback (callbackOnAddItem (options w)));
            try reflexivity; discriminate F).
    destruct (is_select_one (el_type (passedElement w1))).
    + eexists; eexists. split; [reflexivity|]. split.
      * rewrite store_after_removeActiveItems, reductions_dispatched.
        subst w1. rewrite dispatched_after_dispatch, <- app_assoc. reflexivity.
      * unfold after_removeActiveItems. rewrite removals_calls.
        subst w1. now rewrite log_after_dispatch.
    + exists w1, []. split; [reflexivity|]. subst w1.
      now rewrite dispatched_after_dispatch, log_after_dispatch.
Qed.

Lemma invalid_arguments_witness :
  mounted colours = true
  /\ is_object JS.VNull = false
  /\ JS.truthy (JS.VStr "x") = true /\ is_function (JS.VStr "x") = false
  /\ removeItem JS.VNull (JS.VStr "x") colours
     = Normal tt (say no_item_diagnostic colours)
  /\ (exists w1,
        removeItem (JS.VObj (Item.mk 1 "red" "red" (-1) true false)) (JS.VStr "x")
                   colours
        = Normal tt (say remove_diagnostic w1)
        /\ store w1 = Store.reduce (REMOVE_ITEM 1 (-1)) (store colours)
        /\ log w1 = log colours)
  /\ (exists w2 rest,
        addItem "black" None None (JS.VStr "x") colours
        = Normal tt (say add_diagnostic w2)
        /\ Store.dispatched (store w2)
           = Store.dispatched (store colours)
             ++ add_action colours "black" None None :: rest
        /\ filter is_call (log w2) = filter is_call (log colours)).
Proof.
  assert (mounted colours = true) as M by (vm_compute; reflexivity).
  destruct (invalid_arguments colours JS.VNull (JS.VStr "x")
              (Item.mk 1 "red" "red" (-1) true false) "black" None None M)
    as (A & B & C).
  split; [exact M|]. split; [reflexivity|]. split; [reflexivity|].
  split; [reflexivity|]. split; [|split].
  - apply A. reflexivity.
  - apply B; reflexivity.
  - apply C; reflexivity.
Defined.

(** C6 as first stated fails where the invalid argument is the callback:
    on the empty text input, [addItem] with the number 1 for a callback
    changes the store. *)
Lemma invalid_callback_still_adds :
  is_function (JS.default (JS.VNum 1) (callbackOnAddItem (options empty_text))) = false
  /\ ~ aborts_with_diagnostic (addItem "a" None None (JS.VNum 1)) empty_text.
Proof.
  split; [reflexivity|].
  intros [S _]. vm_compute in S. discriminate S.
Qed.

(** ** What the dropdown shows *)

Lemma option_els_app (d1 d2 : list node) :
  option_els (d1 ++ d2) = option_els d1 ++ option_els d2.
Proof. apply flat_map_app. Qed.

Lemma unhighlighted_app (d1 d2 : list node) :
  unhighlighted d1 -> unhighlighted d2 -> unhighlighted (d1 ++ d2).
Proof.
  unfold unhighlighted. rewrite option_els_app. intros. now apply Forall_app.
Qed.

Lemma renderGroups_unhighlighted (groups : list Group.t) (options : list Opt.t)
  (fragment : list node) :
  unhighlighted fragment -> unhighlighted (renderGroups groups options fragment).
Proof.
  unfold renderGroups. revert fragment.
  induction groups as [|g groups IH]; intros fragment U; simpl; [assumption|].
  apply IH. destruct (JS.length _ >=? 1); [|assumption].
  apply unhighlighted_app; [assumption|].
  unfold unhighlighted, option_els; simpl. rewrite app_nil_r.
  apply Forall_forall. intros e H. apply in_map_iff in H.
  now destruct H as (o & <- & _).
Qed.

Lemma renderOptions_unhighlighted (type : input_type) (options : list Opt.t)
  (fragment : list node) :
  unhighlighted fragment -> unhighlighted (renderOptions type options fragment).
Proof.
  unfold renderOptions. revert fragment.
  induction options as [|o options IH]; intros fragment U; simpl; [assumption|].
  assert (unhighlighted (fragment ++ [OptionEl (option_template o)])) as U'
      by (apply unhighlighted_app; [assumption|];
          unfold unhighlighted, option_els; simpl; now repeat constructor).
  apply IH. destruct (is_select_one type); [assumption|].
  now destruct (negb (Opt.selected o)).
Qed.

Lemma fragment_unhighlighted (w : widget) : unhighlighted (fragment_of w).
Proof.
  unfold fragment_of, optionListFragment.
  destruct (_ && _)%bool; [apply renderGroups_unhighlighted; constructor|].
  destruct (_ >=? 1); [apply renderOptions_unhighlighted|]; constructor.
Qed.

Lemma clear_els (es : list option_el) (i : nat) :
  Forall (fun e => oe_highlighted e = false) es ->
  update_els (fun _ e => clear_highlight e) es i = es.
Proof.
  revert i; induction es as [|e es IH]; intros i U; simpl; [reflexivity|].
  inversion U as [|? ? He Hes]; subst. rewrite (IH _ Hes).
  destruct e as [data h]; simpl in He; subst h. reflexivity.
Qed.

Lemma unhighlighted_plain (d : list node) : unhighlighted d -> plain d = d.
Proof.
  unfold plain, unhighlighted. generalize 0%nat.
  induction d as [|n d IH]; intros i U; [reflexivity|].
  change (n :: d) with ([n] ++ d) in U.
  rewrite option_els_app in U. apply Forall_app in U as [Un Ud].
  destruct n as [e|g es|l]; simpl.
  - rewrite (IH _ Ud). inversion Un as [|? ? He _]; subst.
    destruct e as [data h]; simpl in He; subst h. reflexivity.
  - rewrite (IH _ Ud). unfold option_els in Un; simpl in Un. rewrite app_nil_r in Un.
    now rewrite (clear_els _ Un).
  - now rewrite (IH _ Ud).
Qed.

Lemma unhighlighted_query (d : list node) : unhighlighted d -> queryHighlighted d = [].
Proof.
  unfold unhighlighted, queryHighlighted. generalize (option_els d) 0%nat.
  intros es. induction es as [|e es IH]; intros i U; simpl; [reflexivity|].
  inversion U as [|? ? He Hes]; subst. rewrite He. now apply IH.
Qed.

Lemma plain_restored (position : Z) (d : list node) :
  plain (restored position d) = plain d.
Proof.
  unfold restored. destruct (querySelectable d); [reflexivity|].
  apply highlight_plain.
Qed.

Lemma selectable_restored (position : Z) (d : list node) :
  querySelectable (restored position d) = querySelectable d.
Proof.
  unfold restored. destruct (querySelectable d) eqn:Q; [assumption|].
  now rewrite highlight_selectable.
Qed.

(** The highlight is on the selectable element at the clamped position, and
    on no other element. *)
Lemma highlighted_restored (position : Z) (d : list node) :
  unhighlighted d ->
  queryHighlighted (restored position d) = highlighted_from position (querySelectable d).
Proof.
  intros U. unfold restored, highlighted_from.
  destruct (querySelectable d) as [|q qs] eqn:Q; [now apply unhighlighted_query|].
  apply highlight_only. apply selectable_in_range. rewrite Q.
  apply nth_In. apply lastKnown_clamp. congruence.
Qed.

(** The clamped position: the position itself within bounds, the last
    element beyond them, the first element for a negative position. *)
Lemma clamp_cases (position : Z) (len : nat) :
  (0 < len)%nat ->
  (0 <= position < Z.of_nat len -> clamp position len = Z.to_nat position)
  /\ (Z.of_nat len <= position -> clamp position len = (len - 1)%nat)
  /\ (position < 0 -> clamp position len = 0%nat).
Proof.
  unfold clamp. intros L. repeat split; intros H; lia.
Qed.

Lemma dropdown_rendered (w : widget) :
  options_dirty w = true ->
  is_select (el_type (passedElement w)) = true ->
  children (rendered w)
  = if JS.length (fragment_of w) =? 0
    then [notice_of w]
    else restored (highlightPosition w) (fragment_of w).
Proof.
  intros D S. unfold children, rendered, rendered_dropdown; cbn [dropdown].
  now rewrite D, S.
Qed.

Lemma geb_leb (n : Z) : (n >=? 1) = (1 <=? n).
Proof. apply Z.geb_leb. Qed.

(** C4, as the code has it.  When the option and group region is dirty and the
    element is a select, the fragment is chosen by the case split: grouped
    if there is an active group and the widget is not searching, else flat
    if there is an active option, else empty.  The dropdown shows that
    fragment when it has an element, and otherwise the placeholder, "No
    results found" when searching and "No options to select" when not. *)
Theorem dropdown_case_split (w : widget) :
  mounted w = true ->
  options_dirty w = true ->
  is_select (el_type (passedElement w)) = true ->
  exists w',
    render w = Normal tt w'
    /\ plain (children w') = fragment_or_placeholder w
    /\ fragment_of w
       = (let activeGroups := Store.getGroupsFilteredByActive (store w) in
          let activeOptions := Store.getOptionsFilteredByActive (store w) in
          if ((1 <=? JS.length activeGroups) && negb (isSearching w))%bool
          then renderGroups activeGroups activeOptions []
          else if 1 <=? JS.length activeOptions
               then renderOptions (el_type (passedElement w)) activeOptions []
               else [])
    /\ notice_of w = NoticeEl (if isSearching w then "No results found"
                               else "No options to select").
Proof.
  intros M D S. exists (rendered w). split; [now apply render_rendered|].
  split; [|split].
  - rewrite (dropdown_rendered w D S). unfold fragment_or_placeholder.
    destruct (JS.length (fragment_of w) =? 0) eqn:L.
    + rewrite (length_zero_nil _ L). unfold notice_of.
      now destruct (isSearching w).
    + rewrite plain_restored, (unhighlighted_plain (fragment_unhighlighted w)).
      destruct (fragment_of w); [discriminate L|reflexivity].
  - unfold fragment_of, optionListFragment. cbv zeta. now rewrite !geb_leb.
  - unfold notice_of. now destruct (isSearching w).
Qed.

Lemma dropdown_case_split_witness :
  mounted (before_first_render three_select defaultOptions) = true
  /\ options_dirty (before_first_render three_select defaultOptions) = true
  /\ exists w',
      render (before_first_render three_select defaultOptions) = Normal tt w'
      /\ plain (children w')
         = fragment_or_placeholder (before_first_render three_select defaultOptions).
Proof.
  split; [vm_compute; reflexivity|]. split; [vm_compute; reflexivity|].
  destruct (dropdown_case_split (before_first_render three_select defaultOptions))
    as (w' & R & P & _); try (vm_compute; reflexivity).
  exists w'. now split.
Defined.

(** C4 as first stated fails on a multiple select whose only option is
    chosen: an active option exists, the flat rendering leaves chosen options
    out, and the placeholder is shown. *)
Lemma chosen_option_shows_placeholder :
  Store.getOptionsFilteredByActive (store (before_first_render chosen_select defaultOptions))
  = [Opt.mk 1 "a" "A" (-1) false true true]
  /\ children (exec render (before_first_render chosen_select defaultOptions))
     = [NoticeEl "No options to select"]
  /\ ~ case_split_holds (before_first_render chosen_select defaultOptions).
Proof.
  split; [vm_compute; reflexivity|]. split; [vm_compute; reflexivity|].
  intros H. assert (options_dirty (before_first_render chosen_select defaultOptions) = true)
    as D by (vm_compute; reflexivity).
  specialize (H D). vm_compute in H. discriminate H.
Qed.

(** C5, as the code has it.  After the dropdown of a select was rebuilt with at
    least one element, the highlight is restored among the selectable (not
    disabled) options of the new list: the one at the last known position
    clamped to their bounds is highlighted (the position itself within
    bounds, the last one beyond them, the first one for a negative position)
    and it is the only highlighted element; [render] ends normally, so no
    element outside the list was touched.  A list without a selectable
    option has no highlighted element. *)
Theorem highlight_restored_after_rebuild (w : widget) :
  mounted w = true ->
  options_dirty w = true ->
  is_select (el_type (passedElement w)) = true ->
  fragment_of w <> [] ->
  exists w',
    render w = Normal tt w'
    /\ plain (children w') = fragment_of w
    /\ querySelectable (children w') = querySelectable (fragment_of w)
    /\ queryHighlighted (children w')
       = highlighted_from (highlightPosition w) (querySelectable (fragment_of w))
    /\ highlightPosition w' = highlightPosition w.
Proof.
  intros M D S NE. exists (rendered w). split; [now apply render_rendered|].
  rewrite (dropdown_rendered w D S).
  destruct (JS.length (fragment_of w) =? 0) eqn:L;
    [now apply length_zero_nil in L|].
  rewrite plain_restored, (unhighlighted_plain (fragment_unhighlighted w)).
  rewrite selectable_restored, (highlighted_restored _ (fragment_unhighlighted w)).
  repeat split; reflexivity.
Qed.

Lemma highlight_restored_after_rebuild_witness :
  mounted highlighted_beyond = true
  /\ options_dirty highlighted_beyond = true
  /\ is_select (el_type (passedElement highlighted_beyond)) = true
  /\ fragment_of highlighted_beyond <> []
  /\ highlightPosition highlighted_beyond = 7
  /\ querySelectable (fragment_of highlighted_beyond) = [0%nat; 2%nat]
  /\ exists w',
      render highlighted_beyond = Normal tt w'
      /\ queryHighlighted (children w') = [2%nat].
Proof.
  assert (fragment_of highlighted_beyond <> []) as NE by (vm_compute; discriminate).
  split; [vm_compute; reflexivity|]. split; [vm_compute; reflexivity|].
  split; [vm_compute; reflexivity|]. split; [exact NE|].
  split; [vm_compute; reflexivity|]. split; [vm_compute; reflexivity|].
  destruct (highlight_restored_after_rebuild highlighted_beyond)
    as (w' & R & _ & _ & H & _); try (vm_compute; reflexivity); [exact NE|].
  exists w'. split; [exact R|]. rewrite H. vm_compute; reflexivity.
Defined.

(** A negative position is reached by hovering a disabled option: the
    element is highlighted and [indexOf] gives [-1].  The next rebuild reads
    [options[-1]], gets [undefined] and takes the first selectable option. *)
Lemma negative_position_takes_first :
  highlightPosition (exec (highlightOption (Some 1%nat)) searchable) = -1
  /\ queryHighlighted (children (exec (highlightOption (Some 1%nat)) searchable))
     = [1%nat]
  /\ queryHighlighted
       (children (exec (highlightOption (Some 1%nat) ;; dispatch ACTIVATE_OPTIONS)
                       searchable))
     = [0%nat].
Proof. vm_compute. repeat split; reflexivity. Qed.

(** C5 as first stated fails on a select whose only option is disabled:
    the rebuilt list has an element, and none is highlighted. *)
Lemma disabled_option_not_highlighted :
  children (exec render (before_first_render disabled_select defaultOptions))
  = [OptionEl (mkOptionEl (Opt.mk 1 "a" "A" (-1) true false true) false)]
  /\ ~ one_highlighted_after_rebuild (before_first_render disabled_select defaultOptions).
Proof.
  split; [vm_compute; reflexivity|].
  intros H.
  assert (List.length (queryHighlighted (children (exec render
            (before_first_render disabled_select defaultOptions)))) = 1%nat) as E.
  { apply H; [vm_compute; reflexivity|vm_compute; discriminate]. }
  vm_compute in E. discriminate E.
Qed.

(** ** The items of the store *)

Lemma getItems_add (value label : string) (id optionId : Z) (s : Store.t) :
  Store.getItems (Store.reduce (ADD_ITEM value label id optionId) s)
  = Store.getItems s ++ [Item.mk id value label optionId true false].
Proof. reflexivity. Qed.

Lemma getItems_remove (id optionId : Z) (s : Store.t) :
  Store.getItems (Store.reduce (REMOVE_ITEM id optionId) s)
  = map (Reducers.deactivate id) (Store.getItems s).
Proof. reflexivity. Qed.

Lemma getItems_other (a : action) (s : Store.t) :
  Reducers.items (Store.elems (Store.items (Store.state s))) a = None ->
  Store.getItems (Store.reduce a s) = Store.getItems s.
Proof.
  intros N. unfold Store.getItems, Store.reduce. cbn [Store.state Store.items].
  now rewrite N.
Qed.

Lemma deactivate_id (id : Z) (it : Item.t) :
  Item.id (Reducers.deactivate id it) = Item.id it.
Proof. unfold Reducers.deactivate. now destruct (_ =? _). Qed.

Lemma select_id (id : Z) (sel : bool) (it : Item.t) :
  Item.id (Reducers.select id sel it) = Item.id it.
Proof. unfold Reducers.select. now destruct (_ =? _). Qed.

Lemma ids_deactivate (id : Z) (l : list Item.t) :
  map Item.id (map (Reducers.deactivate id) l) = map Item.id l.
Proof.
  rewrite map_map. apply map_ext. intros; apply deactivate_id.
Qed.

Lemma getItems_removals (l : list Item.t) (s : Store.t) :
  Store.getItems (fold_left (fun s a => Store.reduce a s) (map remove_action l) s)
  = fold_left (fun its it => map (Reducers.deactivate (Item.id it)) its) l
              (Store.getItems s).
Proof.
  revert s; induction l as [|it l IH]; intros s; simpl; [reflexivity|].
  now rewrite IH.
Qed.

Lemma ids_removals (l its : list Item.t) :
  map Item.id (fold_left (fun its it => map (Reducers.deactivate (Item.id it)) its) l its)
  = map Item.id its.
Proof.
  revert its; induction l as [|it l IH]; intros its; simpl; [reflexivity|].
  now rewrite IH, ids_deactivate.
Qed.

Lemma survives_cons (r : Item.t) (l its : list Item.t) :
  filter (survives l) (map (Reducers.deactivate (Item.id r)) its)
  = filter (survives (r :: l)) its.
Proof.
  induction its as [|it its IH]; simpl; [reflexivity|].
  rewrite IH. unfold survives, Reducers.deactivate. simpl.
  destruct (Item.id it =? Item.id r) eqn:E; simpl; rewrite ?E; simpl;
    rewrite ?andb_false_r; reflexivity.
Qed.

Lemma active_removals (l its : list Item.t) :
  filter Item.active
    (fold_left (fun its it => map (Reducers.deactivate (Item.id it)) its) l its)
  = filter (survives l) its.
Proof.
  revert its; induction l as [|r l IH]; intros its; simpl.
  - apply filter_ext. intros it. unfold survives. simpl. now rewrite andb_true_r.
  - rewrite IH. apply survives_cons.
Qed.

Lemma ids_match_spec (ids expected : list Z) :
  ids_match ids expected = true <-> ids = expected.
Proof.
  revert expected; induction ids as [|i ids IH]; intros [|e expected]; simpl;
    try (split; [discriminate|congruence]); [tauto|].
  rewrite andb_true_iff, IH, Z.eqb_eq. split; [intros [-> ->]|intros [= -> ->]]; tauto.
Qed.

Lemma ids_upto_snoc (n : nat) : ids_upto (S n) = ids_upto n ++ [Z.of_nat n + 1].
Proof.
  unfold ids_upto. rewrite seq_S, map_app. simpl. do 2 f_equal. lia.
Qed.

Lemma ids_upto_bound (n : nat) (i : Z) : In i (ids_upto n) -> 1 <= i <= Z.of_nat n.
Proof.
  unfold ids_upto. rewrite in_map_iff. intros (k & <- & H).
  apply in_seq in H. lia.
Qed.

Lemma ids_in_order_spec (w : widget) :
  ids_in_order w = true
  <-> map Item.id (Store.getItems (store w))
      = ids_upto (List.length (Store.getItems (store w))).
Proof. apply ids_match_spec. Qed.

(** Under the numbering [1..n] no item carries the id to come. *)
Lemma new_id_fresh (w : widget) (it : Item.t) :
  ids_in_order w = true -> In it (Store.getItems (store w)) ->
  (new_id w =? Item.id it) = false.
Proof.
  rewrite ids_in_order_spec. intros E H.
  apply (in_map Item.id) in H. rewrite E in H. apply ids_upto_bound in H.
  unfold new_id, JS.length. apply Z.eqb_neq. lia.
Qed.

(** ** What the methods keep *)

Lemma keeps_refl (w : widget) : keeps w w.
Proof. unfold keeps; tauto. Qed.

Lemma keeps_trans (w1 w2 w3 : widget) : keeps w1 w2 -> keeps w2 w3 -> keeps w1 w3.
Proof.
  unfold keeps. intros (A1 & A2 & A3 & A4 & A5 & A6 & A7) (B1 & B2 & B3 & B4 & B5 & B6 & B7).
  repeat split; try congruence; auto.
  intros L. rewrite B7; [auto|congruence].
Qed.

Lemma keeps_say (e : event) (w : widget) : keeps w (say e w).
Proof. unfold keeps; repeat split; auto. Qed.

Lemma ids_after_reduce (a : action) (w : widget) :
  well_numbered a w ->
  ids_in_order w = true ->
  ids_in_order (unrendered a w) = true.
Proof.
  rewrite !ids_in_order_spec. cbn [unrendered store set_store]. intros N E.
  destruct a as [v l id o|id o|id sel|v l id g d|r| |v id act d];
    try (rewrite getItems_other by reflexivity; assumption).
  - rewrite getItems_add, map_app, length_app, E. simpl in N |- *. subst id.
    rewrite Nat.add_1_r, ids_upto_snoc. reflexivity.
  - rewrite getItems_remove, ids_deactivate, length_map. assumption.
  - change (Store.getItems (Store.reduce (SELECT_ITEM id sel) (store w)))
      with (map (Reducers.select id sel) (Store.getItems (store w))).
    rewrite length_map, map_map.
    rewrite (map_ext _ Item.id) by (intros; apply select_id). assumption.
Qed.

Lemma ids_renders (ls : list Store.listener) (w : widget) :
  ids_in_order (fold_left (fun w _ => rendered w) ls w) = ids_in_order w.
Proof.
  unfold ids_in_order. now destruct (renders_view ls w) as (-> & _).
Qed.

Lemma keeps_after_dispatch (a : action) (w : widget) :
  well_numbered a w -> keeps w (after_dispatch a w).
Proof.
  intros N. unfold keeps. repeat split.
  - apply options_after_dispatch.
  - apply el_type_after_dispatch.
  - now rewrite store_after_dispatch.
  - apply mounted_after_dispatch.
  - apply ready_after_dispatch.
  - intros I. unfold after_dispatch. rewrite ids_renders. now apply ids_after_reduce.
  - intros L. unfold after_dispatch. now rewrite L.
Qed.

Lemma keeps_after_removeItem (it : Item.t) (callback : JS.val) (w : widget) :
  keeps w (after_removeItem it callback w).
Proof.
  unfold after_removeItem. cbv zeta.
  pose proof (keeps_after_dispatch (remove_action it) w I) as K.
  destruct (_ && _)%bool; [|exact K].
  eapply keeps_trans; [exact K|apply keeps_say].
Qed.

Lemma keeps_fold {A : Type} (g : A -> widget -> widget) (l : list A) :
  (forall x w, keeps w (g x w)) ->
  forall w, keeps w (fold_left (fun w x => g x w) l w).
Proof.
  intros G. induction l as [|x l IH]; intros w; simpl; [apply keeps_refl|].
  eapply keeps_trans; [apply G|apply IH].
Qed.

Lemma keeps_after_removeActiveItems (excludedId : Z) (w : widget) :
  keeps w (after_removeActiveItems excludedId w).
Proof.
  unfold after_removeActiveItems.
  apply (keeps_fold (fun it w => remove_step excludedId w it)).
  intros it w'. unfold remove_step.
  destruct (removable excludedId it); [apply keeps_after_removeItem|apply keeps_refl].
Qed.

Lemma keeps_after_callback (callback : JS.val) (args : list JS.val)
  (diagnostic : event) (w : widget) :
  keeps w (after_callback callback args diagnostic w).
Proof.
  unfold after_callback. destruct (JS.truthy callback); [|apply keeps_refl].
  destruct callback; apply keeps_say.
Qed.

Lemma keeps_after_addItem (value : string) (label : option string)
  (optionId : option Z) (callback : JS.val) (w : widget) :
  keeps w (after_addItem value label optionId callback w).
Proof.
  unfold after_addItem. cbv zeta.
  eapply keeps_trans; [|apply keeps_after_callback].
  pose proof (keeps_after_dispatch (add_action w value label optionId) w eq_refl) as K.
  destruct (is_select_one _); [|exact K].
  eapply keeps_trans; [exact K|apply keeps_after_removeActiveItems].
Qed.

(** *** Statements that run *)

Lemma runs_ret : runs (ret tt).
Proof. intros w _. exists w. split; [reflexivity|apply keeps_refl]. Qed.

Lemma runs_bind (m k : M unit) : runs m -> runs k -> runs (m ;; k).
Proof.
  intros Rm Rk w M. destruct (Rm w M) as (w1 & E1 & K1).
  destruct (Rk w1) as (w2 & E2 & K2); [now apply K1|].
  exists w2. unfold bind. rewrite E1. split; [exact E2|].
  eapply keeps_trans; eassumption.
Qed.

Lemma runs_gets {A : Type} (f : widget -> A) (k : A -> M unit) :
  (forall a, runs (k a)) -> runs (x <- gets f ;; k x).
Proof.
  intros R w M. unfold bind, gets. now apply R.
Qed.

Lemma runs_modify (f : widget -> widget) :
  (forall w, keeps w (f w)) -> runs (modify f).
Proof.
  intros K w _. exists (f w). split; [reflexivity|apply K].
Qed.

Lemma runs_when (b : bool) (m : M unit) : runs m -> runs (when b m).
Proof.
  intros R. unfold when. destruct b; [exact R|apply runs_ret].
Qed.

Lemma runs_forEach {A : Type} (f : A -> M unit) (l : list A) :
  (forall x, runs (f x)) -> runs (forEach f l).
Proof.
  intros R. induction l as [|x l IH]; simpl; [apply runs_ret|].
  apply runs_bind; [apply R|exact IH].
Qed.

Lemma runs_forEachIndexed {A : Type} (f : A -> Z -> M unit) (l : list A) (i : Z) :
  (forall x j, runs (f x j)) -> runs (forEachIndexed f l i).
Proof.
  intros R. revert i; induction l as [|x l IH]; intros i; simpl; [apply runs_ret|].
  apply runs_bind; [apply R|apply IH].
Qed.

Lemma runs_method (m : M unit) : runs m -> runs (method m).
Proof.
  intros R w M. destruct (R w M) as (w' & E & K).
  exists w'. unfold method. now rewrite E.
Qed.

Lemma runs_dispatch (a : action) :
  (forall w, well_numbered a w) -> runs (dispatch a).
Proof.
  intros N w M. exists (after_dispatch a w).
  split; [now apply dispatch_closed|now apply keeps_after_dispatch].
Qed.

Lemma runs_addItem (value : string) (label : option string)
  (optionId : option Z) (callback : JS.val) :
  runs (addItem value label optionId callback).
Proof.
  intros w M. exists (after_addItem value label optionId callback w).
  split; [now apply addItem_closed|apply keeps_after_addItem].
Qed.

Lemma runs_removeItem (it : Item.t) (callback : JS.val) :
  runs (removeItem (JS.VObj it) callback).
Proof.
  intros w M. exists (after_removeItem it callback w).
  split; [now apply removeItem_closed|apply keeps_after_removeItem].
Qed.

Lemma runs_addOption (option : native_option) (parentDisabled : bool) (groupId : Z) :
  runs (addOption option parentDisabled groupId).
Proof.
  unfold addOption. apply runs_method, runs_gets. intros s.
  apply runs_bind; [now apply runs_dispatch|].
  apply runs_when, runs_addItem.
Qed.

Lemma runs_addGroup (group : native_group) (id : Z) (isFirst : bool) :
  runs (addGroup group id isFirst).
Proof.
  unfold addGroup. apply runs_method, runs_bind; [now apply runs_dispatch|].
  apply runs_forEach. intros o. apply runs_addOption.
Qed.

(** ** The constructor *)

Lemma generateInput_runs (w : widget) :
  exists w', generateInput w = Normal tt w' /\ keeps (prepared w) w'.
Proof.
  assert (runs (modify (set_input (mkInput "" false)) ;; modify (set_itemList [])))
    as Tail.
  { apply runs_bind; apply runs_modify; intros w'; unfold keeps; repeat split; auto. }
  unfold generateInput, method, prepared. unfold bind at 1. unfold gets at 1.
  set (tail := modify (set_input (mkInput "" false)) ;; modify (set_itemList [])) in *.
  destruct (is_select (el_type (passedElement w))) eqn:S.
  - set (w3 := set_isSearching false (set_dropdown (Some []) (set_highlightPosition 0 w))).
    assert (mounted w3 = true) as M3 by (unfold mounted; simpl; now rewrite S).
    set (loop := if negb (JS.length (el_groups (passedElement w)) =? 0)
                 then forEachIndexed
                        (fun group index => addGroup group index (index =? 0))
                        (el_groups (passedElement w)) 0
                 else forEach
                        (fun option => addOption option (el_disabled (passedElement w)) (-1))
                        (el_options (passedElement w))).
    assert (runs loop) as Loop.
    { unfold loop. destruct (negb _).
      - apply runs_forEachIndexed. intros; apply runs_addGroup.
      - apply runs_forEach. intros; apply runs_addOption. }
    destruct (runs_bind Loop Tail w3 M3) as (w' & E & K).
    exists w'. split; [|exact K].
    change ((modify (set_highlightPosition 0) ;;
             modify (set_dropdown (Some [])) ;;
             modify (set_isSearching false) ;; loop) ;; tail)
      with (fun w => (loop ;; tail) (set_isSearching false (set_dropdown (Some [])
                                       (set_highlightPosition 0 w)))).
    cbv beta. fold w3. now rewrite E.
  - assert (mounted w = true) as M by (unfold mounted; now rewrite S).
    set (loop := if is_text (el_type (passedElement w))
                 then presets <- gets presetItems ;;
                      forEach (fun value => addItem value None None JS.VUndefined)
                              presets
                 else ret tt).
    assert (runs loop) as Loop.
    { unfold loop. destruct (is_text _); [|apply runs_ret].
      apply runs_gets. intros presets. apply runs_forEach. intros; apply runs_addItem. }
    destruct (runs_bind Loop Tail w M) as (w' & E & K).
    exists w'. split; [|exact K]. now rewrite E.
Qed.

Lemma after_callback_log_only (callback : JS.val) (args : list JS.val)
  (diagnostic : event) (w : widget) :
  exists l, after_callback callback args diagnostic w = set_log l w.
Proof.
  unfold after_callback, say. destruct (JS.truthy callback).
  - destruct callback; eexists; reflexivity.
  - exists (log w). now destruct w.
Qed.

Lemma constructor_runs (element : element) (userOptions : config) :
  canInit element = true ->
  exists w,
    constructor element userOptions = Normal tt w
    /\ ready w = true /\ subscribed w = true /\ synced w = true
    /\ ids_in_order w = true /\ options w = userOptions
    /\ el_type (passedElement w) = el_type element.
Proof.
  intros C. unfold constructor. rewrite C.
  unfold init, method. unfold bind at 1.
  destruct (generateInput_runs (fields element userOptions))
    as (g & E & KO & KT & KL & KM & KR & KI & KP).
  rewrite E. unfold bind at 1. unfold modify at 1.
  set (w1 := set_store (Store.subscribe Store.Render (store g)) g).
  assert (ready (prepared (fields element userOptions)) = true) as R0.
  { unfold prepared, fields; cbn [passedElement].
    destruct (is_select (el_type element)) eqn:S; unfold ready; simpl; now rewrite S. }
  assert (ids_in_order (prepared (fields element userOptions)) = true) as I0
      by (unfold prepared; now destruct (is_select _)).
  assert (Store.listeners (store (prepared (fields element userOptions))) = []) as L0
      by (unfold prepared; now destruct (is_select _)).
  assert (prevState (prepared (fields element userOptions)) = EmptyObject) as P0
      by (unfold prepared; now destruct (is_select _)).
  assert (options (prepared (fields element userOptions)) = userOptions) as O0
      by (unfold prepared; now destruct (is_select _)).
  assert (el_type (passedElement (prepared (fields element userOptions)))
          = el_type element) as T0
      by (unfold prepared; now destruct (is_select _)).
  specialize (KR R0). specialize (KI I0). specialize (KP L0).
  assert (ready w1 = true) as R1 by exact KR.
  unfold bind at 1. rewrite (render_rendered w1 (ready_mounted w1 R1)).
  unfold bind, gets.
  rewrite callback_closed.
  destruct (after_callback_log_only
              (JS.default JS.VUndefined (callbackOnInit (options (rendered w1)))) []
              (ConsoleError "callbackOnInit: Callback is not a function") (rendered w1))
    as (l & ->).
  assert (items_dirty w1 = true) as D.
  { unfold items_dirty. replace (prevState w1) with EmptyObject; [reflexivity|].
    symmetry. change (prevState w1) with (prevState g). congruence. }
  eexists. split; [reflexivity|]. split; [|split; [|split; [|split; [|split]]]].
  - change (ready (rendered w1) = true). now apply ready_rendered.
  - change (subscribed w1 = true). unfold subscribed, w1, JS.length. simpl.
    rewrite length_app. simpl. apply negb_true_iff, Z.eqb_neq. lia.
  - change (synced (rendered w1) = true). now apply synced_rendered_dirty.
  - change (ids_in_order g = true). exact KI.
  - change (options g = userOptions). congruence.
  - change (el_type (passedElement (rendered w1)) = el_type element).
    rewrite el_type_rendered. change (el_type (passedElement g) = el_type element).
    congruence.
Qed.

(** The constructor, on an element it accepts, ends normally and leaves a
    widget that is mounted and subscribed, whose control holds the
    serialized items and whose items are numbered [1..n]. *)
Lemma new_initialised (element : element) (userOptions : config) :
  canInit element = true ->
  constructor element userOptions = Normal tt (Choices.new element userOptions)
  /\ ready (Choices.new element userOptions) = true
  /\ subscribed (Choices.new element userOptions) = true
  /\ synced (Choices.new element userOptions) = true
  /\ ids_in_order (Choices.new element userOptions) = true
  /\ options (Choices.new element userOptions) = userOptions
  /\ el_type (passedElement (Choices.new element userOptions)) = el_type element.
Proof.
  intros C. destruct (constructor_runs element userOptions C) as (w & E & H).
  assert (Choices.new element userOptions = w) as ->
      by (unfold Choices.new, exec; now rewrite E).
  now split.
Qed.

(** ** The control's value follows the items *)

Lemma synced_unrendered_other (a : action) (w : widget) :
  Reducers.items (Store.elems (Store.items (Store.state (store w)))) a = None ->
  synced (unrendered a w) = synced w.
Proof.
  intros N. unfold synced, controlValue, serialized, Store.getItemsReducedToValues,
              Store.getItemsFilteredByActive.
  cbn [unrendered store set_store passedElement options].
  now rewrite (getItems_other a (store w) N).
Qed.

Lemma synced_renders (ls : list Store.listener) (w : widget) :
  synced w = true -> synced (fold_left (fun w _ => rendered w) ls w) = true.
Proof.
  revert w; induction ls as [|l ls IH]; intros w S; simpl; [assumption|].
  now apply IH, synced_rendered.
Qed.

Lemma items_dirty_unrendered (a : action) (w : widget) :
  ready w = true ->
  Reducers.items (Store.elems (Store.items (Store.state (store w)))) a <> None ->
  items_dirty (unrendered a w) = true.
Proof.
  rewrite ready_spec. intros (_ & _ & P) H.
  destruct (reduce_fresh a (store w) (prevState w) P) as [D I].
  unfold items_dirty. cbn [unrendered store set_store prevState].
  unfold Store.getState. now rewrite D, (I H).
Qed.

Lemma synced_after_dispatch (a : action) (w : widget) :
  ready w = true -> subscribed w = true -> synced w = true ->
  synced (after_dispatch a w) = true.
Proof.
  intros R Sub S. unfold after_dispatch.
  destruct (Store.listeners (store w)) as [|l ls] eqn:L;
    [unfold subscribed in Sub; rewrite L in Sub; discriminate Sub|].
  simpl. apply synced_renders.
  destruct (Reducers.items (Store.elems (Store.items (Store.state (store w)))) a) eqn:I.
  - apply synced_rendered_dirty, items_dirty_unrendered; [assumption|congruence].
  - apply synced_rendered. now rewrite synced_unrendered_other.
Qed.

Lemma subscribed_after_dispatch (a : action) (w : widget) :
  subscribed (after_dispatch a w) = subscribed w.
Proof.
  unfold subscribed. now rewrite store_after_dispatch.
Qed.




(** ** The items [addItem] leaves *)

Lemma store_after_callback (callback : JS.val) (args : list JS.val)
  (diagnostic : event) (w : widget) :
  store (after_callback callback args diagnostic w) = store w.
Proof.
  destruct (after_callback_log_only callback args diagnostic w) as (l & ->).
  reflexivity.
Qed.

Lemma store_after_addItem (value : string) (label : option string)
  (optionId : option Z) (callback : JS.val) (w : widget) :
  store (after_addItem value label optionId callback w)
  = let s := Store.reduce (add_action w value label optionId) (store w) in
    if is_select_one (el_type (passedElement w))
    then fold_left (fun s a => Store.reduce a s)
           (map remove_action
                (filter (fun it => negb (new_id w =? Item.id it))
                        (Store.getItemsFilteredByActive s)))
           s
    else s.
Proof.
  unfold after_addItem. cbv zeta. rewrite store_after_callback.
  rewrite el_type_after_dispatch.
  destruct (is_select_one _).
  - now rewrite store_after_removeActiveItems, store_after_dispatch.
  - apply store_after_dispatch.
Qed.

Lemma deactivate_value (id : Z) (it : Item.t) :
  Item.value (Reducers.deactivate id it) = Item.value it.
Proof. unfold Reducers.deactivate. now destruct (_ =? _). Qed.

Lemma values_removals (l its : list Item.t) :
  map Item.value
      (fold_left (fun its it => map (Reducers.deactivate (Item.id it)) its) l its)
  = map Item.value its.
Proof.
  revert its; induction l as [|it l IH]; intros its; simpl; [reflexivity|].
  rewrite IH, map_map. apply map_ext. intros; apply deactivate_value.
Qed.

Lemma items_after_addItem (value : string) (label : option string)
  (optionId : option Z) (callback : JS.val) (w : widget) :
  map Item.id (Store.getItems (store (after_addItem value label optionId callback w)))
  = map Item.id (Store.getItems (store w)) ++ [new_id w]
  /\ map Item.value
         (Store.getItems (store (after_addItem value label optionId callback w)))
     = map Item.value (Store.getItems (store w)) ++ [storedValue (options w) value].
Proof.
  rewrite store_after_addItem. cbv zeta. unfold add_action.
  destruct (is_select_one _).
  - rewrite getItems_removals, ids_removals, values_removals, getItems_add, !map_app.
    now split.
  - rewrite getItems_add, !map_app. now split.
Qed.

Lemma addItems_ids (calls : list add_args) (w : widget) :
  mounted w = true ->
  exists w',
    forEach addItem_with calls w = Normal tt w'
    /\ options w' = options w
    /\ map Item.id (Store.getItems (store w'))
       = map Item.id (Store.getItems (store w))
         ++ map Z.of_nat (seq (S (List.length (Store.getItems (store w))))
                              (List.length calls))
    /\ map Item.value (Store.getItems (store w'))
       = map Item.value (Store.getItems (store w))
         ++ map (fun a => storedValue (options w) (arg_value a)) calls.
Proof.
  revert w; induction calls as [|c calls IH]; intros w M.
  - exists w. simpl. rewrite !app_nil_r. now repeat split.
  - set (w1 := after_addItem (arg_value c) (arg_label c) (arg_optionId c)
                             (arg_callback c) w).
    destruct (keeps_after_addItem (arg_value c) (arg_label c) (arg_optionId c)
                (arg_callback c) w) as (O1 & _ & _ & M1 & _).
    destruct (items_after_addItem (arg_value c) (arg_label c) (arg_optionId c)
                (arg_callback c) w) as (I1 & V1).
    fold w1 in O1, M1, I1, V1.
    destruct (IH w1 (M1 M)) as (w' & E & O' & I' & V').
    exists w'. simpl. unfold bind, addItem_with at 1.
    rewrite (addItem_closed _ _ _ _ w M). fold w1. rewrite E.
    split; [reflexivity|]. split; [congruence|].
    assert (List.length (Store.getItems (store w1))
            = S (List.length (Store.getItems (store w)))) as L.
    { rewrite <- (length_map Item.id), I1, length_app, length_map. simpl. lia. }
    split.
    + rewrite I', I1, L, <- app_assoc. simpl. do 3 f_equal.
      unfold new_id, JS.length. lia.
    + rewrite V', V1, O1, <- app_assoc. reflexivity.
Qed.

(** C2.  [N] calls of [addItem] in a row on a store without items give the
    new items the ids [1], [2], ..., [N] in call order: the [k]-th item of
    the collection is the one of the [k]-th call and its id is [k]. *)
Theorem ids_are_sequential (w : widget) (calls : list add_args) :
  mounted w = true ->
  Store.getItems (store w) = [] ->
  exists w',
    forEach addItem_with calls w = Normal tt w'
    /\ map Item.id (Store.getItems (store w')) = ids_upto (List.length calls)
    /\ map Item.value (Store.getItems (store w'))
       = map (fun a => storedValue (options w) (arg_value a)) calls
    /\ forall k it, nth_error (Store.getItems (store w')) k = Some it ->
                    Item.id it = Z.of_nat k + 1.
Proof.
  intros M E0. destruct (addItems_ids calls w M) as (w' & E & _ & I & V).
  rewrite E0 in I, V. simpl in I, V.
  exists w'. split; [exact E|]. split; [exact I|]. split; [exact V|].
  intros k it H. apply (map_nth_error Item.id) in H. rewrite I in H.
  unfold ids_upto in H. rewrite nth_error_map in H.
  destruct (nth_error (seq 1 (List.length calls)) k) as [n|] eqn:N; [|discriminate H].
  injection H as <-.
  assert (k < List.length (seq 1 (List.length calls)))%nat as K
      by (apply nth_error_Some; congruence).
  rewrite length_seq in K.
  apply nth_error_nth with (d := 0%nat) in N.
  rewrite seq_nth in N by assumption. lia.
Qed.

Lemma ids_are_sequential_witness :
  mounted empty_text = true
  /\ Store.getItems (store empty_text) = []
  /\ exists w',
      forEach addItem_with
        [mkAddArgs " red" None None JS.VUndefined;
         mkAddArgs "green " (Some "Green") None JS.VNull;
         mkAddArgs "blue" None (Some 0) (JS.VFun "added")] empty_text
      = Normal tt w'
      /\ map Item.id (Store.getItems (store w')) = [1; 2; 3]
      /\ map Item.value (Store.getItems (store w')) = ["red"; "green"; "blue"].
Proof.
  split; [vm_compute; reflexivity|]. split; [vm_compute; reflexivity|].
  destruct (ids_are_sequential empty_text
              [mkAddArgs " red" None None JS.VUndefined;
               mkAddArgs "green " (Some "Green") None JS.VNull;
               mkAddArgs "blue" None (Some 0) (JS.VFun "added")])
    as (w' & E & I & V & _); try (vm_compute; reflexivity).
  exists w'. split; [exact E|]. split; [exact I|]. rewrite V. vm_compute; reflexivity.
Defined.

(** ** A single select holds one item *)

Lemma others_of_snapshot (w : widget) (new : Item.t) :
  ids_in_order w = true ->
  Item.id new = new_id w ->
  Item.active new = true ->
  filter (fun it => negb (new_id w =? Item.id it))
         (filter Item.active (Store.getItems (store w) ++ [new]))
  = filter Item.active (Store.getItems (store w)).
Proof.
  intros I N A. rewrite filter_app, filter_app. simpl. rewrite A. simpl.
  rewrite N, Z.eqb_refl. simpl. rewrite app_nil_r.
  assert (forall it, In it (Store.getItems (store w)) ->
                     (new_id w =? Item.id it) = false) as F
      by (intros; now apply new_id_fresh).
  induction (Store.getItems (store w)) as [|it l IH]; simpl; [reflexivity|].
  destruct (Item.active it); simpl.
  - rewrite (F it) by now left. simpl. f_equal. apply IH. intros; apply F; now right.
  - apply IH. intros; apply F; now right.
Qed.

Lemma filter_none {A : Type} (p : A -> bool) (l : list A) :
  (forall x, In x l -> p x = false) -> filter p l = [].
Proof.
  induction l as [|x l IH]; intros H; simpl; [reflexivity|].
  rewrite (H x) by now left. apply IH. intros; apply H; now right.
Qed.

Lemma only_new_survives (w : widget) (new : Item.t) :
  ids_in_order w = true ->
  Item.id new = new_id w ->
  Item.active new = true ->
  filter (survives (filter Item.active (Store.getItems (store w))))
         (Store.getItems (store w) ++ [new])
  = [new].
Proof.
  intros I N A.
  assert (forall it, In it (Store.getItems (store w)) ->
                     (new_id w =? Item.id it) = false) as F
      by (intros; now apply new_id_fresh).
  rewrite filter_app.
  assert (forall removed,
             (forall it, In it removed -> In it (Store.getItems (store w))) ->
             survives removed new = true) as Snew.
  { intros removed Sub. unfold survives. rewrite A. simpl. apply negb_true_iff.
    destruct (existsb _ removed) eqn:E; [|reflexivity].
    apply existsb_exists in E as (r & Hr & Er).
    rewrite N, (F r (Sub r Hr)) in Er. discriminate Er. }
  simpl. rewrite Snew by (intros it H; apply filter_In in H; tauto).
  replace (filter (survives (filter Item.active (Store.getItems (store w))))
                  (Store.getItems (store w))) with (@nil Item.t); [reflexivity|].
  symmetry. apply filter_none. intros it H.
  unfold survives. destruct (Item.active it) eqn:Ait; [|reflexivity]. simpl.
  apply negb_false_iff, existsb_exists. exists it. split.
  - apply filter_In. now split.
  - apply Z.eqb_refl.
Qed.

(** Every widget a page can get is mounted and has its items numbered
    [1..n]. *)
Lemma reachable_consistent (w : widget) :
  reachable w -> mounted w = true /\ ids_in_order w = true.
Proof.
  induction 1 as [element userOptions C
                 |w value label optionId callback _ [M I]
                 |w item callback _ [M I]
                 |w value _ [M I]
                 |w excludedId _ [M I]].
  - destruct (new_initialised element userOptions C) as (_ & R & _ & _ & I & _).
    split; [now apply ready_mounted|exact I].
  - unfold exec. rewrite (addItem_closed value label optionId callback w M).
    destruct (keeps_after_addItem value label optionId callback w)
      as (_ & _ & _ & KM & _ & KI & _). auto.
  - destruct (is_object item) eqn:O.
    + unfold is_object in O.
      destruct item as [| | | | | |it]; simpl in O; rewrite ?andb_false_r in O;
        try discriminate O.
      unfold exec.
      rewrite (removeItem_closed it callback w M).
      destruct (keeps_after_removeItem it callback w) as (_ & _ & _ & KM & _ & KI & _).
      auto.
    + unfold exec. rewrite (removeItem_no_object item callback w O). now split.
  - unfold exec. rewrite removeItemsByValue_closed.
    now destruct (negb (JS.truthy value) || negb (JS.isType "String" value))%bool.
  - unfold exec. destruct (removeActiveItems_closed excludedId w M) as [-> _].
    destruct (keeps_after_removeActiveItems excludedId w)
      as (_ & _ & _ & KM & _ & KI & _). auto.
Qed.

(** C9.  On a single select, [addItem] dispatches, after the add, one
    remove-item action for each item that was active, so that the item just
    added is the one active item left.  The widget is taken mounted and with
    its items numbered [1..n], as every widget a page can get is. *)
Theorem select_one_keeps_one (w : widget) (value : string) (label : option string)
  (optionId : option Z) (callback : JS.val) :
  mounted w = true ->
  ids_in_order w = true ->
  el_type (passedElement w) = SelectOne ->
  exists w',
    addItem value label optionId callback w = Normal tt w'
    /\ Store.dispatched (store w')
       = Store.dispatched (store w)
         ++ add_action w value label optionId
            :: map remove_action (Store.getItemsFilteredByActive (store w))
    /\ Store.getItemsFilteredByActive (store w')
       = [Item.mk (new_id w) (storedValue (options w) value)
                  (or_label label (JS.trim value)) (or_optionId optionId) true false].
Proof.
  intros M I T. exists (after_addItem value label optionId callback w).
  split; [now apply addItem_closed|].
  rewrite store_after_addItem, T. cbv zeta. cbn [is_select_one].
  unfold add_action, Store.getItemsFilteredByActive at 1.
  rewrite getItems_add.
  set (new := Item.mk (new_id w) (storedValue (options w) value)
                      (or_label label (JS.trim value)) (or_optionId optionId) true false).
  rewrite (others_of_snapshot w new I eq_refl eq_refl).
  split.
  - rewrite reductions_dispatched. simpl. now rewrite <- app_assoc.
  - unfold Store.getItemsFilteredByActive.
    rewrite getItems_removals, active_removals, getItems_add.
    fold new. rewrite (others_of_snapshot w new I eq_refl eq_refl).
    now apply only_new_survives.
Qed.

Lemma select_one_keeps_one_witness :
  mounted (Choices.new single_select defaultOptions) = true
  /\ ids_in_order (Choices.new single_select defaultOptions) = true
  /\ el_type (passedElement (Choices.new single_select defaultOptions)) = SelectOne
  /\ Store.getItemsFilteredByActive (store (Choices.new single_select defaultOptions))
     = [Item.mk 1 "a" "A" 1 true false]
  /\ exists w',
      addItem "b" (Some "B") (Some 2) JS.VUndefined
              (Choices.new single_select defaultOptions)
      = Normal tt w'
      /\ Store.dispatched (store w')
         = [ADD_OPTION "a" "A" 1 (-1) false; ADD_ITEM "a" "A" 1 1;
            ADD_OPTION "b" "B" 2 (-1) false;
            ADD_ITEM "b" "B" 2 2; REMOVE_ITEM 1 1]
      /\ Store.getItemsFilteredByActive (store w') = [Item.mk 2 "b" "B" 2 true false].
Proof.
  split; [vm_compute; reflexivity|]. split; [vm_compute; reflexivity|].
  split; [vm_compute; reflexivity|]. split; [vm_compute; reflexivity|].
  destruct (select_one_keeps_one (Choices.new single_select defaultOptions)
              "b" (Some "B") (Some 2) JS.VUndefined)
    as (w' & E & D & A); try (vm_compute; reflexivity).
  exists w'. split; [exact E|]. split.
  - rewrite D. vm_compute; reflexivity.
  - rewrite A. vm_compute; reflexivity.
Defined.

(** ** The debounced search *)

Lemma earliest_fold (t : nat) (l : list timer) (best : option timer) :
  (forall tm, In tm l -> (due tm <= t)%nat) ->
  match fold_left (sooner t) l best with
  | Some tm => In tm l \/ best = Some tm
  | None => l = [] /\ best = None
  end.
Proof.
  revert best; induction l as [|x l IH]; intros best H; simpl.
  - destruct best; [now right|now split].
  - specialize (IH (sooner t best x) (fun tm Htm => H tm (or_intror Htm))).
    destruct (fold_left (sooner t) l (sooner t best x)) as [tm|].
    + destruct IH as [IH|IH]; [left; now right|].
      unfold sooner in IH. destruct (due x <=? t)%nat; [|now right].
      destruct best as [b|].
      * destruct (due x <? due b)%nat; [left; left; congruence|now right].
      * left; left; congruence.
    + destruct IH as [_ IH]. unfold sooner in IH.
      rewrite (proj2 (Nat.leb_le _ _) (H x (or_introl eq_refl))) in IH.
      destruct best as [b|]; [destruct (due x <? due b)%nat|]; discriminate IH.
Qed.

Lemma earliest_in (t : nat) (l : list timer) :
  l <> [] ->
  (forall tm, In tm l -> (due tm <= t)%nat) ->
  exists tm, earliest t l = Some tm /\ In tm l.
Proof.
  intros NE H. pose proof (@earliest_fold t l None H) as F.
  change (fold_left (sooner t) l None) with (earliest t l) in F.
  destruct (earliest t l) as [tm|].
  - exists tm. split; [reflexivity|]. destruct F as [F|F]; [exact F|discriminate F].
  - destruct F; contradiction.
Qed.

Lemma cleared_length (tm : timer) (l : list timer) :
  NoDup (map timer_id l) -> In tm l ->
  S (List.length (filter (fun x => negb (Nat.eqb (timer_id x) (timer_id tm))) l))
  = List.length l.
Proof.
  induction l as [|x l IH]; intros ND H; [contradiction|].
  simpl in ND. inversion ND as [|? ? Nin ND']; subst. simpl.
  destruct H as [->|H].
  - rewrite Nat.eqb_refl. simpl. f_equal.
    clear IH ND ND'. induction l as [|y l IH]; [reflexivity|]. simpl.
    destruct (Nat.eqb_spec (timer_id y) (timer_id tm)) as [E|E].
    + exfalso. apply Nin. left. exact E.
    + simpl. f_equal. apply IH. intros C. apply Nin. now right.
  - destruct (Nat.eqb_spec (timer_id x) (timer_id tm)) as [E|E].
    + exfalso. apply Nin. rewrite E. now apply in_map.
    + simpl. f_equal. now apply IH.
Qed.

Lemma cleared_nodup (id : nat) (l : list timer) :
  NoDup (map timer_id l) ->
  NoDup (map timer_id (filter (fun x => negb (Nat.eqb (timer_id x) id)) l)).
Proof.
  induction l as [|x l IH]; intros ND; [constructor|].
  simpl in ND. inversion ND as [|? ? Nin ND']; subst. simpl.
  destruct (negb _); [|now apply IH].
  simpl. constructor; [|now apply IH].
  intros C. apply Nin. apply in_map_iff in C as (y & E & Hy).
  apply filter_In in Hy as [Hy _]. rewrite <- E. now apply in_map.
Qed.

Section Timers.

Variable fuse_search : list Opt.t -> string -> list Opt.t.

(** A timer that comes due on a mounted widget whose input holds a value
    dispatches one filter action, and leaves the timers as they are. *)
Lemma later_dispatches (c : nat) (w : widget) :
  mounted w = true -> has_value w = true ->
  exists w',
    later fuse_search c w = Normal tt w'
    /\ mounted w' = true /\ has_value w' = true
    /\ pending (loop w') = pending (loop w)
    /\ filters_dispatched w' = S (filters_dispatched w).
Proof.
  intros M V. unfold later, handleFilter_body, method, set_cell.
  unfold bind at 1. unfold modify at 1.
  set (w1 := set_loop _ w).
  unfold bind at 1. unfold gets at 1. unfold has_value in V.
  change (input w1) with (input w). rewrite V. unfold when.
  unfold bind at 1. unfold gets at 1. unfold bind at 1. unfold modify at 1.
  set (a := Actions.filterOptions _).
  rewrite (dispatch_closed a (set_isSearching true w1)) by exact M.
  eexists. split; [reflexivity|].
  destruct (after_dispatch_view a (set_isSearching true w1))
    as (St & _ & _ & Lp & In & _).
  split; [now apply mounted_after_dispatch|]. split; [|split].
  - unfold has_value. rewrite In. exact V.
  - rewrite Lp. reflexivity.
  - unfold filters_dispatched. rewrite St.
    cbn [unrendered store set_store Store.reduce Store.dispatched].
    rewrite filter_app, length_app. simpl. lia.
Qed.

(** Every timer that is due runs, and each one dispatches. *)
Lemma run_due_dispatches (t fuel : nat) (w : widget) :
  mounted w = true -> has_value w = true ->
  NoDup (map timer_id (pending (loop w))) ->
  (forall tm, In tm (pending (loop w)) -> (due tm <= t)%nat) ->
  (List.length (pending (loop w)) <= fuel)%nat ->
  exists w',
    run_due fuse_search fuel t w = Normal tt w'
    /\ mounted w' = true
    /\ pending (loop w') = []
    /\ filters_dispatched w'
       = (filters_dispatched w + List.length (pending (loop w)))%nat.
Proof.
  revert w; induction fuel as [|k IH]; intros w M V ND Due Len.
  - exists w. destruct (pending (loop w)); [|simpl in Len; lia].
    simpl. rewrite Nat.add_0_r. now repeat split.
  - simpl. unfold bind at 1. unfold gets at 1.
    destruct (pending (loop w)) as [|tm0 l0] eqn:P.
    + exists w. simpl. rewrite Nat.add_0_r. now repeat split.
    + destruct (@earliest_in t (tm0 :: l0)) as (tm & E & Htm);
        [discriminate|exact Due|].
      rewrite E. unfold clearTimeout. unfold bind at 1. unfold modify at 1.
      unfold bind at 1. unfold modify at 1.
      set (w1 := set_loop (set_clock (due tm) _) _).
      assert (pending (loop w1)
              = filter (fun x => negb (Nat.eqb (timer_id x) (timer_id tm))) (tm0 :: l0))
        as P1 by (unfold w1; cbn [loop set_loop set_clock set_pending pending];
                  now rewrite P).
      destruct (@later_dispatches (cell tm) w1 M V) as (w2 & E2 & M2 & V2 & P2 & F2).
      unfold bind at 1. rewrite E2.
      destruct (IH w2 M2 V2) as (w' & E' & M' & P' & F').
      * rewrite P2, P1. now apply cleared_nodup.
      * rewrite P2, P1. intros x Hx. apply filter_In in Hx as [Hx _]. now apply Due.
      * rewrite P2, P1.
        pose proof (@cleared_length tm (tm0 :: l0) ND Htm) as CL.
        lia.
      * exists w'. split; [exact E'|]. split; [exact M'|]. split; [exact P'|].
        rewrite F', F2, P2, P1.
        pose proof (@cleared_length tm (tm0 :: l0) ND Htm) as CL.
        change (filters_dispatched w1) with (filters_dispatched w). lia.
Qed.

Lemma elapse_dispatches (ms : nat) (w : widget) :
  mounted w = true -> has_value w = true ->
  NoDup (map timer_id (pending (loop w))) ->
  (forall tm, In tm (pending (loop w)) -> (due tm <= clock (loop w) + ms)%nat) ->
  exists w',
    elapse fuse_search ms w = Normal tt w'
    /\ pending (loop w') = []
    /\ filters_dispatched w'
       = (filters_dispatched w + List.length (pending (loop w)))%nat.
Proof.
  intros M V ND Due. unfold elapse. unfold bind at 1. unfold gets at 1.
  destruct (@run_due_dispatches (clock (loop w) + ms) (List.length (pending (loop w)))
              w M V ND Due (Nat.le_refl _)) as (w' & E & _ & P & F).
  unfold bind. rewrite E. unfold modify. eexists. split; [reflexivity|].
  split; [exact P|exact F].
Qed.

End Timers.

(** One debounced function, called three times within its delay, runs its
    body once: each call replaces the invocation pending from the call
    before. *)
Lemma one_function_debounces (fuse_search : list Opt.t -> string -> list Opt.t) :
  map due (pending (loop (exec (typing_into_one fuse_search) searchable))) = [700%nat]
  /\ exists w,
      burst_into_one fuse_search searchable = Normal tt w
      /\ filters_dispatched w = 1%nat
      /\ pending (loop w) = [].
Proof.
  set (typed := exec (typing_into_one fuse_search) searchable).
  assert (typing_into_one fuse_search searchable = Normal tt typed) as E
      by (vm_compute; reflexivity).
  assert (pending (loop typed) = [mkTimer 2 700 0]) as P0 by (vm_compute; reflexivity).
  assert (clock (loop typed) = 200%nat) as C0 by (vm_compute; reflexivity).
  assert (filters_dispatched typed = 0%nat) as F0 by (vm_compute; reflexivity).
  assert (mounted typed = true) as M by (vm_compute; reflexivity).
  assert (has_value typed = true) as V by (vm_compute; reflexivity).
  split; [now rewrite P0|].
  destruct (@elapse_dispatches fuse_search 500 typed M V) as (w & Ew & P & F).
  - rewrite P0. simpl. repeat constructor. simpl. tauto.
  - rewrite P0, C0. intros tm [<-|[]]. simpl. lia.
  - exists w. unfold burst_into_one, bind. rewrite E. split; [exact Ew|].
    split; [|exact P]. now rewrite F, F0, P0.
Qed.

(** C7 fails on the code.  [onKeyUp] makes a new debounced function at every
    key-up and calls it once, so no call replaces an earlier one: after
    three keystrokes within 200 ms three timers are pending, and each of
    them dispatches a filter action when it comes due, whatever the search
    returns. *)
Theorem burst_dispatches_per_keystroke
  (fuse_search : list Opt.t -> string -> list Opt.t) :
  map due (pending (loop (exec (typing fuse_search) searchable)))
  = [500; 600; 700]%nat
  /\ filters_dispatched (exec (typing fuse_search) searchable) = 0%nat
  /\ exists w,
      burst fuse_search searchable = Normal tt w
      /\ filters_dispatched w = 3%nat
      /\ pending (loop w) = [].
Proof.
  set (typed := exec (typing fuse_search) searchable).
  assert (typing fuse_search searchable = Normal tt typed) as E
      by (vm_compute; reflexivity).
  assert (pending (loop typed) = [mkTimer 0 500 0; mkTimer 1 600 1; mkTimer 2 700 2])
    as P0 by (vm_compute; reflexivity).
  assert (clock (loop typed) = 200%nat) as C0 by (vm_compute; reflexivity).
  assert (filters_dispatched typed = 0%nat) as F0 by (vm_compute; reflexivity).
  assert (mounted typed = true) as M by (vm_compute; reflexivity).
  assert (has_value typed = true) as V by (vm_compute; reflexivity).
  split; [now rewrite P0|]. split; [exact F0|].
  destruct (@elapse_dispatches fuse_search 500 typed M V) as (w & Ew & P & F).
  - rewrite P0. simpl. repeat constructor; simpl; intuition discriminate.
  - rewrite P0, C0. intros tm [<-|[<-|[<-|[]]]]; simpl; lia.
  - exists w. unfold burst, bind. rewrite E. split; [exact Ew|].
    split; [|exact P]. now rewrite F, F0, P0.
Qed.

(** ** Selecting items *)

Lemma selectItem_closed (item : option Item.t) (w : widget) :
  mounted w = true ->
  selectItem item w = Normal tt (after_selectItem true item w).
Proof.
  intros M. unfold selectItem, method, after_selectItem.
  destruct item as [it|]; [|reflexivity].
  cbv zeta. unfold Actions.selectItem, select_action.
  now rewrite (dispatch_closed _ w M).
Qed.

Lemma deselectItem_closed (item : option Item.t) (w : widget) :
  mounted w = true ->
  deselectItem item w = Normal tt (after_selectItem false item w).
Proof.
  intros M. unfold deselectItem, method, after_selectItem.
  destruct item as [it|]; [|reflexivity].
  cbv zeta. unfold Actions.selectItem, select_action.
  now rewrite (dispatch_closed _ w M).
Qed.

Lemma keeps_after_selectItem (sel : bool) (item : option Item.t) (w : widget) :
  keeps w (after_selectItem sel item w).
Proof.
  destruct item as [it|]; [|apply keeps_refl].
  now apply keeps_after_dispatch.
Qed.

Lemma store_after_selectItem (sel : bool) (it : Item.t) (w : widget) :
  store (after_selectItem sel (Some it) w)
  = Store.reduce (select_action sel it) (store w).
Proof. apply store_after_dispatch. Qed.

Lemma getItems_select (id : Z) (sel : bool) (s : Store.t) :
  Store.getItems (Store.reduce (SELECT_ITEM id sel) s)
  = map (Reducers.select id sel) (Store.getItems s).
Proof. reflexivity. Qed.

Lemma selectAll_closed (w : widget) :
  mounted w = true ->
  selectAll w = Normal tt (after_selectAll true w)
  /\ deselectAll w = Normal tt (after_selectAll false w).
Proof.
  intros M. unfold selectAll, deselectAll, method, bind, gets, after_selectAll.
  split.
  - destruct (forEach_closed (fun w => mounted w = true)
                (fun item => selectItem (Some item))
                (fun item w => after_selectItem true (Some item) w)
                (Store.getItems (store w))) with (w := w) as [E _]; trivial.
    + intros x w' M'. now apply selectItem_closed.
    + intros x w' M'. now apply (keeps_after_selectItem true (Some x) w').
    + now rewrite E.
  - destruct (forEach_closed (fun w => mounted w = true)
                (fun item => deselectItem (Some item))
                (fun item w => after_selectItem false (Some item) w)
                (Store.getItems (store w))) with (w := w) as [E _]; trivial.
    + intros x w' M'. now apply deselectItem_closed.
    + intros x w' M'. now apply (keeps_after_selectItem false (Some x) w').
    + now rewrite E.
Qed.

Lemma selections_store (sel : bool) (l : list Item.t) (w : widget) :
  store (fold_left (fun w item => after_selectItem sel (Some item) w) l w)
  = fold_left (fun s a => Store.reduce a s) (map (select_action sel) l) (store w).
Proof.
  revert w; induction l as [|it l IH]; intros w; cbn [fold_left map]; [reflexivity|].
  now rewrite IH, store_after_selectItem.
Qed.

Lemma getItems_selections (sel : bool) (l : list Item.t) (s : Store.t) :
  Store.getItems (fold_left (fun s a => Store.reduce a s) (map (select_action sel) l) s)
  = fold_left (fun its it => map (Reducers.select (Item.id it) sel) its) l
              (Store.getItems s).
Proof.
  revert s; induction l as [|it l IH]; intros s; simpl; [reflexivity|].
  now rewrite IH.
Qed.

Lemma select_marks (sel : bool) (l its : list Item.t) :
  fold_left (fun its it => map (Reducers.select (Item.id it) sel) its) l its
  = map (fun x => if existsb (fun r => Item.id x =? Item.id r) l
                  then marked sel x else x) its.
Proof.
  revert its; induction l as [|r l IH]; intros its; simpl.
  - symmetry. apply map_id.
  - rewrite IH, map_map. apply map_ext. intros x.
    unfold Reducers.select. fold (marked sel x).
    destruct (Item.id x =? Item.id r) eqn:E; simpl.
    + now destruct (existsb _ l).
    + reflexivity.
Qed.

Lemma select_all_marks (sel : bool) (its : list Item.t) :
  fold_left (fun its it => map (Reducers.select (Item.id it) sel) its) its its
  = map (marked sel) its.
Proof.
  rewrite select_marks. apply map_ext_in. intros x H.
  replace (existsb (fun r => Item.id x =? Item.id r) its) with true; [reflexivity|].
  symmetry. apply existsb_exists. exists x. split; [assumption|apply Z.eqb_refl].
Qed.

(** X1.  [selectAll] marks every item of the store as selected, the
    soft-deleted ones included, and [deselectAll] unmarks every item; both
    change nothing else of an item and dispatch one select action per item,
    in the items' order. *)
Theorem selectAll_marks_every_item (w : widget) :
  mounted w = true ->
  (exists w',
      selectAll w = Normal tt w'
      /\ Store.getItems (store w') = map (marked true) (Store.getItems (store w))
      /\ Store.dispatched (store w')
         = Store.dispatched (store w)
           ++ map (fun it => SELECT_ITEM (Item.id it) true) (Store.getItems (store w)))
  /\ (exists w',
         deselectAll w = Normal tt w'
         /\ Store.getItems (store w') = map (marked false) (Store.getItems (store w))
         /\ Store.dispatched (store w')
            = Store.dispatched (store w)
              ++ map (fun it => SELECT_ITEM (Item.id it) false)
                     (Store.getItems (store w))).
Proof.
  intros M. destruct (selectAll_closed w M) as [E1 E2].
  split; [exists (after_selectAll true w)|exists (after_selectAll false w)];
    (split; [assumption|]); unfold after_selectAll;
    rewrite selections_store, getItems_selections, select_all_marks,
      reductions_dispatched; split; reflexivity.
Qed.

Lemma selectAll_marks_every_item_witness :
  mounted colours = true
  /\ exists w',
      selectAll colours = Normal tt w'
      /\ map Item.selected (Store.getItems (store w')) = [true; true; true].
Proof.
  assert (mounted colours = true) as M by (vm_compute; reflexivity).
  split; [exact M|].
  destruct (selectAll_marks_every_item colours M) as [(w' & E & I & _) _].
  exists w'. split; [exact E|]. rewrite I. vm_compute. reflexivity.
Defined.

(** ** Removing the selected items *)

Lemma removeSelectedItems_closed (w : widget) :
  mounted w = true ->
  removeSelectedItems w = Normal tt (after_removeSelectedItems w)
  /\ mounted (after_removeSelectedItems w) = true.
Proof.
  intros M. unfold removeSelectedItems, method, bind, gets, after_removeSelectedItems.
  destruct (forEach_closed (fun w => mounted w = true)
              (fun item => when (Item.selected item && Item.active item)%bool
                                (removeItem (JS.VObj item) JS.VUndefined))
              (fun it w => remove_chosen w it)
              (Store.getItemsFilteredByActive (store w))) with (w := w) as [E M'];
    trivial.
  - intros x w' Mx. unfold remove_chosen, chosen, when.
    destruct (_ && _)%bool; [now apply removeItem_closed|reflexivity].
  - intros x w' Mx. unfold remove_chosen.
    destruct (chosen x); [now apply mounted_after_removeItem|assumption].
  - now rewrite E.
Qed.

Lemma keeps_after_removeSelectedItems (w : widget) :
  keeps w (after_removeSelectedItems w).
Proof.
  unfold after_removeSelectedItems.
  apply (keeps_fold (fun it w => remove_chosen w it)).
  intros it w'. unfold remove_chosen.
  destruct (chosen it); [apply keeps_after_removeItem|apply keeps_refl].
Qed.

Lemma chosen_store (l : list Item.t) (w : widget) :
  store (fold_left remove_chosen l w)
  = fold_left (fun s a => Store.reduce a s) (map remove_action (filter chosen l))
              (store w).
Proof.
  revert w; induction l as [|it l IH]; intros w; cbn [fold_left filter];
    [reflexivity|].
  rewrite IH. unfold remove_chosen.
  destruct (chosen it); [|reflexivity].
  cbn [map fold_left]. now rewrite store_after_removeItem.
Qed.

(** Items with distinct ids are told apart by their id. *)
Lemma same_id_same_item (l : list Item.t) (a b : Item.t) :
  NoDup (map Item.id l) -> In a l -> In b l -> Item.id a = Item.id b -> a = b.
Proof.
  induction l as [|x l IH]; intros N A B E; [destruct A|].
  inversion N as [|? ? NI N']; subst.
  destruct A as [->|A], B as [->|B]; trivial.
  - exfalso. apply NI. rewrite E. now apply in_map.
  - exfalso. apply NI. rewrite <- E. now apply in_map.
  - now apply IH.
Qed.

Lemma ids_upto_nodup (n : nat) : NoDup (ids_upto n).
Proof.
  unfold ids_upto. generalize (seq_NoDup n 1). generalize (seq 1 n) as l.
  induction l as [|x l IH]; intros N; simpl; constructor;
    inversion N as [|? ? NI N']; subst.
  - rewrite in_map_iff. intros (y & E & H). apply Nat2Z.inj in E. now subst.
  - now apply IH.
Qed.

Lemma ids_distinct (w : widget) :
  ids_in_order w = true -> NoDup (map Item.id (Store.getItems (store w))).
Proof.
  rewrite ids_in_order_spec. intros ->. apply ids_upto_nodup.
Qed.

Lemma filter_filter {A : Type} (p q : A -> bool) (l : list A) :
  filter p (filter q l) = filter (fun x => (q x && p x)%bool) l.
Proof.
  induction l as [|x l IH]; simpl; [reflexivity|].
  destruct (q x); simpl; [destruct (p x)|]; now rewrite IH.
Qed.

(** Removing a sublist of items with distinct ids leaves the active items
    outside it. *)
Lemma survives_outside (removed its : list Item.t) (p : Item.t -> bool) :
  NoDup (map Item.id its) ->
  removed = filter p its ->
  filter (survives removed) its
  = filter (fun it => (Item.active it && negb (p it))%bool) its.
Proof.
  intros N ->. apply filter_ext_in. intros it H. unfold survives. f_equal. f_equal.
  destruct (p it) eqn:P.
  - apply existsb_exists. exists it. split; [|apply Z.eqb_refl].
    apply filter_In. now split.
  - apply not_true_is_false. intros X. apply existsb_exists in X.
    destruct X as (r & R & E). apply filter_In in R. destruct R as [R Pr].
    apply Z.eqb_eq in E.
    assert (it = r) by now apply (same_id_same_item its).
    congruence.
Qed.

Lemma active_after_removeSelectedItems (w : widget) :
  ids_in_order w = true ->
  Store.getItemsFilteredByActive (store (after_removeSelectedItems w))
  = filter (fun it => negb (Item.selected it)) (Store.getItemsFilteredByActive (store w)).
Proof.
  intros I. unfold after_removeSelectedItems. rewrite chosen_store.
  unfold Store.getItemsFilteredByActive at 1. rewrite getItems_removals, active_removals.
  unfold Store.getItemsFilteredByActive.
  rewrite (@survives_outside _ (Store.getItems (store w))
             (fun it => (Item.active it && chosen it)%bool)).
  - rewrite filter_filter. apply filter_ext. intros it. unfold chosen.
    destruct (Item.active it), (Item.selected it); reflexivity.
  - now apply ids_distinct.
  - rewrite filter_filter. reflexivity.
Qed.

(** X2.  [removeSelectedItems] removes the active items that are selected
    and no other: it dispatches one remove action for each of them, in
    order, and the active items left are the unselected ones. *)
Theorem removeSelectedItems_removes_selected (w : widget) :
  mounted w = true ->
  ids_in_order w = true ->
  exists w',
    removeSelectedItems w = Normal tt w'
    /\ Store.getItemsFilteredByActive (store w')
       = filter (fun it => negb (Item.selected it))
                (Store.getItemsFilteredByActive (store w))
    /\ Store.dispatched (store w')
       = Store.dispatched (store w)
         ++ map remove_action
                (filter Item.selected (Store.getItemsFilteredByActive (store w))).
Proof.
  intros M I. destruct (removeSelectedItems_closed w M) as [E _].
  exists (after_removeSelectedItems w). split; [exact E|]. split.
  - now apply active_after_removeSelectedItems.
  - unfold after_removeSelectedItems. rewrite chosen_store, reductions_dispatched.
    f_equal. f_equal. unfold Store.getItemsFilteredByActive. rewrite !filter_filter.
    apply filter_ext. intros it. unfold chosen.
    destruct (Item.active it), (Item.selected it); reflexivity.
Qed.

Lemma removeSelectedItems_removes_selected_witness :
  mounted green_selected = true
  /\ ids_in_order green_selected = true
  /\ exists w',
      removeSelectedItems green_selected = Normal tt w'
      /\ Store.getItemsReducedToValues (store w') = ["red"; "blue"]
      /\ controlValue w' = "red,blue".
Proof.
  assert (mounted green_selected = true) as M by (vm_compute; reflexivity).
  assert (ids_in_order green_selected = true) as I by (vm_compute; reflexivity).
  split; [exact M|]. split; [exact I|].
  destruct (removeSelectedItems_removes_selected green_selected M I) as (w' & E & _).
  exists w'. split; [exact E|].
  assert (Normal tt w' = removeSelectedItems green_selected) as E'
      by (symmetry; exact E).
  vm_compute in E'. injection E' as ->. split; vm_compute; reflexivity.
Defined.

(** ** Backspace *)

Lemma last_index {A : Type} (l : list A) :
  (l = [] /\ JS.index l (JS.length l - 1) = None)
  \/ (exists l0 x, l = l0 ++ [x] /\ JS.index l (JS.length l - 1) = Some x).
Proof.
  destruct l as [|a l] using rev_ind; [left; split; reflexivity|].
  right. exists l, a. split; [reflexivity|].
  unfold JS.index, JS.length. rewrite length_app. simpl.
  replace (Z.of_nat (List.length l + 1) - 1) with (Z.of_nat (List.length l)) by lia.
  destruct (Z.ltb_spec (Z.of_nat (List.length l)) 0); [lia|].
  rewrite Nat2Z.id, nth_error_app2, Nat.sub_diag by lia. reflexivity.
Qed.

(** Leaving out the removed items keeps the ids distinct. *)
Lemma distinct_among_active (its : list Item.t) :
  NoDup (map Item.id its) -> NoDup (map Item.id (filter Item.active its)).
Proof.
  induction its as [|x its IH]; simpl; intros N; [constructor|].
  inversion N as [|? ? NI N']; subst.
  destruct (Item.active x); simpl; [constructor|]; auto.
  rewrite in_map_iff. intros (y & E & H). apply filter_In in H.
  apply NI. rewrite <- E. apply in_map. tauto.
Qed.

Lemma active_ids_distinct (w : widget) :
  ids_in_order w = true -> NoDup (map Item.id (activeItems w)).
Proof.
  intros I. apply distinct_among_active. now apply ids_distinct.
Qed.

(** In a list with distinct ids the last item's id is carried by no
    earlier one. *)
Lemma last_id_fresh (l0 : list Item.t) (x y : Item.t) :
  NoDup (map Item.id (l0 ++ [x])) -> In y l0 -> (Item.id y =? Item.id x) = false.
Proof.
  rewrite map_app. simpl. intros N H. apply Z.eqb_neq. intros E.
  apply NoDup_remove_2 in N. apply N. rewrite app_nil_r, <- E. now apply in_map.
Qed.

Lemma filter_active_select (id : Z) (sel : bool) (l : list Item.t) :
  filter Item.active (map (Reducers.select id sel) l)
  = map (Reducers.select id sel) (filter Item.active l).
Proof.
  induction l as [|x l IH]; simpl; [reflexivity|].
  replace (Item.active (Reducers.select id sel x)) with (Item.active x)
    by (unfold Reducers.select; now destruct (_ =? _)).
  destruct (Item.active x); simpl; now rewrite IH.
Qed.

Lemma filter_active_deactivate (id : Z) (l : list Item.t) :
  filter Item.active (map (Reducers.deactivate id) l)
  = filter (fun it => negb (Item.id it =? id)) (filter Item.active l).
Proof.
  induction l as [|x l IH]; cbn [map filter]; [reflexivity|].
  rewrite IH. unfold Reducers.deactivate.
  destruct (Item.id x =? id) eqn:E; cbn [Item.active].
  - destruct (Item.active x); cbn [filter]; rewrite ?E; reflexivity.
  - destruct (Item.active x); cbn [filter]; rewrite ?E; reflexivity.
Qed.

Lemma drop_last (l0 : list Item.t) (x : Item.t) :
  NoDup (map Item.id (l0 ++ [x])) ->
  filter (fun it => negb (Item.id it =? Item.id x)) (l0 ++ [x]) = l0.
Proof.
  intros N. rewrite filter_app. simpl. rewrite Z.eqb_refl. simpl.
  rewrite app_nil_r.
  rewrite (filter_ext_in _ (fun _ => true)); [now rewrite filter_true|].
  intros y H. now rewrite (@last_id_fresh l0 x y N H).
Qed.

Lemma select_last (l0 : list Item.t) (x : Item.t) :
  NoDup (map Item.id (l0 ++ [x])) ->
  filter (fun it => negb (Item.selected it))
         (map (Reducers.select (Item.id x) true) (l0 ++ [x]))
  = filter (fun it => negb (Item.selected it)) l0.
Proof.
  intros N. rewrite map_app, filter_app. simpl.
  unfold Reducers.select at 2. rewrite Z.eqb_refl. simpl. rewrite app_nil_r.
  f_equal. rewrite <- (map_id l0) at 2. apply map_ext_in. intros y H.
  unfold Reducers.select. now rewrite (@last_id_fresh l0 x y N H).
Qed.

Lemma input_after_dispatch (a : action) (w : widget) :
  input (after_dispatch a w) = input w.
Proof.
  destruct (after_dispatch_view a w) as (_ & _ & _ & _ & I & _). exact I.
Qed.

Lemma input_after_removeItem (it : Item.t) (callback : JS.val) (w : widget) :
  input (after_removeItem it callback w) = input w.
Proof.
  unfold after_removeItem. cbv zeta.
  destruct (_ && _)%bool; cbn [say input set_log]; apply input_after_dispatch.
Qed.

Lemma input_after_removeSelectedItems (w : widget) :
  input (after_removeSelectedItems w) = input w.
Proof.
  unfold after_removeSelectedItems.
  generalize (Store.getItemsFilteredByActive (store w)) as l.
  intros l; revert w; induction l as [|it l IH]; intros w; cbn [fold_left];
    [reflexivity|].
  rewrite IH. unfold remove_chosen.
  destruct (chosen it); [apply input_after_removeItem|reflexivity].
Qed.

(** The branch that removes: the last active item is selected, then the
    selected ones are removed. *)
Lemma backspace_removes (settings : Settings.t) (w : widget) :
  mounted w = true ->
  ids_in_order w = true ->
  Settings.removeItems settings = true ->
  (Settings.editItems settings
   && negb (existsb Item.selected (activeItems w)))%bool = false ->
  handleBackspace settings (activeItems w) w
  = Normal tt (after_removeSelectedItems
                 (after_selectItem true
                    (JS.index (activeItems w) (JS.length (activeItems w) - 1)) w))
  /\ activeItems
       (after_removeSelectedItems
          (after_selectItem true
             (JS.index (activeItems w) (JS.length (activeItems w) - 1)) w))
     = filter (fun it => negb (Item.selected it)) (removelast (activeItems w)).
Proof.
  intros M I R C. unfold handleBackspace, method, when. rewrite R. cbv zeta.
  rewrite C. cbn [andb]. unfold bind.
  set (lastItem := JS.index (activeItems w) (JS.length (activeItems w) - 1)).
  rewrite (selectItem_closed lastItem w M).
  pose proof (keeps_after_selectItem true lastItem w) as (_ & _ & _ & KM & _ & KI & _).
  destruct (removeSelectedItems_closed _ (KM M)) as [E _]. rewrite E.
  split; [reflexivity|].
  unfold activeItems at 1. rewrite active_after_removeSelectedItems by now apply KI.
  pose proof (active_ids_distinct w I) as N.
  destruct (last_index (activeItems w)) as [[L1 L2]|(l0 & x & L1 & L2)];
    fold lastItem in L2; rewrite L2, L1 in *.
  - cbn [after_selectItem]. fold (activeItems w). rewrite L1. reflexivity.
  - rewrite removelast_last. unfold Store.getItemsFilteredByActive.
    rewrite store_after_selectItem. unfold select_action.
    rewrite getItems_select, filter_active_select.
    fold (Store.getItemsFilteredByActive (store w)). fold (activeItems w).
    rewrite L1. now apply select_last.
Qed.

(** X3.  With [removeItems] on and no editing (the defaults), or when an
    active item is already selected, backspace in the empty input selects
    the last active item and removes every selected one: the active items
    left are the unselected ones before the last.  With no active item it
    does nothing and does not fail; the input is not written. *)
Theorem backspace_removes_last (settings : Settings.t) (w : widget) :
  mounted w = true ->
  ids_in_order w = true ->
  Settings.removeItems settings = true ->
  (Settings.editItems settings
   && negb (existsb Item.selected (activeItems w)))%bool = false ->
  exists w',
    handleBackspace settings (activeItems w) w = Normal tt w'
    /\ activeItems w'
       = filter (fun it => negb (Item.selected it)) (removelast (activeItems w))
    /\ input w' = input w
    /\ (activeItems w = [] -> store w' = store w).
Proof.
  intros M I R C. destruct (backspace_removes settings w M I R C) as [E A].
  eexists. split; [exact E|]. split; [exact A|]. split.
  - rewrite input_after_removeSelectedItems.
    destruct (JS.index _ _); [apply input_after_dispatch|reflexivity].
  - intros L. rewrite L.
    change (JS.index (@nil Item.t) (JS.length (@nil Item.t) - 1)) with (@None Item.t).
    cbn [after_selectItem]. unfold after_removeSelectedItems.
    fold (activeItems w). rewrite L. reflexivity.
Qed.

Lemma backspace_removes_last_witness :
  mounted green_selected = true
  /\ ids_in_order green_selected = true
  /\ Settings.removeItems Settings.default = true
  /\ exists w',
      handleBackspace Settings.default (activeItems green_selected) green_selected
      = Normal tt w'
      /\ map Item.value (activeItems w') = ["red"].
Proof.
  assert (mounted green_selected = true) as M by (vm_compute; reflexivity).
  assert (ids_in_order green_selected = true) as I by (vm_compute; reflexivity).
  split; [exact M|]. split; [exact I|]. split; [reflexivity|].
  destruct (backspace_removes_last Settings.default green_selected M I eq_refl eq_refl)
    as (w' & E & A & _).
  exists w'. split; [exact E|]. rewrite A. vm_compute. reflexivity.
Defined.

(** The branch that edits: the input takes the last item's value and the
    item is removed. *)
Lemma backspace_edits (settings : Settings.t) (w : widget) (l0 : list Item.t)
  (lastItem : Item.t) :
  mounted w = true ->
  ids_in_order w = true ->
  Settings.removeItems settings = true ->
  Settings.editItems settings = true ->
  existsb Item.selected (activeItems w) = false ->
  activeItems w = l0 ++ [lastItem] ->
  exists w',
    handleBackspace settings (activeItems w) w = Normal tt w'
    /\ input w' = mkInput (Item.value lastItem) (in_focused (input w))
    /\ activeItems w' = l0
    /\ Store.dispatched (store w')
       = Store.dispatched (store w) ++ [remove_action lastItem]
    /\ keeps w w'.
Proof.
  intros M I R Ed S L. unfold handleBackspace, method, when. rewrite R, Ed, S.
  cbv zeta.
  destruct (last_index (activeItems w)) as [[L1 _]|(l1 & x & L1 & L2)];
    [rewrite L in L1; now destruct l0|].
  rewrite L in L1. apply app_inj_tail in L1. destruct L1 as [<- <-].
  rewrite L2. cbn [andb negb]. unfold bind, modify.
  set (w0 := set_input (mkInput (Item.value lastItem) (in_focused (input w))) w).
  assert (mounted w0 = true) as M0 by exact M.
  rewrite (removeItem_closed lastItem JS.VUndefined w0 M0).
  eexists. split; [reflexivity|]. split; [|split; [|split]].
  - now rewrite input_after_removeItem.
  - unfold activeItems, Store.getItemsFilteredByActive.
    rewrite store_after_removeItem. unfold remove_action.
    rewrite getItems_remove, filter_active_deactivate.
    change (Store.getItems (store w0)) with (Store.getItems (store w)).
    fold (Store.getItemsFilteredByActive (store w)). fold (activeItems w).
    rewrite L. apply drop_last. rewrite <- L. now apply active_ids_distinct.
  - rewrite store_after_removeItem. reflexivity.
  - eapply keeps_trans; [|apply keeps_after_removeItem].
    unfold keeps; repeat split; auto.
Qed.

(** X4.  With [editItems] on and no active item selected, backspace in the
    empty input moves the last active item's value into the input and
    removes that item alone. *)
Theorem backspace_edits_last (settings : Settings.t) (w : widget)
  (l0 : list Item.t) (lastItem : Item.t) :
  mounted w = true ->
  ids_in_order w = true ->
  Settings.removeItems settings = true ->
  Settings.editItems settings = true ->
  existsb Item.selected (activeItems w) = false ->
  activeItems w = l0 ++ [lastItem] ->
  exists w',
    handleBackspace settings (activeItems w) w = Normal tt w'
    /\ in_value (input w') = Item.value lastItem
    /\ activeItems w' = l0
    /\ Store.dispatched (store w')
       = Store.dispatched (store w)
         ++ [REMOVE_ITEM (Item.id lastItem) (Item.optionId lastItem)].
Proof.
  intros M I R Ed S L.
  destruct (@backspace_edits settings w l0 lastItem M I R Ed S L) as (w' & E & In & A & D & _).
  exists w'. split; [exact E|]. rewrite In. now repeat split.
Qed.

Lemma backspace_edits_last_witness :
  mounted colours = true
  /\ ids_in_order colours = true
  /\ existsb Item.selected (activeItems colours) = false
  /\ activeItems colours
     = [Item.mk 1 "red" "red" (-1) true false; Item.mk 2 "green" "green" (-1) true false]
       ++ [Item.mk 3 "blue" "blue" (-1) true false]
  /\ exists w',
      handleBackspace editing (activeItems colours) colours = Normal tt w'
      /\ in_value (input w') = "blue"
      /\ map Item.value (activeItems w') = ["red"; "green"].
Proof.
  assert (mounted colours = true) as M by (vm_compute; reflexivity).
  assert (ids_in_order colours = true) as I by (vm_compute; reflexivity).
  assert (existsb Item.selected (activeItems colours) = false) as S
      by (vm_compute; reflexivity).
  assert (activeItems colours
          = [Item.mk 1 "red" "red" (-1) true false;
             Item.mk 2 "green" "green" (-1) true false]
            ++ [Item.mk 3 "blue" "blue" (-1) true false]) as L
      by (vm_compute; reflexivity).
  split; [exact M|]. split; [exact I|]. split; [exact S|]. split; [exact L|].
  destruct (@backspace_edits_last editing colours _ _ M I eq_refl eq_refl S L)
    as (w' & E & In & A & _).
  exists w'. split; [exact E|]. split; [exact In|]. now rewrite A.
Defined.

(** ** Enter *)

Lemma clearInput_closed (w : widget) : clearInput w = Normal tt (after_clearInput w).
Proof.
  unfold clearInput, after_clearInput, method, bind, gets, when, modify.
  now destruct (in_value (input w) =? "")%string.
Qed.

Lemma keeps_after_clearInput (w : widget) : keeps w (after_clearInput w).
Proof.
  unfold after_clearInput. destruct (_ =? _)%string; [apply keeps_refl|].
  unfold keeps; repeat split; auto.
Qed.

Lemma store_after_clearInput (w : widget) : store (after_clearInput w) = store w.
Proof. unfold after_clearInput. now destruct (_ =? _)%string. Qed.

Lemma handleEnter_closed (settings : Settings.t)
  (regexp_test : string -> string -> option bool) (given : list Item.t)
  (value : string) (w : widget) :
  mounted w = true ->
  handleEnter settings regexp_test given value w
  = if can_update settings given value w
    then match passes settings regexp_test value with
         | Some true =>
             Normal tt (after_clearInput
                          (after_addItem value None None JS.VUndefined w))
         | Some false => Normal tt w
         | None => Throw w
         end
    else Normal tt w.
Proof.
  intros M.
  assert (forall b : bool,
             method (canAddItem <- ret b ;;
                     when canAddItem (addItem value None None JS.VUndefined ;;
                                      clearInput)) w
             = if b
               then Normal tt (after_clearInput
                                 (after_addItem value None None JS.VUndefined w))
               else Normal tt w) as Add.
  { intros [|]; unfold method, bind, ret, when; [|reflexivity].
    now rewrite (addItem_closed value None None JS.VUndefined w M), clearInput_closed. }
  unfold handleEnter, can_update, passes, controlValue.
  unfold method at 1. unfold bind at 1. unfold gets at 1.
  destruct (is_text (el_type (passedElement w))); [|reflexivity].
  unfold when at 1. unfold bind at 1. unfold gets at 1. cbv zeta.
  destruct (Settings.addItems settings); [|reflexivity].
  destruct (reached _ _); [reflexivity|].
  cbn [andb negb].
  assert ((if (negb (Settings.allowDuplicates settings)
               && negb (el_value (passedElement w) =? "")%string)%bool
           then negb (existsb (fun item => (Item.value item =? value)%string) given)
           else true)
          = (Settings.allowDuplicates settings
             || (el_value (passedElement w) =? "")%string
             || negb (existsb (fun item => (Item.value item =? value)%string) given))%bool)
    as ->.
  { destruct (Settings.allowDuplicates settings),
      (el_value (passedElement w) =? "")%string; reflexivity. }
  destruct (_ || _ || _)%bool; [|reflexivity].
  unfold when at 1. unfold regexFilter.
  destruct (Settings.regexFilter settings) as [p|]; [|apply (Add true)].
  destruct (p =? "")%string; [apply (Add true)|].
  destruct (regexp_test p value) as [b|]; [apply (Add b)|reflexivity].
Qed.

(** *** The item list follows the store *)

Lemma shown_rendered_dirty (w : widget) : items_dirty w = true -> shown (rendered w).
Proof.
  intros D. unfold shown. cbn [itemList rendered store]. unfold rendered_items.
  now rewrite D.
Qed.

Lemma shown_rendered (w : widget) : shown w -> shown (rendered w).
Proof.
  intros S. unfold shown. cbn [itemList rendered store]. unfold rendered_items.
  now destruct (items_dirty w).
Qed.

Lemma shown_renders (ls : list Store.listener) (w : widget) :
  shown w -> shown (fold_left (fun w _ => rendered w) ls w).
Proof.
  revert w; induction ls as [|l ls IH]; intros w S; simpl; [assumption|].
  now apply IH, shown_rendered.
Qed.

Lemma shown_after_dispatch (a : action) (w : widget) :
  ready w = true -> subscribed w = true -> shown w -> shown (after_dispatch a w).
Proof.
  intros R Sub S. unfold after_dispatch.
  destruct (Store.listeners (store w)) as [|l ls] eqn:L;
    [unfold subscribed in Sub; rewrite L in Sub; discriminate Sub|].
  simpl. apply shown_renders.
  destruct (Reducers.items (Store.elems (Store.items (Store.state (store w)))) a) eqn:I.
  - apply shown_rendered_dirty, items_dirty_unrendered; [assumption|congruence].
  - apply shown_rendered. unfold shown, Store.getItemsFilteredByActive.
    cbn [unrendered itemList store set_store].
    now rewrite (getItems_other a (store w) I).
Qed.

Lemma shown_after_callback (callback : JS.val) (args : list JS.val)
  (diagnostic : event) (w : widget) :
  shown w -> shown (after_callback callback args diagnostic w).
Proof.
  destruct (after_callback_log_only callback args diagnostic w) as (l & ->).
  trivial.
Qed.

Lemma synced_after_callback (callback : JS.val) (args : list JS.val)
  (diagnostic : event) (w : widget) :
  synced (after_callback callback args diagnostic w) = synced w.
Proof.
  destruct (after_callback_log_only callback args diagnostic w) as (l & ->).
  reflexivity.
Qed.

Lemma subscribed_kept (w w' : widget) :
  keeps w w' -> subscribed w = true -> subscribed w' = true.
Proof.
  intros (_ & _ & L & _). unfold subscribed. now rewrite L.
Qed.

(** [addItem] where the element is not a single select: one dispatch. *)
Lemma after_addItem_plain (value : string) (label : option string)
  (optionId : option Z) (callback : JS.val) (w : widget) :
  is_select_one (el_type (passedElement w)) = false ->
  after_addItem value label optionId callback w
  = after_callback (JS.default callback (callbackOnAddItem (options w)))
      [JS.VNum (new_id w); JS.VStr value] add_diagnostic
      (after_dispatch (add_action w value label optionId) w).
Proof.
  intros T. unfold after_addItem. cbv zeta.
  now rewrite el_type_after_dispatch, T.
Qed.

Lemma active_after_entering (value : string) (w : widget) :
  is_select_one (el_type (passedElement w)) = false ->
  activeItems (after_clearInput (after_addItem value None None JS.VUndefined w))
  = activeItems w ++ [entered w value].
Proof.
  intros T. unfold activeItems, Store.getItemsFilteredByActive.
  rewrite store_after_clearInput, store_after_addItem. cbv zeta. rewrite T.
  unfold add_action. rewrite getItems_add, filter_app. reflexivity.
Qed.

(** What an accepted value leaves. *)
Lemma enter_accepted (settings : Settings.t)
  (regexp_test : string -> string -> option bool) (given : list Item.t)
  (value : string) (w : widget) :
  mounted w = true ->
  can_update settings given value w = true ->
  passes settings regexp_test value = Some true ->
  let w' := after_clearInput (after_addItem value None None JS.VUndefined w) in
  handleEnter settings regexp_test given value w = Normal tt w'
  /\ activeItems w' = activeItems w ++ [entered w value]
  /\ in_value (input w') = ""
  /\ Store.dispatched (store w')
     = Store.dispatched (store w)
       ++ [ADD_ITEM (storedValue (options w) value) (JS.trim value) (new_id w) (-1)]
  /\ keeps w w'.
Proof.
  intros M C P w'.
  assert (is_select_one (el_type (passedElement w)) = false) as T.
  { unfold can_update in C. now destruct (el_type (passedElement w)). }
  split; [|split; [|split; [|split]]].
  - now rewrite handleEnter_closed, C, P.
  - now apply active_after_entering.
  - unfold w', after_clearInput.
    destruct (in_value (input _) =? "")%string eqn:E;
      [now apply String.eqb_eq in E|reflexivity].
  - unfold w'. rewrite store_after_clearInput, store_after_addItem. cbv zeta.
    rewrite T. reflexivity.
  - eapply keeps_trans; [apply keeps_after_addItem|apply keeps_after_clearInput].
Qed.

(** X5.  When [handleEnter] accepts a value (a text input, adding allowed,
    the limit not reached, no duplicate found or duplicates allowed, the
    filter passed), it adds one active, unselected item holding the trimmed
    value after the active items, and empties the input. *)
Theorem enter_adds_trimmed_value (settings : Settings.t)
  (regexp_test : string -> string -> option bool) (given : list Item.t)
  (value : string) (w : widget) :
  mounted w = true ->
  can_update settings given value w = true ->
  passes settings regexp_test value = Some true ->
  exists w',
    handleEnter settings regexp_test given value w = Normal tt w'
    /\ activeItems w'
       = activeItems w
         ++ [Item.mk (JS.length (Store.getItems (store w)) + 1)
                     (storedValue (options w) value) (JS.trim value) (-1) true false]
    /\ in_value (input w') = ""
    /\ Store.dispatched (store w')
       = Store.dispatched (store w)
         ++ [ADD_ITEM (storedValue (options w) value) (JS.trim value)
                      (JS.length (Store.getItems (store w)) + 1) (-1)].
Proof.
  intros M C P.
  destruct (@enter_accepted settings regexp_test given value w M C P) as (E & A & I & D & _).
  eexists. split; [exact E|]. split; [exact A|]. split; [exact I|exact D].
Qed.

Lemma enter_adds_trimmed_value_witness :
  mounted colours = true
  /\ can_update no_duplicates (activeItems colours) " red" colours = true
  /\ exists w',
      handleEnter no_duplicates any_value (activeItems colours) " red" colours
      = Normal tt w'
      /\ map Item.value (activeItems w') = ["red"; "green"; "blue"; "red"].
Proof.
  assert (mounted colours = true) as M by (vm_compute; reflexivity).
  assert (can_update no_duplicates (activeItems colours) " red" colours = true) as C
      by (vm_compute; reflexivity).
  split; [exact M|]. split; [exact C|].
  destruct (@enter_adds_trimmed_value no_duplicates any_value (activeItems colours)
              " red" colours M C eq_refl) as (w' & E & A & _).
  exists w'. split; [exact E|]. rewrite A. vm_compute. reflexivity.
Defined.

Lemma shown_after_entering (value : string) (w : widget) :
  ready w = true -> subscribed w = true -> shown w ->
  is_select_one (el_type (passedElement w)) = false ->
  shown (after_clearInput (after_addItem value None None JS.VUndefined w)).
Proof.
  intros R Sub S T. rewrite after_addItem_plain by assumption.
  assert (shown (after_callback
                   (JS.default JS.VUndefined (callbackOnAddItem (options w)))
                   [JS.VNum (new_id w); JS.VStr value] add_diagnostic
                   (after_dispatch (add_action w value None None) w))) as S'
      by now apply shown_after_callback, shown_after_dispatch.
  unfold after_clearInput. now destruct (_ =? _)%string.
Qed.

(** X6.  With [maxItems] set to a positive [n], on a widget whose list
    shows the active items, [handleEnter] never takes the number of active
    items above [n] (or above what it was): it adds nothing once the list
    holds [n] items.  The widget stays ready and subscribed and its list
    keeps showing the active items, so the bound holds along any number of
    calls. *)
Theorem enter_respects_maxItems (settings : Settings.t)
  (regexp_test : string -> string -> option bool) (given : list Item.t)
  (value : string) (w : widget) (n : Z) :
  ready w = true ->
  subscribed w = true ->
  shown w ->
  Settings.maxItems settings = Some n ->
  0 < n ->
  ready (exec (handleEnter settings regexp_test given value) w) = true
  /\ subscribed (exec (handleEnter settings regexp_test given value) w) = true
  /\ shown (exec (handleEnter settings regexp_test given value) w)
  /\ JS.length (activeItems (exec (handleEnter settings regexp_test given value) w))
     <= Z.max (JS.length (activeItems w)) n
  /\ (n <= JS.length (activeItems w) ->
      exec (handleEnter settings regexp_test given value) w = w).
Proof.
  intros R Sub S Mx N. pose proof (ready_mounted w R) as M.
  unfold exec. rewrite (handleEnter_closed settings regexp_test given value w M).
  assert (JS.length (itemList w) = JS.length (activeItems w)) as Len.
  { unfold JS.length, activeItems. rewrite S. now rewrite length_map. }
  destruct (can_update settings given value w) eqn:C;
    [|repeat split; trivial; lia].
  unfold can_update in C. rewrite Mx in C. unfold reached in C. rewrite Len in C.
  destruct (is_text (el_type (passedElement w))) eqn:T; [|discriminate C].
  destruct (Settings.addItems settings); [|discriminate C].
  destruct (Z.leb_spec n (JS.length (activeItems w))) as [Le|Lt];
    [rewrite andb_true_r in C; cbn in C;
     destruct (n =? 0) eqn:Z0; [apply Z.eqb_eq in Z0; lia|discriminate C]|].
  assert (is_select_one (el_type (passedElement w)) = false) as T1
      by now destruct (el_type (passedElement w)).
  destruct (passes settings regexp_test value) as [[|]|];
    try (repeat split; trivial; lia).
  pose proof (keeps_trans (keeps_after_addItem value None None JS.VUndefined w)
                (keeps_after_clearInput _)) as K.
  split; [now apply K|]. split; [now apply (subscribed_kept K)|].
  split; [now apply shown_after_entering|]. split; [|lia].
  rewrite active_after_entering by assumption.
  unfold JS.length in *. rewrite length_app. simpl. lia.
Qed.

Lemma enter_respects_maxItems_witness :
  ready colours = true
  /\ subscribed colours = true
  /\ shown colours
  /\ JS.length (activeItems colours) = 3
  /\ exec (handleEnter capped any_value (activeItems colours) "black") colours
     = colours.
Proof.
  assert (ready colours = true) as R by (vm_compute; reflexivity).
  assert (subscribed colours = true) as Sub by (vm_compute; reflexivity).
  assert (shown colours) as S by (vm_compute; reflexivity).
  assert (JS.length (activeItems colours) = 3) as L by (vm_compute; reflexivity).
  split; [exact R|]. split; [exact Sub|]. split; [exact S|]. split; [exact L|].
  destruct (@enter_respects_maxItems capped any_value (activeItems colours) "black"
              colours 3 R Sub S eq_refl eq_refl) as (_ & _ & _ & _ & Same).
  apply Same. rewrite L. discriminate.
Defined.

(** *** Duplicates *)

Lemma append_empty (a b : string) : (a ++ b)%string = "" -> a = "" /\ b = "".
Proof. destruct a; simpl; [auto|discriminate]. Qed.

Lemma join_empty (sep : string) (l : list string) :
  JS.join sep l = "" -> forall x, In x l -> x = "".
Proof.
  unfold JS.join. induction l as [|a l IH]; intros E x H; [destruct H|].
  destruct l as [|b l].
  - destruct H as [<-|[]]. exact E.
  - cbn [concat] in E. apply append_empty in E. destruct E as [Ea E].
    apply append_empty in E. destruct E as [_ E].
    destruct H as [<-|H]; [exact Ea|now apply IH].
Qed.

Lemma values_after_entering (value : string) (w : widget) :
  is_select_one (el_type (passedElement w)) = false ->
  Store.getItemsReducedToValues
    (store (after_clearInput (after_addItem value None None JS.VUndefined w)))
  = Store.getItemsReducedToValues (store w) ++ [storedValue (options w) value].
Proof.
  intros T. unfold Store.getItemsReducedToValues.
  change (Store.getItemsFilteredByActive
            (store (after_clearInput
                      (after_addItem value None None JS.VUndefined w))))
    with (activeItems (after_clearInput
                         (after_addItem value None None JS.VUndefined w))).
  rewrite active_after_entering by assumption. now rewrite map_app.
Qed.

Lemma synced_after_entering (value : string) (w : widget) :
  ready w = true -> subscribed w = true -> synced w = true ->
  is_select_one (el_type (passedElement w)) = false ->
  synced (after_clearInput (after_addItem value None None JS.VUndefined w)) = true.
Proof.
  intros R Sub S T. rewrite after_addItem_plain by assumption.
  assert (synced (after_callback
                    (JS.default JS.VUndefined (callbackOnAddItem (options w)))
                    [JS.VNum (new_id w); JS.VStr value] add_diagnostic
                    (after_dispatch (add_action w value None None) w)) = true) as S'
      by (rewrite synced_after_callback; now apply synced_after_dispatch).
  unfold after_clearInput. now destruct (_ =? _)%string.
Qed.

(** X7.  With [allowDuplicates] off, entering a value that is not empty and
    that [addItem] stores as it is (already trimmed, nothing prepended or
    appended) never gives two active items the same value: an equal value
    is refused, and the check is only skipped while the control is empty.
    The widget stays ready, subscribed and in step with its control, so
    this holds along any number of calls. *)
Theorem enter_keeps_values_distinct (settings : Settings.t)
  (regexp_test : string -> string -> option bool) (value : string) (w : widget) :
  ready w = true ->
  subscribed w = true ->
  synced w = true ->
  Settings.allowDuplicates settings = false ->
  storedValue (options w) value = value ->
  value <> "" ->
  distinct_values w ->
  distinct_values (exec (handleEnter settings regexp_test (activeItems w) value) w)
  /\ ready (exec (handleEnter settings regexp_test (activeItems w) value) w) = true
  /\ subscribed (exec (handleEnter settings regexp_test (activeItems w) value) w) = true
  /\ synced (exec (handleEnter settings regexp_test (activeItems w) value) w) = true
  /\ (In value (Store.getItemsReducedToValues (store w)) ->
      exec (handleEnter settings regexp_test (activeItems w) value) w = w).
Proof.
  intros R Sub S Dup St NE D. pose proof (ready_mounted w R) as M.
  unfold exec.
  rewrite (handleEnter_closed settings regexp_test (activeItems w) value w M).
  assert (can_update settings (activeItems w) value w = true ->
          ~ In value (Store.getItemsReducedToValues (store w))
          /\ is_select_one (el_type (passedElement w)) = false) as Fresh.
  { unfold can_update. rewrite Dup. intros C.
    destruct (is_text (el_type (passedElement w))) eqn:T; [|discriminate C].
    split; [|now destruct (el_type (passedElement w))].
    destruct (Settings.addItems settings); [|discriminate C].
    destruct (negb _); [|discriminate C]. cbn [andb orb] in C. intros H.
    apply orb_true_iff in C. destruct C as [C|C].
    - apply String.eqb_eq in C. apply String.eqb_eq in S.
      rewrite C in S. symmetry in S.
      now apply (join_empty _ _ S) in H.
    - apply negb_true_iff in C.
      assert (existsb (fun item => (Item.value item =? value)%string) (activeItems w)
              = true); [|congruence].
      unfold Store.getItemsReducedToValues in H. apply in_map_iff in H.
      destruct H as (it & E & H). apply existsb_exists. exists it.
      split; [exact H|]. now apply String.eqb_eq. }
  destruct (can_update settings (activeItems w) value w) eqn:C;
    [|now repeat split].
  destruct (Fresh eq_refl) as [F T].
  destruct (passes settings regexp_test value) as [[|]|]; try now repeat split.
  pose proof (keeps_trans (keeps_after_addItem value None None JS.VUndefined w)
                (keeps_after_clearInput _)) as K.
  split; [|split; [|split; [|split]]].
  - unfold distinct_values. rewrite values_after_entering, St by assumption.
    apply NoDup_app; [exact D|repeat constructor; intros []|].
    intros x Hx [<-|[]]. contradiction.
  - now apply K.
  - now apply (subscribed_kept K).
  - now apply synced_after_entering.
  - intros H. contradiction.
Qed.

Lemma enter_keeps_values_distinct_witness :
  ready colours = true
  /\ subscribed colours = true
  /\ synced colours = true
  /\ storedValue (options colours) "red" = "red"
  /\ "red" <> ""
  /\ distinct_values colours
  /\ exec (handleEnter no_duplicates any_value (activeItems colours) "red") colours
     = colours.
Proof.
  assert (ready colours = true) as R by (vm_compute; reflexivity).
  assert (subscribed colours = true) as Sub by (vm_compute; reflexivity).
  assert (synced colours = true) as S by (vm_compute; reflexivity).
  assert (storedValue (options colours) "red" = "red") as St
      by (vm_compute; reflexivity).
  assert ("red" <> "") as NE by discriminate.
  assert (Store.getItemsReducedToValues (store colours) = ["red"; "green"; "blue"])
    as V by (vm_compute; reflexivity).
  assert (distinct_values colours) as D.
  { unfold distinct_values. rewrite V.
    repeat constructor; simpl; intuition discriminate. }
  split; [exact R|]. split; [exact Sub|]. split; [exact S|]. split; [exact St|].
  split; [exact NE|]. split; [exact D|].
  destruct (@enter_keeps_values_distinct no_duplicates any_value "red" colours
              R Sub S eq_refl St NE D) as (_ & _ & _ & _ & Same).
  apply Same. rewrite V. now left.
Defined.



(** ** What the constructor builds *)

(** The constructor's widget is the first render of what [generateInput]
    left, subscribed, with the log of the init callback. *)
Lemma new_rendered (element : element) (userOptions : config) :
  canInit element = true ->
  exists g l,
    generateInput (fields element userOptions) = Normal tt g
    /\ keeps (prepared (fields element userOptions)) g
    /\ prevState g = EmptyObject
    /\ Choices.new element userOptions
       = set_log l (rendered (set_store (Store.subscribe Store.Render (store g)) g)).
Proof.
  intros C. unfold Choices.new, exec, constructor. rewrite C.
  unfold init, method. unfold bind at 1.
  destruct (generateInput_runs (fields element userOptions)) as (g & E & K).
  rewrite E. unfold bind at 1. unfold modify at 1.
  set (w1 := set_store (Store.subscribe Store.Render (store g)) g).
  assert (ready (prepared (fields element userOptions)) = true) as R0.
  { unfold prepared, fields; cbn [passedElement].
    destruct (is_select (el_type element)) eqn:S; unfold ready; simpl; now rewrite S. }
  assert (Store.listeners (store (prepared (fields element userOptions))) = []) as L0
      by (unfold prepared; now destruct (is_select _)).
  assert (prevState (prepared (fields element userOptions)) = EmptyObject) as P0
      by (unfold prepared; now destruct (is_select _)).
  pose proof K as (_ & _ & _ & _ & KR & _ & KP).
  specialize (KR R0). specialize (KP L0).
  assert (ready w1 = true) as R1 by exact KR.
  unfold bind at 1. rewrite (render_rendered w1 (ready_mounted w1 R1)).
  unfold bind, gets. rewrite callback_closed.
  destruct (after_callback_log_only
              (JS.default JS.VUndefined (callbackOnInit (options (rendered w1)))) []
              (ConsoleError "callbackOnInit: Callback is not a function") (rendered w1))
    as (l & ->).
  exists g, l. split; [reflexivity|]. split; [exact K|]. split; [congruence|].
  reflexivity.
Qed.

Lemma new_shown (element : element) (userOptions : config) :
  canInit element = true -> shown (Choices.new element userOptions).
Proof.
  intros C. destruct (new_rendered element userOptions C) as (g & l & _ & _ & P & ->).
  change (shown (rendered (set_store (Store.subscribe Store.Render (store g)) g))).
  apply shown_rendered_dirty. unfold items_dirty. cbn [prevState set_store].
  now rewrite P.
Qed.

Lemma dispatches_keep_shown (actions : list action) (w : widget) :
  ready w = true -> subscribed w = true -> shown w ->
  exists w', forEach dispatch actions w = Normal tt w' /\ shown w'.
Proof.
  revert w; induction actions as [|a actions IH]; intros w R Sub S.
  - now exists w.
  - destruct (IH (after_dispatch a w)) as (w' & E & S').
    + now apply ready_after_dispatch.
    + now rewrite subscribed_after_dispatch.
    + now apply shown_after_dispatch.
    + exists w'. simpl. unfold bind.
      now rewrite (dispatch_closed a w (ready_mounted w R)), E.
Qed.

(** X9.  On a widget the constructor has initialised, after any sequence of
    dispatches the item list holds one element per active item of the
    store, in the store's order: an item that was removed (soft-deleted) is
    never shown, and no active item is missing. *)
Theorem item_list_follows_store (element : element) (userOptions : config)
  (actions : list action) :
  canInit element = true ->
  exists w,
    forEach dispatch actions (Choices.new element userOptions) = Normal tt w
    /\ map ie_data (itemList w) = filter Item.active (Store.getItems (store w)).
Proof.
  intros C.
  destruct (new_initialised element userOptions C) as (_ & R & Sub & _).
  destruct (@dispatches_keep_shown actions _ R Sub (new_shown element userOptions C))
    as (w & E & S).
  exists w. split; [exact E|]. rewrite S, map_map. apply map_id.
Qed.

Lemma item_list_follows_store_witness :
  canInit (text_input "red,green,blue") = true
  /\ exists w,
      forEach dispatch [REMOVE_ITEM 2 (-1); SELECT_ITEM 3 true] colours = Normal tt w
      /\ map ie_data (itemList w)
         = [Item.mk 1 "red" "red" (-1) true false;
            Item.mk 3 "blue" "blue" (-1) true true].
Proof.
  split; [reflexivity|].
  destruct (item_list_follows_store (text_input "red,green,blue") defaultOptions
              [REMOVE_ITEM 2 (-1); SELECT_ITEM 3 true] eq_refl) as (w & E & L).
  exists w. split; [exact E|]. rewrite L.
  assert (Normal tt w
          = forEach dispatch [REMOVE_ITEM 2 (-1); SELECT_ITEM 3 true] colours) as E'
      by (symmetry; exact E).
  vm_compute in E'. injection E' as ->. vm_compute. reflexivity.
Defined.

(** *** A text input's preset items *)

Lemma entering_all (values : list string) (w : widget) :
  mounted w = true ->
  is_select_one (el_type (passedElement w)) = false ->
  exists w',
    forEach (fun value => addItem value None None JS.VUndefined) values w
    = Normal tt w'
    /\ Store.getItems (store w')
       = Store.getItems (store w)
         ++ entered_from (options w) (List.length (Store.getItems (store w))) values
    /\ keeps w w'.
Proof.
  revert w; induction values as [|v values IH]; intros w M T.
  - exists w. split; [reflexivity|]. split; [|apply keeps_refl].
    simpl. now rewrite app_nil_r.
  - pose proof (keeps_after_addItem v None None JS.VUndefined w) as K.
    pose proof K as (KO & KT & _ & KM & _).
    destruct (IH (after_addItem v None None JS.VUndefined w)) as (w' & E & I & K').
    + now apply KM.
    + now rewrite KT.
    + exists w'. cbn [forEach]. unfold bind.
      rewrite (addItem_closed v None None JS.VUndefined w M), E.
      split; [reflexivity|]. split; [|eapply keeps_trans; eassumption].
      rewrite I, KO, store_after_addItem. cbv zeta. rewrite T.
      unfold add_action. rewrite getItems_add, length_app, <- app_assoc.
      cbn [List.length entered_from app]. unfold new_id, JS.length, or_label, or_optionId.
      now rewrite Nat.add_1_r.
Qed.

Lemma entered_active (cfg : config) (n : nat) (values : list string) :
  filter Item.active (entered_from cfg n values) = entered_from cfg n values.
Proof.
  revert n; induction values as [|v values IH]; intros n; simpl; [reflexivity|].
  now rewrite IH.
Qed.

Lemma entered_values (cfg : config) (n : nat) (values : list string) :
  map Item.value (entered_from cfg n values) = map (storedValue cfg) values.
Proof.
  revert n; induction values as [|v values IH]; intros n; simpl; [reflexivity|].
  now rewrite IH.
Qed.

(** X10.  On a text input the constructor turns the preset values, which are
    [options.items] when that array is not empty and otherwise the pieces
    of the element's value between delimiters, into the items 1, 2, ... in
    that order, each active and unselected, holding the trimmed piece (with
    what is to be prepended and appended) and labelled by the trimmed piece;
    the element's value is rewritten as these stored values joined by the
    delimiter. *)
Theorem text_input_presets (element : element) (userOptions : config) :
  el_type element = Text ->
  let presets :=
    if negb (JS.length (items userOptions) =? 0) then items userOptions
    else if negb (el_value element =? "")%string
         then JS.split (delimiter userOptions) (el_value element)
         else [] in
  Store.getItems (store (Choices.new element userOptions))
  = entered_from userOptions 0 presets
  /\ activeItems (Choices.new element userOptions) = entered_from userOptions 0 presets
  /\ controlValue (Choices.new element userOptions)
     = JS.join (delimiter userOptions) (map (storedValue userOptions) presets).
Proof.
  intros T presets.
  assert (canInit element = true) as C by (unfold canInit; now rewrite T).
  destruct (new_rendered element userOptions C) as (g & l & G & _ & _ & N).
  destruct (new_initialised element userOptions C) as (_ & _ & _ & S & _ & O & _).
  assert (mounted (fields element userOptions) = true) as M
      by (unfold mounted, fields; cbn [passedElement]; now rewrite T).
  destruct (@entering_all presets (fields element userOptions) M) as (w' & E & I & _).
  { unfold fields; cbn [passedElement]. now rewrite T. }
  assert (generateInput (fields element userOptions)
          = Normal tt (set_itemList [] (set_input (mkInput "" false) w'))) as G'.
  { unfold generateInput, method. unfold bind at 1. unfold gets at 1.
    unfold fields at 1 2. cbn [passedElement]. rewrite T. cbn [is_select is_text].
    unfold bind at 1. unfold bind at 1. unfold gets at 1.
    change (el_type (passedElement (fields element userOptions)))
      with (el_type element).
    rewrite T. cbn [is_text].
    change (presetItems (fields element userOptions)) with presets.
    now rewrite E. }
  rewrite G' in G. injection G as <-.
  assert (Store.getItems (store (Choices.new element userOptions))
          = entered_from userOptions 0 presets) as Items.
  { rewrite N. change (Store.getItems (store w') = entered_from userOptions 0 presets).
    rewrite I. reflexivity. }
  split; [exact Items|]. split.
  - unfold activeItems, Store.getItemsFilteredByActive. rewrite Items.
    apply entered_active.
  - apply String.eqb_eq in S. rewrite S. unfold serialized, Store.getItemsReducedToValues,
      Store.getItemsFilteredByActive.
    now rewrite O, Items, entered_active, entered_values.
Qed.

Lemma text_input_presets_witness :
  el_type (text_input "red, green ,blue") = Text
  /\ Store.getItems (store (Choices.new (text_input "red, green ,blue") defaultOptions))
     = [Item.mk 1 "red" "red" (-1) true false;
        Item.mk 2 "green" "green" (-1) true false;
        Item.mk 3 "blue" "blue" (-1) true false]
  /\ controlValue (Choices.new (text_input "red, green ,blue") defaultOptions)
     = "red,green,blue".
Proof.
  split; [reflexivity|].
  pose proof (@text_input_presets (text_input "red, green ,blue") defaultOptions
                eq_refl) as H.
  cbv zeta in H. destruct H as (I & _ & V). split.
  - rewrite I. vm_compute. reflexivity.
  - rewrite V. vm_compute. reflexivity.
Defined.

(** *** The options and groups of a select *)

Lemma unselected_set_selected (id : Z) (sel : bool) (o : Opt.t) :
  unselected (Reducers.set_selected id sel o) = unselected o.
Proof. unfold Reducers.set_selected. now destruct (_ =? _). Qed.

(** An action on the items changes no option but for its [selected] flag,
    and no group. *)
Lemma options_on_items (a : action) (s : Store.t) :
  on_items a = true ->
  map unselected (Store.getOptions (Store.reduce a s))
  = map unselected (Store.getOptions s)
  /\ getGroups (Store.reduce a s) = getGroups s.
Proof.
  intros A. split; [|now destruct a].
  destruct a as [v l id o|id o|id sel|v l id g d|r| |v id act d]; try discriminate A;
    unfold Store.getOptions, Store.reduce; cbn [Store.state Store.options Store.elems];
    cbn [Reducers.options]; try reflexivity;
    (destruct (o =? -1); cbn [Store.alloc fst Store.elems]; [reflexivity|]);
    rewrite map_map; apply map_ext; intros x; apply unselected_set_selected.
Qed.

Lemma options_on_removals (l : list Item.t) (s : Store.t) :
  map unselected
      (Store.getOptions (fold_left (fun s a => Store.reduce a s) (map remove_action l) s))
  = map unselected (Store.getOptions s)
  /\ getGroups (fold_left (fun s a => Store.reduce a s) (map remove_action l) s)
     = getGroups s.
Proof.
  revert s; induction l as [|it l IH]; intros s; cbn [map fold_left]; [now split|].
  destruct (IH (Store.reduce (remove_action it) s)) as [-> ->].
  now apply options_on_items.
Qed.

Lemma options_after_addItem (value : string) (label : option string)
  (optionId : option Z) (callback : JS.val) (w : widget) :
  map unselected (Store.getOptions (store (after_addItem value label optionId callback w)))
  = map unselected (Store.getOptions (store w))
  /\ getGroups (store (after_addItem value label optionId callback w))
     = getGroups (store w).
Proof.
  rewrite store_after_addItem. cbv zeta.
  destruct (is_select_one _).
  - destruct (options_on_removals
                (filter (fun it => negb (new_id w =? Item.id it))
                   (Store.getItemsFilteredByActive
                      (Store.reduce (add_action w value label optionId) (store w))))
                (Store.reduce (add_action w value label optionId) (store w)))
      as [-> ->].
    now apply options_on_items.
  - now apply options_on_items.
Qed.

Lemma addOption_closed (option : native_option) (parentDisabled : bool)
  (groupId : Z) (w : widget) :
  mounted w = true ->
  addOption option parentDisabled groupId w
  = Normal tt (after_addOption option parentDisabled groupId w).
Proof.
  intros M. unfold addOption, after_addOption, method, bind, gets, preselected.
  cbv zeta. unfold Actions.addOption. rewrite (dispatch_closed _ w M).
  unfold when. destruct (_ && _)%bool; [|reflexivity].
  now rewrite addItem_closed by now apply mounted_after_dispatch.
Qed.

Lemma addOption_adds (option : native_option) (parentDisabled : bool)
  (groupId : Z) (w : widget) :
  adds w (after_addOption option parentDisabled groupId w)
       [option_of (List.length (Store.getOptions (store w))) groupId parentDisabled option]
       []
       (if preselected parentDisabled option
        then [item_of (options w) (List.length (Store.getOptions (store w)))
                      (List.length (Store.getItems (store w))) option]
        else []).
Proof.
  unfold after_addOption. cbv zeta.
  set (a := ADD_OPTION (no_value option) (no_innerHTML option)
                       (JS.length (Store.getOptions (store w)) + 1) groupId
                       (no_disabled option || parentDisabled)).
  set (w1 := after_dispatch a w).
  assert (keeps w w1) as K1 by now apply keeps_after_dispatch.
  assert (store w1 = Store.reduce a (store w)) as S1 by apply store_after_dispatch.
  assert (Store.getOptions (store w1)
          = Store.getOptions (store w)
            ++ [option_of (List.length (Store.getOptions (store w))) groupId
                          parentDisabled option]) as O1 by now rewrite S1.
  assert (getGroups (store w1) = getGroups (store w)) as G1 by now rewrite S1.
  assert (Store.getItems (store w1) = Store.getItems (store w)) as I1
      by now rewrite S1.
  unfold adds. destruct (preselected parentDisabled option).
  - destruct (options_after_addItem (no_value option) (Some (no_innerHTML option))
                (Some (JS.length (Store.getOptions (store w)) + 1)) JS.VUndefined w1)
      as [-> ->].
    split; [eapply keeps_trans; [exact K1|apply keeps_after_addItem]|].
    split; [now rewrite O1, map_app|]. split; [now rewrite G1, app_nil_r|].
    intros T. rewrite store_after_addItem. cbv zeta.
    destruct K1 as (KO & KT & _). rewrite KT, T.
    unfold add_action. rewrite getItems_add, I1, KO. f_equal. f_equal.
    unfold item_of, new_id, JS.length, or_optionId. rewrite I1. f_equal.
    destruct (Z.eqb_spec (Z.of_nat (List.length (Store.getOptions (store w))) + 1) 0);
      [lia|reflexivity].
  - split; [exact K1|]. split; [now rewrite O1, map_app|].
    split; [now rewrite G1, app_nil_r|]. intros _. now rewrite I1, app_nil_r.
Qed.

Lemma adds_options_length (w w' : widget) (os : list Opt.t) (gs : list Group.t)
  (its : list Item.t) :
  adds w w' os gs its ->
  List.length (Store.getOptions (store w'))
  = (List.length (Store.getOptions (store w)) + List.length os)%nat.
Proof.
  intros (_ & O & _). apply (f_equal (@List.length _)) in O.
  now rewrite length_app, !length_map in O.
Qed.

Lemma adds_trans (w1 w2 w3 : widget) (os1 os2 : list Opt.t) (gs1 gs2 : list Group.t)
  (its1 its2 : list Item.t) :
  adds w1 w2 os1 gs1 its1 -> adds w2 w3 os2 gs2 its2 ->
  adds w1 w3 (os1 ++ os2) (gs1 ++ gs2) (its1 ++ its2).
Proof.
  intros (K1 & O1 & G1 & I1) (K2 & O2 & G2 & I2). unfold adds.
  split; [eapply keeps_trans; eassumption|].
  split; [now rewrite O2, O1, app_assoc|].
  split; [now rewrite G2, G1, app_assoc|].
  intros T. destruct K1 as (_ & KT & _).
  rewrite I2, I1, app_assoc; trivial. now rewrite KT.
Qed.

Lemma addOptions_add (parentDisabled : bool) (groupId : Z)
  (nos : list native_option) (w : widget) :
  mounted w = true ->
  exists w',
    forEach (fun option => addOption option parentDisabled groupId) nos w
    = Normal tt w'
    /\ adds w w'
         (options_from (List.length (Store.getOptions (store w))) groupId
                       parentDisabled nos)
         []
         (if is_select_one (el_type (passedElement w)) then []
          else items_from (options w) (List.length (Store.getOptions (store w)))
                          (List.length (Store.getItems (store w))) parentDisabled nos).
Proof.
  revert w; induction nos as [|o nos IH]; intros w M.
  - exists w. split; [reflexivity|]. unfold adds. rewrite !app_nil_r.
    split; [apply keeps_refl|]. split; [reflexivity|]. split; [reflexivity|].
    intros ->. now rewrite app_nil_r.
  - pose proof (addOption_adds o parentDisabled groupId w) as A.
    pose proof A as (K & _ & _ & I).
    pose proof K as (KO & KT & _ & KM & _).
    destruct (IH (after_addOption o parentDisabled groupId w) (KM M)) as (w' & E & A').
    exists w'. cbn [forEach]. unfold bind.
    rewrite (addOption_closed o parentDisabled groupId w M), E.
    split; [reflexivity|].
    pose proof (adds_trans A A') as T.
    rewrite (adds_options_length A), KT, KO in T. cbn [List.length] in T.
    rewrite Nat.add_1_r in T. cbn [options_from items_from app].
    destruct (is_select_one (el_type (passedElement w))) eqn:One.
    + destruct T as (T1 & T2 & T3 & _). unfold adds.
      split; [exact T1|]. split; [exact T2|]. split; [exact T3|].
      intros H. congruence.
    + rewrite (I eq_refl), length_app in T.
      destruct (preselected parentDisabled o); cbn [List.length app] in T;
        rewrite ?Nat.add_1_r, ?Nat.add_0_r in T; exact T.
Qed.

Lemma length_options_from (n : nat) (groupId : Z) (parentDisabled : bool)
  (nos : list native_option) :
  List.length (options_from n groupId parentDisabled nos) = List.length nos.
Proof.
  revert n; induction nos as [|o nos IH]; intros n; simpl; [reflexivity|].
  now rewrite IH.
Qed.

Lemma adds_items_length (w w' : widget) (os : list Opt.t) (gs : list Group.t)
  (its : list Item.t) :
  adds w w' os gs its ->
  is_select_one (el_type (passedElement w)) = false ->
  List.length (Store.getItems (store w'))
  = (List.length (Store.getItems (store w)) + List.length its)%nat.
Proof.
  intros (_ & _ & _ & I) T. now rewrite (I T), length_app.
Qed.

Lemma addGroup_adds (group : native_group) (id : Z) (isFirst : bool) (w : widget) :
  mounted w = true ->
  exists w',
    addGroup group id isFirst w = Normal tt w'
    /\ adds w w'
         (options_from (List.length (Store.getOptions (store w))) id
                       (ng_disabled group) (ng_options group))
         [Group.mk id (ng_label group) true (ng_disabled group)]
         (if is_select_one (el_type (passedElement w)) then []
          else items_from (options w) (List.length (Store.getOptions (store w)))
                          (List.length (Store.getItems (store w)))
                          (ng_disabled group) (ng_options group)).
Proof.
  intros M. unfold addGroup, method, bind. cbv zeta. unfold Actions.addGroup.
  set (a := ADD_GROUP (ng_label group) id true (ng_disabled group)).
  rewrite (dispatch_closed a w M).
  assert (keeps w (after_dispatch a w)) as K by now apply keeps_after_dispatch.
  assert (adds w (after_dispatch a w) []
               [Group.mk id (ng_label group) true (ng_disabled group)] []) as A.
  { unfold adds. rewrite store_after_dispatch, !app_nil_r.
    split; [exact K|]. split; [reflexivity|]. split; [reflexivity|].
    intros _. reflexivity. }
  pose proof K as (KO & KT & _ & KM & _).
  destruct (addOptions_add (ng_disabled group) id (ng_options group)
              (after_dispatch a w) (KM M)) as (w' & E & A').
  exists w'. rewrite E. split; [reflexivity|].
  pose proof (adds_trans A A') as T. cbn [app] in T.
  rewrite KT, KO, store_after_dispatch in T. exact T.
Qed.

Lemma addGroups_add (groups : list native_group) (index : Z) (w : widget) :
  mounted w = true ->
  exists w',
    forEachIndexed (fun group index => addGroup group index (index =? 0))
                   groups index w
    = Normal tt w'
    /\ adds w w'
         (grouped_from (List.length (Store.getOptions (store w))) index groups)
         (groups_from index groups)
         (if is_select_one (el_type (passedElement w)) then []
          else grouped_items (options w) (List.length (Store.getOptions (store w)))
                             (List.length (Store.getItems (store w))) groups).
Proof.
  revert index w; induction groups as [|g groups IH]; intros index w M.
  - exists w. split; [reflexivity|]. unfold adds. cbn [grouped_from groups_from
      grouped_items]. rewrite !app_nil_r.
    split; [apply keeps_refl|]. split; [reflexivity|]. split; [reflexivity|].
    intros ->. now rewrite app_nil_r.
  - destruct (addGroup_adds g index (index =? 0) w M) as (w1 & E1 & A1).
    pose proof A1 as (K & _). pose proof K as (KO & KT & _ & KM & _).
    destruct (IH (index + 1) w1 (KM M)) as (w' & E & A').
    exists w'. cbn [forEachIndexed]. unfold bind. rewrite E1, E.
    split; [reflexivity|].
    pose proof (adds_trans A1 A') as T.
    rewrite (adds_options_length A1), KT, KO, length_options_from in T.
    cbn [grouped_from groups_from grouped_items app].
    destruct (is_select_one (el_type (passedElement w))) eqn:One; [exact T|].
    rewrite (adds_items_length A1 One) in T. exact T.
Qed.

Lemma groups_from_nil (index : Z) (groups : list native_group) :
  (JS.length groups =? 0) = true -> groups_from index groups = [].
Proof. intros E. now rewrite (length_zero_nil groups E). Qed.

(** The store the constructor leaves on a select. *)
Lemma select_built (element : element) (userOptions : config) :
  is_select (el_type element) = true ->
  map unselected (Store.getOptions (store (Choices.new element userOptions)))
  = built_options element
  /\ getGroups (store (Choices.new element userOptions))
     = groups_from 0 (el_groups element)
  /\ (is_select_one (el_type element) = false ->
      Store.getItems (store (Choices.new element userOptions))
      = built_items userOptions element).
Proof.
  intros S.
  assert (canInit element = true) as C
      by (unfold canInit; now destruct (el_type element)).
  destruct (new_rendered element userOptions C) as (g & l & G & _ & _ & N).
  set (w0 := prepared (fields element userOptions)).
  assert (mounted w0 = true) as M0.
  { unfold w0, prepared, fields; cbn [passedElement]. rewrite S.
    unfold mounted. simpl. now rewrite S. }
  assert (exists w',
             (if negb (JS.length (el_groups element) =? 0)
              then forEachIndexed (fun group index => addGroup group index (index =? 0))
                                  (el_groups element) 0
              else forEach (fun option => addOption option (el_disabled element) (-1))
                           (el_options element)) w0 = Normal tt w'
             /\ adds w0 w' (built_options element) (groups_from 0 (el_groups element))
                     (if is_select_one (el_type element) then []
                      else built_items userOptions element)) as (w' & E & A).
  { unfold built_options, built_items.
    assert (el_type (passedElement w0) = el_type element) as T0
        by (unfold w0, prepared, fields; cbn [passedElement]; now rewrite S).
    assert (options w0 = userOptions) as O0
        by (unfold w0, prepared, fields; cbn [passedElement]; now rewrite S).
    assert (Store.getOptions (store w0) = [] /\ Store.getItems (store w0) = [])
      as [Op0 It0]
        by (unfold w0, prepared, fields; cbn [passedElement]; now rewrite S).
    destruct (negb (JS.length (el_groups element) =? 0)) eqn:Gs.
    - destruct (addGroups_add (el_groups element) 0 w0 M0) as (w' & E & A).
      exists w'. split; [exact E|]. now rewrite T0, O0, Op0, It0 in A.
    - destruct (addOptions_add (el_disabled element) (-1) (el_options element) w0 M0)
        as (w' & E & A).
      exists w'. split; [exact E|]. rewrite T0, O0, Op0, It0 in A.
      rewrite groups_from_nil by now apply negb_false_iff. exact A. }
  assert (generateInput (fields element userOptions)
          = Normal tt (set_itemList [] (set_input (mkInput "" false) w'))) as G'.
  { unfold generateInput, method. unfold bind at 1. unfold gets at 1.
    change (el_type (passedElement (fields element userOptions)))
      with (el_type element).
    rewrite S. unfold bind at 1.
    change ((modify (set_highlightPosition 0) ;;
             modify (set_dropdown (Some [])) ;;
             modify (set_isSearching false) ;;
             (if negb (JS.length (el_groups (passedElement
                                               (fields element userOptions))) =? 0)
              then forEachIndexed (fun group index => addGroup group index (index =? 0))
                     (el_groups (passedElement (fields element userOptions))) 0
              else forEach (fun option =>
                              addOption option
                                (el_disabled (passedElement
                                                (fields element userOptions))) (-1))
                     (el_options (passedElement (fields element userOptions)))))
              (fields element userOptions))
      with ((if negb (JS.length (el_groups element) =? 0)
             then forEachIndexed (fun group index => addGroup group index (index =? 0))
                                 (el_groups element) 0
             else forEach (fun option => addOption option (el_disabled element) (-1))
                          (el_options element))
              (set_isSearching false
                 (set_dropdown (Some [])
                    (set_highlightPosition 0 (fields element userOptions))))).
    replace (set_isSearching false
               (set_dropdown (Some [])
                  (set_highlightPosition 0 (fields element userOptions))))
      with w0
      by (unfold w0, prepared; cbn [fields passedElement]; now rewrite S).
    now rewrite E. }
  rewrite G' in G. injection G as <-. rewrite N.
  change (store (set_log l
                   (rendered
                      (set_store
                         (Store.subscribe Store.Render
                            (store (set_itemList [] (set_input (mkInput "" false) w'))))
                         (set_itemList [] (set_input (mkInput "" false) w'))))))
    with (Store.subscribe Store.Render (store w')).
  change (Store.getOptions (Store.subscribe Store.Render (store w')))
    with (Store.getOptions (store w')).
  change (getGroups (Store.subscribe Store.Render (store w')))
    with (getGroups (store w')).
  change (Store.getItems (Store.subscribe Store.Render (store w')))
    with (Store.getItems (store w')).
  destruct A as (_ & O & Gr & I).
  assert (Store.getOptions (store w0) = [] /\ Store.getItems (store w0) = []
          /\ getGroups (store w0) = [] /\ el_type (passedElement w0) = el_type element)
    as (Op0 & It0 & Gr0 & T0)
      by (unfold w0, prepared, fields; cbn [passedElement]; now rewrite S).
  rewrite Op0 in O. rewrite Gr0 in Gr. rewrite It0, T0 in I.
  split; [exact O|]. split; [exact Gr|].
  intros One. rewrite One in I. now apply I.
Qed.

Lemma ids_options_from (n : nat) (groupId : Z) (parentDisabled : bool)
  (nos : list native_option) :
  map Opt.id (options_from n groupId parentDisabled nos)
  = map Z.of_nat (seq (S n) (List.length nos)).
Proof.
  revert n; induction nos as [|o nos IH]; intros n; simpl; [reflexivity|].
  rewrite IH. f_equal. lia.
Qed.

Lemma ids_grouped_from (n : nat) (index : Z) (groups : list native_group) :
  map Opt.id (grouped_from n index groups)
  = map Z.of_nat (seq (S n) (List.length (grouped_from n index groups))).
Proof.
  revert n index; induction groups as [|g groups IH]; intros n index;
    cbn [grouped_from]; [reflexivity|].
  rewrite map_app, length_app, seq_app, map_app, ids_options_from, IH,
    length_options_from.
  reflexivity.
Qed.

Lemma ids_built_options (element : element) :
  map Opt.id (built_options element)
  = ids_upto (List.length (built_options element)).
Proof.
  unfold built_options, ids_upto. destruct (negb _).
  - apply ids_grouped_from.
  - now rewrite ids_options_from, length_options_from.
Qed.

(** X11.  On a select the constructor numbers the options 1, 2, ... in
    document order, through the groups when the select has groups and
    through its own options otherwise.  Each option carries the native
    option's value and inner HTML, the index of its group (counted from 0)
    or -1, and is disabled when the native option or its parent is; all are
    active.  The groups are numbered from 0 and active. *)
Theorem select_options_numbered (element : element) (userOptions : config) :
  is_select (el_type element) = true ->
  map unselected (Store.getOptions (store (Choices.new element userOptions)))
  = (if negb (JS.length (el_groups element) =? 0)
     then grouped_from 0 0 (el_groups element)
     else options_from 0 (-1) (el_disabled element) (el_options element))
  /\ map Opt.id (Store.getOptions (store (Choices.new element userOptions)))
     = ids_upto (List.length (Store.getOptions (store (Choices.new element userOptions))))
  /\ Store.getOptionsFilteredByActive (store (Choices.new element userOptions))
     = Store.getOptions (store (Choices.new element userOptions))
  /\ Store.getGroupsFilteredByActive (store (Choices.new element userOptions))
     = groups_from 0 (el_groups element).
Proof.
  intros S. destruct (select_built element userOptions S) as (O & G & _).
  split; [exact O|]. split; [|split].
  - rewrite <- (length_map unselected), O, <- ids_built_options, <- O, map_map.
    reflexivity.
  - unfold Store.getOptionsFilteredByActive.
    assert (Forall (fun o => Opt.active o = true) (built_options element)) as F.
    { assert (forall n g d nos,
                 Forall (fun o => Opt.active o = true) (options_from n g d nos)) as Fo.
      { intros n g d nos. revert n. induction nos as [|o os IHo]; intros n;
          cbn [options_from]; constructor; [reflexivity|apply IHo]. }
      assert (forall gs n index,
                 Forall (fun o => Opt.active o = true) (grouped_from n index gs)) as Fg.
      { induction gs as [|g gs IH]; intros n index; cbn [grouped_from];
          [constructor|].
        apply Forall_app. split; [apply Fo|apply IH]. }
      unfold built_options. destruct (negb _); [apply Fg|apply Fo]. }
    rewrite <- O in F. rewrite Forall_map in F.
    apply forallb_filter_id. apply forallb_forall. intros o H.
    rewrite Forall_forall in F. exact (F o H).
  - unfold Store.getGroupsFilteredByActive. fold (getGroups (store (Choices.new element userOptions))).
    rewrite G.
    assert (forall gs index,
               filter Group.active (groups_from index gs) = groups_from index gs) as Fg.
    { induction gs as [|g gs IH]; intros index; cbn [groups_from filter];
        [reflexivity|].
      cbn [Group.active]. now rewrite IH. }
    apply Fg.
Qed.

Lemma select_options_numbered_witness :
  is_select (el_type grouped_select) = true
  /\ Store.getOptions (store (Choices.new grouped_select defaultOptions))
     = [Opt.mk 1 "r" "Red" 0 false true true;
        Opt.mk 2 "o" "Orange" 0 true false true;
        Opt.mk 3 "b" "Blue" 1 true false true]
  /\ map unselected (Store.getOptions (store (Choices.new grouped_select defaultOptions)))
     = grouped_from 0 0 (el_groups grouped_select)
  /\ Store.getGroupsFilteredByActive (store (Choices.new grouped_select defaultOptions))
     = [Group.mk 0 "Warm" true false; Group.mk 1 "Cold" true true].
Proof.
  split; [reflexivity|]. split; [vm_compute; reflexivity|].
  destruct (@select_options_numbered grouped_select defaultOptions eq_refl)
    as (O & _ & _ & G).
  split; [exact O|]. rewrite G. reflexivity.
Defined.

Lemma items_from_active (cfg : config) (n m : nat) (parentDisabled : bool)
  (nos : list native_option) :
  filter Item.active (items_from cfg n m parentDisabled nos)
  = items_from cfg n m parentDisabled nos.
Proof.
  revert n m; induction nos as [|o nos IH]; intros n m; cbn [items_from];
    [reflexivity|].
  destruct (preselected parentDisabled o); [|apply IH].
  cbn [filter item_of Item.active]. now rewrite IH.
Qed.

Lemma built_items_active (cfg : config) (element : element) :
  filter Item.active (built_items cfg element) = built_items cfg element.
Proof.
  assert (forall gs n m,
             filter Item.active (grouped_items cfg n m gs) = grouped_items cfg n m gs)
    as Fg.
  { induction gs as [|g gs IH]; intros n m; cbn [grouped_items]; [reflexivity|].
    now rewrite filter_app, items_from_active, IH. }
  unfold built_items. destruct (negb _); [apply Fg|apply items_from_active].
Qed.

(** X12.  On a multiple select the constructor makes one item of every
    native option that is selected and neither disabled nor in a disabled
    parent, in document order: the items 1, 2, ..., each pointing at its
    option by [optionId], holding the option's trimmed value and labelled by
    its inner HTML (by the trimmed value when that is empty); all are
    active.  A selected option that is disabled yields no item. *)
Theorem multiple_select_items (element : element) (userOptions : config) :
  el_type element = SelectMultiple ->
  Store.getItems (store (Choices.new element userOptions))
  = (if negb (JS.length (el_groups element) =? 0)
     then grouped_items userOptions 0 0 (el_groups element)
     else items_from userOptions 0 0 (el_disabled element) (el_options element))
  /\ activeItems (Choices.new element userOptions)
     = Store.getItems (store (Choices.new element userOptions)).
Proof.
  intros T.
  assert (is_select (el_type element) = true) as S by now rewrite T.
  destruct (select_built element userOptions S) as (_ & _ & I).
  assert (Store.getItems (store (Choices.new element userOptions))
          = built_items userOptions element) as Items
      by (apply I; now rewrite T).
  split; [exact Items|].
  unfold activeItems, Store.getItemsFilteredByActive. rewrite Items.
  apply built_items_active.
Qed.

Lemma multiple_select_items_witness :
  el_type grouped_select = SelectMultiple
  /\ Store.getItems (store (Choices.new grouped_select defaultOptions))
     = [Item.mk 1 "r" "Red" 1 true false].
Proof.
  split; [reflexivity|].
  destruct (@multiple_select_items grouped_select defaultOptions eq_refl) as (I & _).
  rewrite I. vm_compute. reflexivity.
Defined.

(** ** What the dropdown lists *)

Lemma renderOptions_spec (type : input_type) (options : list Opt.t)
  (fragment : list node) :
  renderOptions type options fragment
  = fragment ++ map (fun o => OptionEl (option_template o))
                    (filter (offered type) options).
Proof.
  unfold renderOptions, offered.
  revert fragment; induction options as [|o options IH]; intros fragment;
    cbn [fold_left filter map]; [now rewrite app_nil_r|].
  rewrite IH. destruct (is_select_one type); cbn [orb].
  - now rewrite <- app_assoc.
  - destruct (negb (Opt.selected o)); [now rewrite <- app_assoc|reflexivity].
Qed.

Lemma renderGroups_spec (groups : list Group.t) (options : list Opt.t)
  (fragment : list node) :
  renderGroups groups options fragment
  = fragment
    ++ flat_map (fun g => if JS.length (filter (of_group g) options) >=? 1
                          then [GroupEl g (map option_template
                                               (filter (of_group g) options))]
                          else []) groups.
Proof.
  unfold renderGroups, of_group.
  revert fragment; induction groups as [|g groups IH]; intros fragment;
    cbn [fold_left flat_map]; [now rewrite app_nil_r|].
  rewrite IH. destruct (_ >=? 1); [now rewrite <- app_assoc|reflexivity].
Qed.

Lemma listed_renderOptions (type : input_type) (options : list Opt.t) :
  listed (renderOptions type options []) = filter (offered type) options.
Proof.
  rewrite renderOptions_spec. cbn [app]. unfold listed, option_els.
  generalize (filter (offered type) options) as os.
  induction os as [|o os IH]; [reflexivity|].
  cbn [map flat_map app]. now rewrite IH.
Qed.

Lemma listed_renderGroups (groups : list Group.t) (options : list Opt.t) :
  listed (renderGroups groups options [])
  = flat_map (fun g => filter (of_group g) options) groups.
Proof.
  rewrite renderGroups_spec. cbn [app]. unfold listed.
  induction groups as [|g groups IH]; [reflexivity|].
  cbn [flat_map]. rewrite option_els_app, map_app, IH. f_equal.
  destruct (filter (of_group g) options) as [|o os]; [reflexivity|].
  replace (JS.length (o :: os) >=? 1) with true.
  - cbn [option_els flat_map]. rewrite app_nil_r, map_map. apply map_id.
  - symmetry. unfold JS.length. cbn [List.length].
    apply Z.geb_le. lia.
Qed.

Lemma listed_update (f : nat -> option_el -> option_el) (d : list node) (i : nat) :
  (forall j e, oe_data (f j e) = oe_data e) ->
  listed (update_nodes f d i) = listed d.
Proof.
  intros F. unfold listed. rewrite option_els_update.
  generalize (option_els d) as es. intros es. revert i.
  induction es as [|e es IH]; intros i; cbn [update_els map]; [reflexivity|].
  now rewrite F, IH.
Qed.

Lemma listed_restored (position : Z) (d : list node) :
  listed (restored position d) = listed d.
Proof.
  unfold restored. destruct (querySelectable d); [reflexivity|].
  unfold highlight, unhighlight. rewrite !listed_update; trivial.
  - intros j e. now destruct (existsb _ _).
  - intros j e. now destruct (Nat.eqb _ _).
Qed.

Lemma listed_rendered (w : widget) :
  options_dirty w = true ->
  is_select (el_type (passedElement w)) = true ->
  listed (children (rendered w)) = listed (fragment_of w).
Proof.
  intros D S. rewrite (dropdown_rendered w D S).
  destruct (JS.length (fragment_of w) =? 0) eqn:E.
  - rewrite (length_zero_nil _ E). unfold notice_of. now destruct (isSearching w).
  - apply listed_restored.
Qed.

(** X13.  When the dropdown is rebuilt without groups (no active group, or
    during a search), it lists the active options in the store's order: all
    of them on a single select, and on a multiple select those that are not
    chosen, so that a chosen option is never offered again. *)
Theorem flat_dropdown_lists_unchosen (w : widget) :
  mounted w = true ->
  options_dirty w = true ->
  is_select (el_type (passedElement w)) = true ->
  ((JS.length (Store.getGroupsFilteredByActive (store w)) >=? 1)
   && negb (isSearching w))%bool = false ->
  exists w',
    render w = Normal tt w'
    /\ listed (children w')
       = filter (fun o => (is_select_one (el_type (passedElement w))
                           || negb (Opt.selected o))%bool)
                (Store.getOptionsFilteredByActive (store w)).
Proof.
  intros M D S F. exists (rendered w). split; [now apply render_rendered|].
  rewrite (listed_rendered w D S). unfold fragment_of, optionListFragment.
  rewrite F.
  destruct (JS.length (Store.getOptionsFilteredByActive (store w)) >=? 1) eqn:L;
    [apply listed_renderOptions|].
  destruct (Store.getOptionsFilteredByActive (store w)) as [|o os]; [reflexivity|].
  unfold JS.length in L. cbn [List.length] in L.
  rewrite Z.geb_leb in L. apply Z.leb_gt in L. lia.
Qed.

Lemma flat_dropdown_lists_unchosen_witness :
  mounted chosen_unrendered = true
  /\ options_dirty chosen_unrendered = true
  /\ map Opt.value (Store.getOptionsFilteredByActive (store chosen_unrendered))
     = ["a"; "b"; "c"]
  /\ exists w',
      render chosen_unrendered = Normal tt w'
      /\ map Opt.value (listed (children w')) = ["a"; "b"].
Proof.
  assert (mounted chosen_unrendered = true) as M by (vm_compute; reflexivity).
  assert (options_dirty chosen_unrendered = true) as D by (vm_compute; reflexivity).
  split; [exact M|]. split; [exact D|]. split; [vm_compute; reflexivity|].
  destruct (flat_dropdown_lists_unchosen chosen_unrendered M D eq_refl eq_refl)
    as (w' & E & L).
  exists w'. split; [exact E|]. rewrite L. vm_compute. reflexivity.
Defined.

(** X14.  When the dropdown is rebuilt with groups (an active group exists
    and no search is going on), it lists, group after group in the store's
    order, the active options carrying the group's id, the chosen ones
    included; an active option of no active group is not listed. *)
Theorem grouped_dropdown_lists_by_group (w : widget) :
  mounted w = true ->
  options_dirty w = true ->
  is_select (el_type (passedElement w)) = true ->
  ((JS.length (Store.getGroupsFilteredByActive (store w)) >=? 1)
   && negb (isSearching w))%bool = true ->
  exists w',
    render w = Normal tt w'
    /\ listed (children w')
       = flat_map (fun g => filter (fun o => Opt.groupId o =? Group.id g)
                                   (Store.getOptionsFilteredByActive (store w)))
                  (Store.getGroupsFilteredByActive (store w)).
Proof.
  intros M D S F. exists (rendered w). split; [now apply render_rendered|].
  rewrite (listed_rendered w D S). unfold fragment_of, optionListFragment.
  rewrite F. apply listed_renderGroups.
Qed.

Lemma grouped_dropdown_lists_by_group_witness :
  mounted (before_first_render grouped_select defaultOptions) = true
  /\ options_dirty (before_first_render grouped_select defaultOptions) = true
  /\ map Opt.selected
         (Store.getOptionsFilteredByActive
            (store (before_first_render grouped_select defaultOptions)))
     = [true; false; false]
  /\ exists w',
      render (before_first_render grouped_select defaultOptions) = Normal tt w'
      /\ map Opt.value (listed (children w')) = ["r"; "o"; "b"].
Proof.
  assert (mounted (before_first_render grouped_select defaultOptions) = true) as M
      by (vm_compute; reflexivity).
  assert (options_dirty (before_first_render grouped_select defaultOptions) = true)
    as D by (vm_compute; reflexivity).
  split; [exact M|]. split; [exact D|]. split; [vm_compute; reflexivity|].
  destruct (grouped_dropdown_lists_by_group
              (before_first_render grouped_select defaultOptions) M D eq_refl eq_refl)
    as (w' & E & L).
  exists w'. split; [exact E|]. rewrite L. vm_compute. reflexivity.
Defined.

(** ** Highlighting a given option *)

Lemma indexOf_from_spec (arr : list nat) (x : nat) (i : Z) :
  0 <= i ->
  (In x arr ->
   i <= JS.indexOf_from arr x i < i + Z.of_nat (List.length arr)
   /\ nth_error arr (Z.to_nat (JS.indexOf_from arr x i - i)) = Some x)
  /\ (~ In x arr -> JS.indexOf_from arr x i = -1).
Proof.
  revert i; induction arr as [|y arr IH]; intros i I; cbn [JS.indexOf_from].
  - split; [intros []|reflexivity].
  - destruct (Nat.eqb_spec y x) as [->|N].
    + split; [|intros H; exfalso; apply H; now left].
      intros _. cbn [List.length]. rewrite Z.sub_diag. split; [lia|reflexivity].
    + destruct (IH (i + 1)) as [Y Nn]; [lia|]. split.
      * intros [E|H]; [contradiction|]. destruct (Y H) as [B E].
        cbn [List.length]. split; [lia|].
        replace (Z.to_nat (JS.indexOf_from arr x (i + 1) - i))
          with (S (Z.to_nat (JS.indexOf_from arr x (i + 1) - (i + 1)))) by lia.
        exact E.
      * intros H. apply Nn. intros H'. apply H. now right.
Qed.

Lemma indexOf_spec (arr : list nat) (x : nat) :
  (In x arr ->
   0 <= JS.indexOf arr x < Z.of_nat (List.length arr)
   /\ nth_error arr (Z.to_nat (JS.indexOf arr x)) = Some x)
  /\ (~ In x arr -> JS.indexOf arr x = -1).
Proof.
  unfold JS.indexOf. destruct (indexOf_from_spec arr x (i := 0)) as [Y N]; [lia|].
  split; [|exact N]. intros H. destruct (Y H) as [B E].
  rewrite Z.sub_0_r in E. split; [lia|exact E].
Qed.

(** What [highlightOption(el)] leaves when a selectable option exists. *)
Lemma highlightOption_given (el : nat) (w : widget) (d : list node) :
  dropdown w = Some d ->
  highlightOption (Some el) w
  = Normal tt
      (if JS.length (querySelectable d) =? 0 then w
       else set_highlightPosition (JS.indexOf (querySelectable d) el)
              (set_dropdown
                 (Some (highlight el (unhighlight (queryHighlighted d) d))) w)).
Proof.
  intros D. destruct w as [cfg st cur prev e hp pre srch dd il inp lg lp].
  simpl in D; subst dd.
  unfold highlightOption, the_dropdown. unfold_m. cbn.
  now destruct (JS.length (querySelectable d) =? 0).
Qed.

Lemma length_not_zero {A : Type} (l : list A) : l <> [] -> (JS.length l =? 0) = false.
Proof.
  intros N. destruct l; [contradiction|]. apply Z.eqb_neq.
  unfold JS.length. cbn [List.length]. lia.
Qed.

(** X15.  [highlightOption(el)] for an option element of the dropdown makes
    it the only highlighted element, whatever was highlighted before, and
    records its index among the selectable options as the highlight
    position, which is -1 for a disabled option.  When the dropdown has no
    selectable option the call changes nothing, not even for an element of
    the dropdown. *)
Theorem highlightOption_highlights_given (w : widget) (d : list node) (el : nat) :
  dropdown w = Some d ->
  (el < List.length (option_els d))%nat ->
  (querySelectable d = [] -> highlightOption (Some el) w = Normal tt w)
  /\ (querySelectable d <> [] ->
      exists w',
        highlightOption (Some el) w = Normal tt w'
        /\ queryHighlighted (children w') = [el]
        /\ plain (children w') = plain d
        /\ store w' = store w
        /\ (In el (querySelectable d) ->
            JS.index (querySelectable d) (highlightPosition w') = Some el)
        /\ (~ In el (querySelectable d) -> highlightPosition w' = -1)).
Proof.
  intros D B. rewrite (highlightOption_given el w D). split.
  - intros ->. reflexivity.
  - intros N. rewrite (length_not_zero N). eexists. split; [reflexivity|].
    cbn [children dropdown set_highlightPosition set_dropdown store highlightPosition].
    split; [now apply highlight_only|]. split; [apply highlight_plain|].
    split; [reflexivity|].
    destruct (indexOf_spec (querySelectable d) el) as [Y Nn]. split; [|exact Nn].
    intros H. destruct (Y H) as [[B0 B1] E]. unfold JS.index.
    destruct (Z.ltb_spec (JS.indexOf (querySelectable d) el) 0); [lia|exact E].
Qed.

Lemma highlightOption_highlights_given_witness :
  dropdown searchable
  = Some [OptionEl (mkOptionEl (Opt.mk 1 "a" "A" (-1) false false true) true);
          OptionEl (mkOptionEl (Opt.mk 2 "b" "B" (-1) true false true) false);
          OptionEl (mkOptionEl (Opt.mk 3 "c" "C" (-1) false false true) false)]
  /\ exists w',
      highlightOption (Some 2%nat) searchable = Normal tt w'
      /\ queryHighlighted (children w') = [2%nat]
      /\ highlightPosition w' = 1.
Proof.
  assert (dropdown searchable
          = Some [OptionEl (mkOptionEl (Opt.mk 1 "a" "A" (-1) false false true) true);
                  OptionEl (mkOptionEl (Opt.mk 2 "b" "B" (-1) true false true) false);
                  OptionEl (mkOptionEl (Opt.mk 3 "c" "C" (-1) false false true) false)])
    as D by (vm_compute; reflexivity).
  split; [exact D|].
  destruct (@highlightOption_highlights_given searchable _ 2%nat D) as [_ H];
    [simpl; lia|].
  destruct H as (w' & E & Q & _); [discriminate|].
  exists w'. split; [exact E|]. split; [exact Q|].
  assert (Normal tt w' = highlightOption (Some 2%nat) searchable) as E'
      by (symmetry; exact E).
  vm_compute in E'. injection E' as ->. reflexivity.
Defined.

(** X16.  The highlight set by [highlightOption(el)] on a selectable option
    survives the next rebuild of the dropdown: when a dispatch makes
    [render] rebuild the list and the selectable options stand where they
    stood, the rebuilt list has that same option, and no other, highlighted. *)
Theorem highlight_survives_rebuild (w : widget) (d : list node) (el : nat)
  (a : action) :
  dropdown w = Some d ->
  In el (querySelectable d) ->
  Store.listeners (store w) = [Store.Render] ->
  is_select (el_type (passedElement w)) = true ->
  options_dirty (unrendered a w) = true ->
  querySelectable (fragment_of (unrendered a w)) = querySelectable d ->
  exists w1 w2,
    highlightOption (Some el) w = Normal tt w1
    /\ queryHighlighted (children w1) = [el]
    /\ dispatch a w1 = Normal tt w2
    /\ queryHighlighted (children w2) = [el].
Proof.
  intros D H L S Dirty Same.
  assert (querySelectable d <> []) as N by (intros E; rewrite E in H; destruct H).
  rewrite (highlightOption_given el w D), (length_not_zero N).
  set (w1 := set_highlightPosition (JS.indexOf (querySelectable d) el)
               (set_dropdown (Some (highlight el (unhighlight (queryHighlighted d) d)))
                             w)).
  assert (mounted w1 = true) as M1 by (unfold mounted; simpl; apply orb_true_r).
  exists w1, (after_dispatch a w1). split; [reflexivity|].
  split; [apply highlight_only; now apply selectable_in_range|].
  split; [now apply dispatch_closed|].
  unfold after_dispatch. change (Store.listeners (store w1)) with (Store.listeners (store w)).
  rewrite L. cbn [fold_left].
  assert (options_dirty (unrendered a w1) = true) as Dirty1 by exact Dirty.
  assert (is_select (el_type (passedElement (unrendered a w1))) = true) as S1
      by exact S.
  rewrite (dropdown_rendered _ Dirty1 S1).
  change (fragment_of (unrendered a w1)) with (fragment_of (unrendered a w)).
  change (highlightPosition (unrendered a w1))
    with (JS.indexOf (querySelectable d) el).
  assert (fragment_of (unrendered a w) <> []) as F
      by (intros E; rewrite E in Same;
          change (querySelectable []) with (@nil nat) in Same;
          symmetry in Same; contradiction).
  rewrite (length_not_zero F).
  rewrite highlighted_restored by apply fragment_unhighlighted.
  rewrite Same. unfold highlighted_from.
  destruct (querySelectable d) as [|q qs] eqn:Q; [contradiction|].
  destruct (indexOf_spec (q :: qs) el) as [Y _].
  destruct (Y H) as [B E].
  assert (0 < List.length (q :: qs))%nat as Pos by (simpl; lia).
  destruct (clamp_cases (JS.indexOf (q :: qs) el) Pos) as [C _].
  rewrite (C B). f_equal. now apply nth_error_nth.
Qed.

Lemma highlight_survives_rebuild_witness :
  In 2%nat (querySelectable (children searchable))
  /\ Store.listeners (store searchable) = [Store.Render]
  /\ options_dirty (unrendered ACTIVATE_OPTIONS searchable) = true
  /\ exists w1 w2,
      highlightOption (Some 2%nat) searchable = Normal tt w1
      /\ dispatch ACTIVATE_OPTIONS w1 = Normal tt w2
      /\ queryHighlighted (children w2) = [2%nat].
Proof.
  assert (dropdown searchable = Some (children searchable)) as D
      by (vm_compute; reflexivity).
  assert (In 2%nat (querySelectable (children searchable))) as H
      by (vm_compute; auto).
  assert (options_dirty (unrendered ACTIVATE_OPTIONS searchable) = true) as Dirty
      by (vm_compute; reflexivity).
  assert (querySelectable (fragment_of (unrendered ACTIVATE_OPTIONS searchable))
          = querySelectable (children searchable)) as Same
      by (vm_compute; reflexivity).
  split; [exact H|]. split; [vm_compute; reflexivity|]. split; [exact Dirty|].
  destruct (@highlight_survives_rebuild searchable (children searchable) 2%nat
              ACTIVATE_OPTIONS D H eq_refl eq_refl Dirty Same)
    as (w1 & w2 & E1 & _ & E2 & Q).
  exists w1, w2. split; [exact E1|]. split; [exact E2|exact Q].
Defined.

(** ** Removing all but one *)

(** X17.  [removeActiveItems(excludedId)] removes every active item whose id
    is not the excluded one and dispatches one remove action for each of
    them, in order; with an id that no active item carries, no item stays
    active. *)
Theorem removeActiveItems_spares_excluded (w : widget) (excludedId : Z) :
  mounted w = true ->
  ids_in_order w = true ->
  exists w',
    removeActiveItems excludedId w = Normal tt w'
    /\ activeItems w'
       = filter (fun it => excludedId =? Item.id it) (activeItems w)
    /\ Store.dispatched (store w')
       = Store.dispatched (store w)
         ++ map remove_action
                (filter (fun it => negb (excludedId =? Item.id it)) (activeItems w)).
Proof.
  intros M I. destruct (removeActiveItems_closed excludedId w M) as [E _].
  exists (after_removeActiveItems excludedId w). split; [exact E|].
  unfold activeItems. rewrite store_after_removeActiveItems. split.
  - unfold Store.getItemsFilteredByActive at 1.
    rewrite getItems_removals, active_removals.
    unfold Store.getItemsFilteredByActive.
    rewrite (@survives_outside _ (Store.getItems (store w))
               (fun it => (Item.active it && negb (excludedId =? Item.id it))%bool)).
    + rewrite filter_filter. apply filter_ext. intros it.
      destruct (Item.active it), (excludedId =? Item.id it); reflexivity.
    + now apply ids_distinct.
    + now rewrite filter_filter.
  - now rewrite reductions_dispatched.
Qed.

Lemma removeActiveItems_spares_excluded_witness :
  mounted colours = true
  /\ ids_in_order colours = true
  /\ exists w',
      removeActiveItems 2 colours = Normal tt w'
      /\ map Item.value (activeItems w') = ["green"].
Proof.
  assert (mounted colours = true) as M by (vm_compute; reflexivity).
  assert (ids_in_order colours = true) as I by (vm_compute; reflexivity).
  split; [exact M|]. split; [exact I|].
  destruct (removeActiveItems_spares_excluded colours 2 M I) as (w' & E & A & _).
  exists w'. split; [exact E|]. rewrite A. vm_compute. reflexivity.
Defined.

(** ** The search, when the input is empty *)

Section Idle.

Variable fuse_search : list Opt.t -> string -> list Opt.t.

Lemma later_idle (c : nat) (w : widget) :
  has_value w = false ->
  exists w',
    later fuse_search c w = Normal tt w'
    /\ has_value w' = false
    /\ store w' = store w /\ isSearching w' = isSearching w
    /\ dropdown w' = dropdown w
    /\ pending (loop w') = pending (loop w).
Proof.
  intros H. unfold later, handleFilter_body, set_cell. unfold_m.
  cbn [input set_loop]. unfold has_value in H. rewrite H.
  eexists. split; [reflexivity|]. now repeat split.
Qed.

Lemma run_due_idle (t fuel : nat) (w : widget) :
  has_value w = false ->
  exists w',
    run_due fuse_search fuel t w = Normal tt w'
    /\ has_value w' = false
    /\ store w' = store w /\ isSearching w' = isSearching w
    /\ dropdown w' = dropdown w.
Proof.
  revert w; induction fuel as [|fuel IH]; intros w H.
  - exists w. now repeat split.
  - cbn [run_due]. unfold bind at 1. unfold gets at 1.
    destruct (earliest t (pending (loop w))) as [tm|]; [|exists w; now repeat split].
    unfold clearTimeout. unfold bind at 1. unfold modify at 1.
    unfold bind at 1. unfold modify at 1.
    set (w1 := set_loop _ (set_loop _ w)).
    assert (has_value w1 = false) as H1 by exact H.
    destruct (later_idle (cell tm) w1 H1) as (w2 & E2 & H2 & S2 & I2 & D2 & _).
    destruct (IH w2 H2) as (w' & E & H' & S' & I' & D').
    exists w'. unfold bind. rewrite E2, E. split; [reflexivity|].
    split; [exact H'|]. split; [now rewrite S', S2|].
    split; [now rewrite I', I2|now rewrite D', D2].
Qed.

(** X18.  A search whose timer fires when the input has been emptied does
    nothing: however many timers are pending and whatever the search would
    return, letting time pass on a widget whose input is empty dispatches no
    action, leaves the search mode and the dropdown as they are, and ends
    normally. *)
Theorem elapse_with_empty_input_is_idle (ms : nat) (w : widget) :
  has_value w = false ->
  exists w',
    elapse fuse_search ms w = Normal tt w'
    /\ store w' = store w
    /\ isSearching w' = isSearching w
    /\ dropdown w' = dropdown w.
Proof.
  intros H. unfold elapse. unfold bind at 1. unfold gets at 1.
  destruct (run_due_idle (clock (loop w) + ms)
              (List.length (pending (loop w))) w H) as (w' & E & _ & S & I & D).
  unfold bind. rewrite E. eexists. split; [reflexivity|]. now repeat split.
Qed.

End Idle.

Lemma elapse_with_empty_input_is_idle_witness :
  has_value typed_then_cleared = false
  /\ map due (pending (loop typed_then_cleared)) = [500%nat]
  /\ exists w',
      elapse every_option 500 typed_then_cleared = Normal tt w'
      /\ filters_dispatched w' = 0%nat.
Proof.
  assert (has_value typed_then_cleared = false) as H by (vm_compute; reflexivity).
  split; [exact H|]. split; [vm_compute; reflexivity|].
  destruct (@elapse_with_empty_input_is_idle every_option 500 typed_then_cleared H)
    as (w' & E & S & _).
  exists w'. split; [exact E|]. unfold filters_dispatched. rewrite S.
  vm_compute. reflexivity.
Defined.

(** ** Emptying the search input *)

(** X19.  A key-up in the focused search input of a select, when the input is
    empty and some option is inactive (a search had filtered the list),
    ends the search mode and dispatches one activate action: every option
    that is not disabled is active again.  No timer is set.  When every
    option is active already, the key-up changes nothing. *)
Theorem keyup_on_empty_input_resets (w : widget) :
  mounted w = true ->
  has_dropdown w = true ->
  allowSearch (options w) = true ->
  input w = mkInput "" true ->
  (existsb (fun o => negb (Opt.active o)) (Store.getOptions (store w)) = true ->
   exists w',
     onKeyUp (mkKeyEvent true) w = Normal tt w'
     /\ isSearching w' = false
     /\ Store.getOptions (store w') = map activated (Store.getOptions (store w))
     /\ Store.dispatched (store w') = Store.dispatched (store w) ++ [ACTIVATE_OPTIONS]
     /\ loop w' = loop w)
  /\ (existsb (fun o => negb (Opt.active o)) (Store.getOptions (store w)) = false ->
      onKeyUp (mkKeyEvent true) w = Normal tt w).
Proof.
  intros M D A I.
  assert (forall w0, mounted w0 = true ->
                     mounted (set_isSearching false w0) = true) as MS by trivial.
  assert (onKeyUp (mkKeyEvent true) w
          = method (if existsb (fun o => negb (Opt.active o))
                               (Store.getOptions (store w))
                    then modify (set_isSearching false) ;;
                         dispatch Actions.activateOptions
                    else ret tt) w) as ->.
  { unfold onKeyUp, method. unfold bind at 1. unfold when at 1.
    cbn [target_is_input negb].
    unfold ret at 1. unfold bind at 1. unfold gets at 1. unfold bind at 1.
    unfold gets at 1. unfold has_dropdown in D.
    destruct (dropdown w) as [d|] eqn:Dd; [|discriminate D].
    rewrite A. cbn [andb]. unfold when at 1. unfold bind at 1. unfold gets at 1.
    rewrite I. cbn [in_focused in_value]. unfold when at 1.
    unfold bind at 1. unfold gets at 1. reflexivity. }
  unfold method.
  split; intros U; rewrite U; [|reflexivity].
  unfold bind, modify, Actions.activateOptions.
  rewrite (dispatch_closed ACTIVATE_OPTIONS _ (MS w M)).
  eexists. split; [reflexivity|].
  destruct (after_dispatch_view ACTIVATE_OPTIONS (set_isSearching false w))
    as (S & _ & _ & L & _ & Sr & _).
  split; [exact Sr|]. rewrite S. split; [reflexivity|]. split; [reflexivity|exact L].
Qed.

Lemma keyup_on_empty_input_resets_witness :
  mounted filtered = true
  /\ isSearching filtered = true
  /\ map Opt.active (Store.getOptions (store filtered)) = [true; false; false]
  /\ exists w',
      onKeyUp (mkKeyEvent true) filtered = Normal tt w'
      /\ isSearching w' = false
      /\ map Opt.active (Store.getOptions (store w')) = [true; true; false].
Proof.
  assert (mounted filtered = true) as M by (vm_compute; reflexivity).
  split; [exact M|]. split; [vm_compute; reflexivity|].
  split; [vm_compute; reflexivity|].
  destruct (@keyup_on_empty_input_resets filtered M) as [H _];
    try (vm_compute; reflexivity).
  destruct H as (w' & E & S & O & _); [vm_compute; reflexivity|].
  exists w'. split; [exact E|]. split; [exact S|]. rewrite O.
  vm_compute. reflexivity.
Defined.

(** ** The classes on the container and on the dropdown *)

Lemma contains_add (c : string) (l : list string) :
  ClassList.contains c (ClassList.add c l) = true.
Proof.
  unfold ClassList.add. destruct (ClassList.contains c l) eqn:E; [exact E|].
  unfold ClassList.contains. rewrite existsb_app. simpl.
  now rewrite String.eqb_refl, orb_true_r.
Qed.

Lemma remove_absent (c : string) (l : list string) :
  ClassList.contains c l = false -> ClassList.remove c l = l.
Proof.
  unfold ClassList.contains, ClassList.remove.
  induction l as [|x l IH]; simpl; [reflexivity|].
  intros E. apply orb_false_iff in E. destruct E as [E1 E2].
  rewrite String.eqb_sym, E1. simpl. now rewrite IH.
Qed.

Lemma remove_app (c : string) (l1 l2 : list string) :
  ClassList.remove c (l1 ++ l2) = ClassList.remove c l1 ++ ClassList.remove c l2.
Proof. apply filter_app. Qed.

Lemma remove_add (c : string) (l : list string) :
  ClassList.contains c l = false -> ClassList.remove c (ClassList.add c l) = l.
Proof.
  intros E. unfold ClassList.add. rewrite E, remove_app, (remove_absent _ _ E).
  unfold ClassList.remove. simpl. rewrite String.eqb_refl. apply app_nil_r.
Qed.

(** Removing a class never brings in another. *)
Lemma contains_remove (a b : string) (l : list string) :
  ClassList.contains a l = false \/ a = b ->
  ClassList.contains a (ClassList.remove b l) = false.
Proof.
  unfold ClassList.contains, ClassList.remove. intros H.
  induction l as [|x l IH]; simpl; [reflexivity|].
  destruct (x =? b)%string eqn:X; simpl.
  - apply IH. destruct H as [H|H]; [|now right]. left.
    simpl in H. now apply orb_false_iff in H.
  - destruct H as [H|H].
    + simpl in H. apply orb_false_iff in H. destruct H as [H1 H2].
      rewrite H1. simpl. apply IH. now left.
    + subst b. rewrite String.eqb_sym, X. simpl. apply IH. now right.
Qed.

Section Classes.

Variable classNames : ClassNames.t.

Lemma toggleDropdown_done (shouldFlip : bool) (c : Chrome.t) :
  exists c', toggleDropdown classNames shouldFlip c = Chrome.Done c'
             /\ (Chrome.dropdown c = None -> c' = c)
             /\ (Chrome.dropdown c = None <-> Chrome.dropdown c' = None).
Proof.
  unfold toggleDropdown, hideDropdown, showDropdown.
  destruct (Chrome.dropdown c) as [dd|] eqn:D.
  - destruct (ClassList.contains _ dd); eexists; (split; [reflexivity|]);
      split; try discriminate; cbn [Chrome.dropdown]; split; discriminate.
  - exists c. now repeat split.
Qed.

Lemma hideDropdown_closes (c : Chrome.t) (dropdown : list string) :
  Chrome.dropdown c = Some dropdown ->
  exists c',
    hideDropdown classNames c = Chrome.Done c'
    /\ closed classNames c'
    /\ Chrome.dropdown c' <> None
    /\ forall x, ClassList.contains x (Chrome.containerOuter c) = false ->
                 ClassList.contains x (Chrome.containerOuter c') = false.
Proof.
  intros D. unfold hideDropdown. rewrite D. eexists. split; [reflexivity|].
  unfold closed, hasActiveDropdown. cbn [Chrome.dropdown Chrome.containerOuter].
  split; [split; [|split]|split].
  - apply contains_remove. now right.
  - destruct (ClassList.contains (ClassNames.flippedState classNames) _);
      [apply contains_remove; left|]; apply contains_remove; now right.
  - destruct (ClassList.contains (ClassNames.flippedState classNames)
                                 (Chrome.containerOuter c)) eqn:F.
    + apply contains_remove. now right.
    + apply contains_remove. now left.
  - discriminate.
  - intros x X.
    destruct (ClassList.contains (ClassNames.flippedState classNames) _);
      [apply contains_remove; left|]; apply contains_remove; now left.
Qed.

(** X20.  [toggleDropdown] on a closed dropdown opens it, marking the
    dropdown active, and a second call closes it again and leaves the class
    lists of the container and of the dropdown exactly as they were,
    whichever way the dropdown was flipped when open. *)
Theorem toggleDropdown_twice_restores (c : Chrome.t) (dropdown : list string)
  (shouldFlip again : bool) :
  Chrome.dropdown c = Some dropdown ->
  closed classNames c ->
  exists c1,
    toggleDropdown classNames shouldFlip c = Chrome.Done c1
    /\ hasActiveDropdown classNames c1 = true
    /\ toggleDropdown classNames again c1 = Chrome.Done c.
Proof.
  intros D (A & O & F). unfold hasActiveDropdown in A. rewrite D in A.
  unfold toggleDropdown at 1. rewrite D, A. unfold showDropdown. rewrite D.
  eexists. split; [reflexivity|].
  unfold hasActiveDropdown, toggleDropdown, hideDropdown.
  cbn [Chrome.dropdown Chrome.containerOuter]. rewrite contains_add.
  split; [reflexivity|]. rewrite (remove_add _ _ A).
  destruct c as [outer dd]. cbn [Chrome.dropdown Chrome.containerOuter] in *.
  subst dd. f_equal. f_equal.
  set (open := ClassNames.openState classNames) in *.
  set (flipped := ClassNames.flippedState classNames) in *.
  assert (ClassList.add open outer = outer ++ [open]) as Ao
      by (unfold ClassList.add; now rewrite O).
  rewrite Ao.
  assert (forall x, ClassList.remove x [x] = []) as Rx
      by (intros x; unfold ClassList.remove; simpl; now rewrite String.eqb_refl).
  destruct shouldFlip.
  - rewrite contains_add. unfold ClassList.add.
    destruct (ClassList.contains flipped (outer ++ [open])) eqn:C.
    + unfold ClassList.contains in C, F. rewrite existsb_app, F in C. simpl in C.
      rewrite orb_false_r in C. apply String.eqb_eq in C. rewrite C in *.
      rewrite remove_app, (remove_absent _ _ O), Rx, app_nil_r.
      now apply remove_absent.
    + assert ((flipped =? open)%string = false) as N.
      { unfold ClassList.contains in C. rewrite existsb_app in C.
        apply orb_false_iff in C. destruct C as [_ C]. simpl in C.
        now rewrite orb_false_r in C. }
      assert (ClassList.remove open [flipped] = [flipped]) as Ro
          by (unfold ClassList.remove; simpl; now rewrite N).
      rewrite (remove_app open), (remove_app open), (remove_absent _ _ O), Rx, Ro.
      rewrite !remove_app, (remove_absent _ _ F), Rx. cbn [ClassList.remove filter].
      now rewrite !app_nil_r.
  - rewrite (@contains_remove flipped flipped (outer ++ [open])) by now right.
    rewrite !remove_app, (remove_absent _ _ F), (remove_absent _ _ O).
    unfold ClassList.remove. simpl.
    destruct (open =? flipped)%string; simpl; rewrite ?String.eqb_refl; simpl;
      now rewrite ?app_nil_r.
Qed.

End Classes.

Lemma toggleDropdown_twice_restores_witness :
  closed ClassNames.default select_chrome
  /\ toggleDropdown ClassNames.default true select_chrome
     = Chrome.Done (Chrome.mk ["choices"; "is-open"; "is-flipped"]
                              (Some ["choices__list"; "choices__list--dropdown";
                                     "is-active"]))
  /\ exists c1,
      toggleDropdown ClassNames.default true select_chrome = Chrome.Done c1
      /\ toggleDropdown ClassNames.default false c1 = Chrome.Done select_chrome.
Proof.
  assert (closed ClassNames.default select_chrome) as C by now repeat split.
  split; [exact C|]. split; [reflexivity|].
  destruct (@toggleDropdown_twice_restores ClassNames.default select_chrome
              ["choices__list"; "choices__list--dropdown"] true false eq_refl C)
    as (c1 & E1 & _ & E2).
  exists c1. now split.
Defined.

(** ** Clicks *)

Section Clicks.

Variable classNames : ClassNames.t.
Variable settings : Settings.t.

(** The dropdown a click finds closed is opened first. *)
Lemma opened_first (shouldFlip : bool) (c : Chrome.t) (w : widget) :
  exists c1,
    (if (match Chrome.dropdown c with Some _ => true | None => false end
         && negb (hasActiveDropdown classNames c))%bool
     then lift (toggleDropdown classNames shouldFlip c)
     else ret c) w = Normal c1 w
    /\ (Chrome.dropdown c = None -> c1 = c)
    /\ (Chrome.dropdown c <> None ->
        Chrome.dropdown c1 <> None /\ hasActiveDropdown classNames c1 = true).
Proof.
  unfold hasActiveDropdown, toggleDropdown, showDropdown.
  destruct (Chrome.dropdown c) as [dd|] eqn:D; cbn [andb].
  - destruct (ClassList.contains (ClassNames.activeState classNames) dd) eqn:A;
      cbn [negb lift]; eexists; (split; [reflexivity|]); split; try discriminate;
      intros _; cbn [Chrome.dropdown]; rewrite ?D, ?contains_add; split;
      try discriminate; trivial.
  - exists c. split; [reflexivity|]. split; [reflexivity|]. intros N. contradiction.
Qed.

Lemma none_selected_after_deselectAll (w : widget) :
  existsb Item.selected (activeItems (after_selectAll false w)) = false.
Proof.
  unfold activeItems, Store.getItemsFilteredByActive, after_selectAll.
  rewrite selections_store, getItems_selections, select_all_marks.
  induction (Store.getItems (store w)) as [|it its IH]; [reflexivity|].
  cbn [map filter marked Item.active].
  destruct (Item.active it); [cbn [existsb Item.selected orb]|]; exact IH.
Qed.

(** X21.  A click outside the container leaves no active item selected,
    takes the focus state off the container and leaves the dropdown closed:
    a dropdown that was closed is opened by the handler's first step and
    closed again by its last. *)
Theorem click_outside_closes (hasShiftKey shouldFlip : bool) (c : Chrome.t)
  (w : widget) :
  mounted w = true ->
  exists c' w',
    onClick classNames settings (mkClick Outside hasShiftKey shouldFlip) c w
    = Normal c' w'
    /\ existsb Item.selected (activeItems w') = false
    /\ hasActiveDropdown classNames c' = false
    /\ ClassList.contains (ClassNames.focusState classNames) (Chrome.containerOuter c')
       = false
    /\ (Chrome.dropdown c <> None -> closed classNames c').
Proof.
  intros M. unfold onClick. unfold bind at 1. unfold gets at 1.
  cbn [target shiftKey Choices.shouldFlip]. unfold bind at 1.
  destruct (opened_first shouldFlip c w) as (c1 & E1 & N1 & S1). rewrite E1.
  set (c2 := Chrome.mk (ClassList.remove (ClassNames.focusState classNames)
                                         (Chrome.containerOuter c1))
                       (Chrome.dropdown c1)).
  assert (exists w',
             when (existsb Item.selected (Store.getItemsFilteredByActive (store w)))
                  deselectAll w = Normal tt w'
             /\ existsb Item.selected (activeItems w') = false) as (w' & E & Sel).
  { unfold when. fold (activeItems w).
    destruct (existsb Item.selected (activeItems w)) eqn:X.
    - destruct (selectAll_closed w M) as [_ ->]. eexists. split; [reflexivity|].
      apply none_selected_after_deselectAll.
    - exists w. now split. }
  unfold bind. rewrite E. fold c2.
  assert (ClassList.contains (ClassNames.focusState classNames)
                             (Chrome.containerOuter c2) = false) as F2
      by (apply contains_remove; now right).
  assert (hasActiveDropdown classNames c2 = hasActiveDropdown classNames c1) as A2
      by reflexivity.
  destruct (Chrome.dropdown c) as [dd|] eqn:D.
  - destruct S1 as [D1 A1]; [discriminate|]. rewrite A2, A1.
    destruct (Chrome.dropdown c1) as [dd1|] eqn:Dd1; [|contradiction].
    unfold toggleDropdown. cbn [Chrome.dropdown c2].
    unfold hasActiveDropdown in A1. rewrite Dd1 in A1. rewrite A1.
    destruct (@hideDropdown_closes classNames c2 dd1 eq_refl) as (c3 & E3 & C3 & _ & K3).
    rewrite E3. exists c3, w'. split; [reflexivity|]. split; [exact Sel|].
    split; [apply C3|]. split; [now apply K3|]. intros _. exact C3.
  - pose proof (N1 eq_refl) as C1. subst c1.
    assert (hasActiveDropdown classNames c2 = false) as H2
        by (unfold hasActiveDropdown, c2; cbn [Chrome.dropdown]; now rewrite D).
    rewrite H2. exists c2, w'. split; [reflexivity|]. split; [exact Sel|].
    split; [exact H2|]. split; [exact F2|]. intros N. contradiction.
Qed.

(** *** A click on an item *)

Lemma click_step_closed (passedId : Z) (hasShiftKey : bool) (item : Item.t)
  (w : widget) :
  mounted w = true ->
  (if ((Item.id item =? passedId) && negb (Item.selected item))%bool
   then selectItem (Some item)
   else if negb hasShiftKey then deselectItem (Some item) else ret tt) w
  = Normal tt (click_step passedId hasShiftKey item w).
Proof.
  intros M. unfold click_step, click_choice.
  destruct (_ && _)%bool; [now apply selectItem_closed|].
  destruct (negb hasShiftKey); [now apply deselectItem_closed|reflexivity].
Qed.

Lemma keeps_click_step (passedId : Z) (hasShiftKey : bool) (item : Item.t)
  (w : widget) :
  keeps w (click_step passedId hasShiftKey item w).
Proof.
  unfold click_step. destruct (click_choice _ _ _);
    [apply keeps_after_selectItem|apply keeps_refl].
Qed.

Lemma click_steps_store (passedId : Z) (hasShiftKey : bool) (l : list Item.t)
  (w : widget) :
  store (fold_left (fun w item => click_step passedId hasShiftKey item w) l w)
  = fold_left (fun s a => Store.reduce a s)
              (map (fun p => select_action (snd p) (fst p))
                   (picks passedId hasShiftKey l))
              (store w)
  /\ input (fold_left (fun w item => click_step passedId hasShiftKey item w) l w)
     = input w.
Proof.
  revert w; induction l as [|it l IH]; intros w; cbn [fold_left picks flat_map];
    [now split|].
  destruct (IH (click_step passedId hasShiftKey it w)) as [-> ->].
  unfold click_step. fold (picks passedId hasShiftKey l).
  destruct (click_choice passedId hasShiftKey it) as [sel|]; [|now split].
  cbn [app map fold_left fst snd]. split; [now rewrite store_after_selectItem|].
  apply input_after_dispatch.
Qed.

Lemma getItems_picks (ps : list (Item.t * bool)) (s : Store.t) :
  Store.getItems (fold_left (fun s a => Store.reduce a s)
                            (map (fun p => select_action (snd p) (fst p)) ps) s)
  = fold_left (fun its p => map (Reducers.select (Item.id (fst p)) (snd p)) its) ps
              (Store.getItems s).
Proof.
  revert s; induction ps as [|p ps IH]; intros s; cbn [map fold_left]; [reflexivity|].
  now rewrite IH.
Qed.

Lemma find_no_pick (ps : list (Item.t * bool)) (i : Z) :
  ~ In i (map (fun p => Item.id (fst p)) ps) ->
  find (fun p => Item.id (fst p) =? i) ps = None.
Proof.
  induction ps as [|p ps IH]; intros N; cbn [find]; [reflexivity|].
  destruct (Z.eqb_spec (Item.id (fst p)) i) as [E|_].
  - exfalso. apply N. now left.
  - apply IH. intros H. apply N. now right.
Qed.

Lemma picks_mark (ps : list (Item.t * bool)) (its : list Item.t) :
  NoDup (map (fun p => Item.id (fst p)) ps) ->
  fold_left (fun its p => map (Reducers.select (Item.id (fst p)) (snd p)) its) ps its
  = map (fun x => match find (fun p => Item.id (fst p) =? Item.id x) ps with
                  | Some p => marked (snd p) x
                  | None => x
                  end) its.
Proof.
  revert its; induction ps as [|p ps IH]; intros its N; cbn [fold_left].
  - symmetry. apply map_id.
  - inversion N as [|? ? NI N']; subst. rewrite (IH _ N'), map_map.
    apply map_ext. intros x. cbn [find]. unfold Reducers.select.
    rewrite (Z.eqb_sym (Item.id (fst p)) (Item.id x)).
    destruct (Z.eqb_spec (Item.id x) (Item.id (fst p))) as [E|_]; [|reflexivity].
    fold (marked (snd p) x). cbn [marked Item.id].
    rewrite E, (@find_no_pick ps _ NI). reflexivity.
Qed.

Lemma picks_ids (passedId : Z) (hasShiftKey : bool) (l : list Item.t) (i : Z) :
  In i (map (fun p => Item.id (fst p)) (picks passedId hasShiftKey l)) ->
  In i (map Item.id l).
Proof.
  induction l as [|it l IH]; cbn [picks flat_map map]; [trivial|].
  fold (picks passedId hasShiftKey l). rewrite map_app, in_app_iff.
  intros [H|H]; [|right; now apply IH].
  destruct (click_choice passedId hasShiftKey it); [|destruct H].
  destruct H as [<-|[]]. now left.
Qed.

Lemma picks_distinct (passedId : Z) (hasShiftKey : bool) (l : list Item.t) :
  NoDup (map Item.id l) ->
  NoDup (map (fun p => Item.id (fst p)) (picks passedId hasShiftKey l)).
Proof.
  induction l as [|it l IH]; cbn [picks flat_map map]; intros N; [constructor|].
  fold (picks passedId hasShiftKey l). inversion N as [|? ? NI N']; subst.
  destruct (click_choice passedId hasShiftKey it); cbn [app map fst];
    [constructor|]; auto.
  intros H. apply NI. now apply picks_ids in H.
Qed.

Lemma find_pick (passedId : Z) (hasShiftKey : bool) (l : list Item.t) (x : Item.t) :
  NoDup (map Item.id l) -> In x l ->
  find (fun p => Item.id (fst p) =? Item.id x) (picks passedId hasShiftKey l)
  = match click_choice passedId hasShiftKey x with
    | Some sel => Some (x, sel)
    | None => None
    end.
Proof.
  induction l as [|it l IH]; intros N H; [destruct H|].
  inversion N as [|? ? NI N']; subst. cbn [picks flat_map].
  fold (picks passedId hasShiftKey l). destruct H as [->|H].
  - destruct (click_choice passedId hasShiftKey x) as [sel|].
    + cbn [app find fst]. now rewrite Z.eqb_refl.
    + cbn [app]. apply find_no_pick. intros H. apply NI. now apply picks_ids in H.
  - assert (Item.id it <> Item.id x) as D
        by (intros E; apply NI; rewrite E; now apply in_map).
    destruct (click_choice passedId hasShiftKey it) as [sel|]; cbn [app find fst].
    + destruct (Z.eqb_spec (Item.id it) (Item.id x)); [contradiction|now apply IH].
    + now apply IH.
Qed.

Lemma filter_active_map (G : Item.t -> Item.t) (its : list Item.t) :
  (forall x, Item.active (G x) = Item.active x) ->
  filter Item.active (map G its) = map G (filter Item.active its).
Proof.
  intros A. induction its as [|x its IH]; cbn [map filter]; [reflexivity|].
  rewrite A. destruct (Item.active x); cbn [map]; now rewrite IH.
Qed.

Lemma active_after_click (passedId : Z) (hasShiftKey : bool) (w0 w : widget) :
  ids_in_order w = true ->
  store w0 = store w ->
  activeItems (fold_left (fun w item => click_step passedId hasShiftKey item w)
                         (activeItems w) w0)
  = map (clicked passedId hasShiftKey) (activeItems w).
Proof.
  intros I S. unfold activeItems at 1, Store.getItemsFilteredByActive at 1.
  destruct (click_steps_store passedId hasShiftKey (activeItems w) w0) as [-> _].
  rewrite getItems_picks, S.
  rewrite picks_mark by (apply picks_distinct; now apply active_ids_distinct).
  rewrite filter_active_map
    by (intros x; now destruct (find _ _) as [p|]).
  fold (Store.getItemsFilteredByActive (store w)). fold (activeItems w).
  apply map_ext_in. intros x H.
  rewrite (@find_pick passedId hasShiftKey (activeItems w) x
             (active_ids_distinct w I) H).
  unfold clicked. now destruct (click_choice passedId hasShiftKey x).
Qed.

Lemma focus_closed (c : Chrome.t) (w : widget) :
  (if negb (in_focused (input w)) then focus classNames settings c else ret c) w
  = Normal (if (negb (in_focused (input w)) && Settings.addItems settings)%bool
            then onFocus classNames c else c)
           (focused settings w).
Proof.
  unfold focus, focused. destruct (negb (in_focused (input w))); [|reflexivity].
  now destruct (Settings.addItems settings).
Qed.

Lemma focused_mounted (w : widget) : mounted w = true -> mounted (focused settings w) = true.
Proof. unfold focused. now destruct (_ && _)%bool. Qed.

Lemma focused_store (w : widget) : store (focused settings w) = store w.
Proof. unfold focused. now destruct (_ && _)%bool. Qed.

Lemma focused_options (w : widget) :
  options (focused settings w) = options w
  /\ el_type (passedElement (focused settings w)) = el_type (passedElement w).
Proof. unfold focused. now destruct (_ && _)%bool. Qed.

Lemma onFocus_dropdown (c : Chrome.t) (b : bool) :
  hasActiveDropdown classNames (if b then onFocus classNames c else c)
  = hasActiveDropdown classNames c
  /\ Chrome.dropdown (if b then onFocus classNames c else c) = Chrome.dropdown c.
Proof.
  destruct b; [|now split]. unfold onFocus.
  now destruct (negb _).
Qed.

(** X22.  A click on an item, with [removeItems] on: without the shift key
    the clicked item ends selected when it was not and unselected when it
    was, and every other active item ends unselected; with the shift key the
    clicked item is selected when it was not and nothing else changes.  The
    click opens a closed dropdown and, where the input can take the focus,
    focuses it. *)
Theorem click_on_item_selects (passedId : Z) (hasShiftKey shouldFlip : bool)
  (c : Chrome.t) (w : widget) :
  mounted w = true ->
  ids_in_order w = true ->
  Settings.removeItems settings = true ->
  exists c' w',
    onClick classNames settings (mkClick (OnItem passedId) hasShiftKey shouldFlip) c w
    = Normal c' w'
    /\ activeItems w'
       = map (fun item =>
                if ((Item.id item =? passedId) && negb (Item.selected item))%bool
                then marked true item
                else if negb hasShiftKey then marked false item else item)
             (activeItems w)
    /\ (Chrome.dropdown c <> None -> hasActiveDropdown classNames c' = true)
    /\ (Settings.addItems settings = true -> in_focused (input w') = true).
Proof.
  intros M I R. unfold onClick. unfold bind at 1. unfold gets at 1.
  cbn [target shiftKey Choices.shouldFlip]. unfold bind at 1.
  destruct (opened_first shouldFlip c w) as (c1 & E1 & _ & S1). rewrite E1.
  unfold bind at 1. unfold gets at 1. unfold bind at 1. rewrite focus_closed.
  rewrite R. unfold when. unfold bind.
  destruct (forEach_closed (fun w => mounted w = true)
              (fun item =>
                 if ((Item.id item =? passedId) && negb (Item.selected item))%bool
                 then selectItem (Some item)
                 else if negb hasShiftKey then deselectItem (Some item) else ret tt)
              (fun item w => click_step passedId hasShiftKey item w)
              (Store.getItemsFilteredByActive (store w)))
    with (w := focused settings w) as [E _].
  - intros x w' M'. now apply click_step_closed.
  - intros x w' M'. now apply (keeps_click_step passedId hasShiftKey x w').
  - now apply focused_mounted.
  - rewrite E. eexists. eexists. split; [reflexivity|]. split; [|split].
    + fold (activeItems w).
      rewrite (@active_after_click passedId hasShiftKey (focused settings w) w I
                 (focused_store w)).
      apply map_ext. intros x. unfold clicked, click_choice.
      destruct ((Item.id x =? passedId) && negb (Item.selected x))%bool;
        [reflexivity|now destruct (negb hasShiftKey)].
    + intros N. destruct (S1 N) as [_ A1].
      now destruct (onFocus_dropdown c1
                      (negb (in_focused (input w)) && Settings.addItems settings))
        as [-> _].
    + intros A.
      destruct (click_steps_store passedId hasShiftKey
                  (Store.getItemsFilteredByActive (store w)) (focused settings w))
        as [_ ->].
      unfold focused. rewrite A, andb_true_r.
      now destruct (in_focused (input w)) eqn:F.
Qed.

(** *** A click on an option *)

Lemma dispatched_after_addItem (value : string) (label : option string)
  (optionId : option Z) (callback : JS.val) (w : widget) :
  exists rest,
    Store.dispatched (store (after_addItem value label optionId callback w))
    = Store.dispatched (store w) ++ add_action w value label optionId :: rest.
Proof.
  rewrite store_after_addItem. cbv zeta. destruct (is_select_one _).
  - eexists. rewrite reductions_dispatched. cbn [Store.reduce Store.dispatched].
    rewrite <- app_assoc. reflexivity.
  - exists []. reflexivity.
Qed.

(** X23.  A click on an option of the dropdown that is neither chosen nor
    disabled adds an item for it, carrying the option's id, value and label,
    and on a single select closes the dropdown the click had found or made
    open; on a multiple select the dropdown stays open.  A click on a chosen
    or disabled option adds nothing.  When no active option carries the
    clicked id, the handler fails on [option.selected]. *)
Theorem click_on_option_adds (id : Z) (hasShiftKey shouldFlip : bool)
  (c : Chrome.t) (w : widget) :
  mounted w = true ->
  (forall option,
      find (fun option => Opt.id option =? id)
           (Store.getOptionsFilteredByActive (store w)) = Some option ->
      (negb (Opt.selected option) && negb (Opt.disabled option))%bool = true ->
      exists c' w' rest,
        onClick classNames settings (mkClick (OnOption id) hasShiftKey shouldFlip) c w
        = Normal c' w'
        /\ Store.dispatched (store w')
           = Store.dispatched (store w)
             ++ ADD_ITEM (storedValue (options w) (Opt.value option))
                         (or_label (Some (Opt.label option))
                                   (JS.trim (Opt.value option)))
                         (JS.length (Store.getItems (store w)) + 1)
                         (or_optionId (Some (Opt.id option)))
                :: rest
        /\ (Chrome.dropdown c <> None ->
            hasActiveDropdown classNames c'
            = negb (is_select_one (el_type (passedElement w)))))
  /\ (forall option,
         find (fun option => Opt.id option =? id)
              (Store.getOptionsFilteredByActive (store w)) = Some option ->
         (negb (Opt.selected option) && negb (Opt.disabled option))%bool = false ->
         exists c' w',
           onClick classNames settings (mkClick (OnOption id) hasShiftKey shouldFlip) c w
           = Normal c' w'
           /\ store w' = store w)
  /\ (find (fun option => Opt.id option =? id)
           (Store.getOptionsFilteredByActive (store w)) = None ->
      exists w',
        onClick classNames settings (mkClick (OnOption id) hasShiftKey shouldFlip) c w
        = Throw w'
        /\ store w' = store w).
Proof.
  intros M.
  destruct (opened_first shouldFlip c w) as (c1 & E1 & _ & S1).
  set (c2 := if (negb (in_focused (input w)) && Settings.addItems settings)%bool
             then onFocus classNames c1 else c1).
  assert (onClick classNames settings (mkClick (OnOption id) hasShiftKey shouldFlip) c w
          = match find (fun option => Opt.id option =? id)
                       (Store.getOptionsFilteredByActive (store w)) with
            | None => Throw (focused settings w)
            | Some option =>
                if (negb (Opt.selected option) && negb (Opt.disabled option))%bool
                then (addItem (Opt.value option) (Some (Opt.label option))
                              (Some (Opt.id option)) JS.VUndefined ;;
                      el <- gets passedElement ;;
                      if is_select_one (el_type el)
                      then lift (toggleDropdown classNames shouldFlip c2)
                      else ret c2) (focused settings w)
                else Normal c2 (focused settings w)
            end) as ->.
  { unfold onClick. unfold bind at 1. unfold gets at 1.
    cbn [target shiftKey Choices.shouldFlip]. unfold bind at 1. rewrite E1.
    unfold bind at 1. unfold gets at 1. unfold bind at 1. rewrite focus_closed.
    fold c2. unfold bind at 1. unfold gets at 1. rewrite focused_store.
    destruct (find _ _) as [o|]; [|reflexivity].
    now destruct (negb (Opt.selected o) && negb (Opt.disabled o))%bool. }
  split; [|split].
  - intros o -> ->. unfold bind at 1.
    rewrite (addItem_closed _ _ _ _ _ (focused_mounted w M)).
    unfold bind, gets.
    set (w1 := after_addItem (Opt.value o) (Some (Opt.label o)) (Some (Opt.id o))
                             JS.VUndefined (focused settings w)).
    destruct (dispatched_after_addItem (Opt.value o) (Some (Opt.label o))
                (Some (Opt.id o)) JS.VUndefined (focused settings w)) as (rest & D).
    fold w1 in D. rewrite focused_store in D.
    assert (add_action (focused settings w) (Opt.value o) (Some (Opt.label o))
                       (Some (Opt.id o))
            = ADD_ITEM (storedValue (options w) (Opt.value o))
                       (or_label (Some (Opt.label o)) (JS.trim (Opt.value o)))
                       (JS.length (Store.getItems (store w)) + 1)
                       (or_optionId (Some (Opt.id o)))) as A.
    { unfold add_action, new_id. rewrite focused_store. f_equal.
      now destruct (focused_options w) as [-> _]. }
    rewrite A in D.
    assert (el_type (passedElement w1) = el_type (passedElement w)) as T.
    { destruct (keeps_after_addItem (Opt.value o) (Some (Opt.label o))
                  (Some (Opt.id o)) JS.VUndefined (focused settings w))
        as (_ & KT & _).
      unfold w1. rewrite KT. apply focused_options. }
    rewrite T.
    destruct (onFocus_dropdown c1
                (negb (in_focused (input w)) && Settings.addItems settings))
      as [A2 D2]. fold c2 in A2, D2.
    destruct (is_select_one (el_type (passedElement w))).
    + destruct (Chrome.dropdown c) as [dd|] eqn:Dc.
      * destruct S1 as [N1 A1]; [discriminate|].
        destruct (Chrome.dropdown c2) as [dd2|] eqn:Dd2; [|congruence].
        unfold toggleDropdown. rewrite Dd2.
        assert (ClassList.contains (ClassNames.activeState classNames) dd2 = true)
          as -> by (rewrite <- A2 in A1; unfold hasActiveDropdown in A1;
                    now rewrite Dd2 in A1).
        destruct (@hideDropdown_closes classNames c2 dd2 Dd2) as (c3 & E3 & C3 & _).
        rewrite E3. exists c3, w1, rest. split; [reflexivity|]. split; [exact D|].
        intros _. apply C3.
      * destruct (toggleDropdown_done classNames shouldFlip c2) as (c3 & E3 & _).
        rewrite E3. exists c3, w1, rest. split; [reflexivity|]. split; [exact D|].
        intros N. contradiction.
    + exists c2, w1, rest. split; [reflexivity|]. split; [exact D|].
      intros N. rewrite A2. now apply S1.
  - intros o -> ->. exists c2, (focused settings w). split; [reflexivity|].
    apply focused_store.
  - intros ->. exists (focused settings w). split; [reflexivity|].
    apply focused_store.
Qed.

End Clicks.

Lemma click_outside_closes_witness :
  mounted green_selected = true
  /\ existsb Item.selected (activeItems green_selected) = true
  /\ exists c' w',
      onClick ClassNames.default Settings.default (mkClick Outside false false)
              text_chrome green_selected
      = Normal c' w'
      /\ existsb Item.selected (activeItems w') = false.
Proof.
  assert (mounted green_selected = true) as M by (vm_compute; reflexivity).
  split; [exact M|]. split; [vm_compute; reflexivity|].
  destruct (@click_outside_closes ClassNames.default Settings.default false false
              text_chrome green_selected M) as (c' & w' & E & S & _).
  exists c', w'. now split.
Defined.

Lemma click_on_item_selects_witness :
  mounted green_selected = true
  /\ ids_in_order green_selected = true
  /\ map Item.selected (activeItems green_selected) = [false; true; false]
  /\ exists c' w',
      onClick ClassNames.default Settings.default (mkClick (OnItem 3) false false)
              text_chrome green_selected
      = Normal c' w'
      /\ map Item.selected (activeItems w') = [false; false; true].
Proof.
  assert (mounted green_selected = true) as M by (vm_compute; reflexivity).
  assert (ids_in_order green_selected = true) as I by (vm_compute; reflexivity).
  split; [exact M|]. split; [exact I|]. split; [vm_compute; reflexivity|].
  destruct (@click_on_item_selects ClassNames.default Settings.default 3 false false
              text_chrome green_selected M I eq_refl) as (c' & w' & E & A & _).
  exists c', w'. split; [exact E|]. rewrite A. vm_compute. reflexivity.
Defined.

Lemma click_on_option_adds_witness :
  mounted (Choices.new single_select defaultOptions) = true
  /\ find (fun option => Opt.id option =? 2)
          (Store.getOptionsFilteredByActive
             (store (Choices.new single_select defaultOptions)))
     = Some (Opt.mk 2 "b" "B" (-1) false false true)
  /\ exists c' w' rest,
      onClick ClassNames.default Settings.default (mkClick (OnOption 2) false false)
              select_chrome (Choices.new single_select defaultOptions)
      = Normal c' w'
      /\ Store.dispatched (store w')
         = Store.dispatched (store (Choices.new single_select defaultOptions))
           ++ ADD_ITEM "b" "B" 2 2 :: rest
      /\ hasActiveDropdown ClassNames.default c' = false.
Proof.
  assert (mounted (Choices.new single_select defaultOptions) = true) as M
      by (vm_compute; reflexivity).
  assert (find (fun option => Opt.id option =? 2)
               (Store.getOptionsFilteredByActive
                  (store (Choices.new single_select defaultOptions)))
          = Some (Opt.mk 2 "b" "B" (-1) false false true)) as F
      by (vm_compute; reflexivity).
  split; [exact M|]. split; [exact F|].
  destruct (@click_on_option_adds ClassNames.default Settings.default 2 false false
              select_chrome (Choices.new single_select defaultOptions) M)
    as [H _].
  destruct (H _ F eq_refl) as (c' & w' & rest & E & D & A).
  exists c', w', rest. split; [exact E|]. split.
  - rewrite D. f_equal.
  - rewrite A; [reflexivity|discriminate].
Defined.

(** *** Focus and blur *)

(** X24.  On a container that does not carry the active state, [onFocus]
    sets the focus state; [onBlur] after it keeps the focus state while the
    dropdown is open, and otherwise takes it off again, leaving the
    container's classes as they were before the focus. *)
Theorem focus_then_blur (classNames : ClassNames.t) (c : Chrome.t) :
  ClassList.contains (ClassNames.activeState classNames) (Chrome.containerOuter c)
  = false ->
  ClassList.contains (ClassNames.focusState classNames)
                     (Chrome.containerOuter (onFocus classNames c)) = true
  /\ (hasActiveDropdown classNames c = true ->
      onBlur classNames (onFocus classNames c) = onFocus classNames c)
  /\ (hasActiveDropdown classNames c = false ->
      ClassList.contains (ClassNames.focusState classNames) (Chrome.containerOuter c)
      = false ->
      onBlur classNames (onFocus classNames c) = c).
Proof.
  intros A. unfold onFocus. rewrite A. cbn [negb Chrome.containerOuter].
  split; [apply contains_add|]. unfold onBlur, hasActiveDropdown.
  cbn [Chrome.dropdown Chrome.containerOuter]. split.
  - intros ->. reflexivity.
  - intros -> F. cbn [negb]. rewrite (remove_add _ _ F). now destruct c.
Qed.

Lemma focus_then_blur_witness :
  ClassList.contains "is-active" (Chrome.containerOuter select_chrome) = false
  /\ onFocus ClassNames.default select_chrome
     = Chrome.mk ["choices"; "is-focused"]
                 (Some ["choices__list"; "choices__list--dropdown"])
  /\ onBlur ClassNames.default (onFocus ClassNames.default select_chrome)
     = select_chrome.
Proof.
  split; [reflexivity|]. split; [reflexivity|].
  destruct (@focus_then_blur ClassNames.default select_chrome eq_refl) as (_ & _ & B).
  now apply B.
Defined.

(** ** What a render leaves alone *)

Lemma renders_once (ls : list Store.listener) (w : widget) :
  ls <> [] -> fold_left (fun w _ => rendered w) ls w = rendered w.
Proof.
  destruct ls as [|l ls]; [contradiction|]. intros _. cbn [fold_left].
  induction ls as [|l' ls IH]; cbn [fold_left]; [reflexivity|].
  now rewrite rendered_idempotent.
Qed.

Lemma after_dispatch_subscribed (a : action) (w : widget) :
  subscribed w = true -> after_dispatch a w = rendered (unrendered a w).
Proof.
  intros S. unfold after_dispatch. apply renders_once.
  intros E. unfold subscribed in S. now rewrite E in S.
Qed.

Lemma rendered_last_kept (a : action) (w : widget) :
  ready w = true -> rendered_last (rendered (unrendered a w)).
Proof.
  intros R. unfold rendered_last. cbn [prevState rendered store unrendered set_store].
  apply ready_spec in R. destruct R as (_ & _ & P).
  destruct (reduce_fresh a (store w) (prevState w) P) as [D _].
  cbn [unrendered store set_store prevState]. unfold Store.getState. now rewrite D.
Qed.

(** X25.  [render] rebuilds only the regions whose collection the dispatch
    replaced.  On a subscribed widget whose last render saw the current
    state, an action that is neither the options reducer's nor the groups
    reducer's (selecting an item, adding or removing an item that belongs to
    no option) leaves the dropdown and the highlight position as they are,
    and an action that is not the items reducer's (adding, filtering or
    activating options, adding a group) leaves the item list and the
    control's value as they are.  The render again sees the current state. *)
Theorem render_rebuilds_only_what_changed (a : action) (w : widget) :
  ready w = true ->
  subscribed w = true ->
  prevState w = Snap (Store.getState (store w)) ->
  exists w',
    dispatch a w = Normal tt w'
    /\ prevState w' = Snap (Store.getState (store w'))
    /\ (Reducers.options (Store.getOptions (store w)) a = None ->
        Reducers.groups (getGroups (store w)) a = None ->
        dropdown w' = dropdown w /\ highlightPosition w' = highlightPosition w)
    /\ (Reducers.items (Store.getItems (store w)) a = None ->
        itemList w' = itemList w /\ controlValue w' = controlValue w).
Proof.
  intros R S P. exists (after_dispatch a w).
  split; [apply dispatch_closed; now apply ready_mounted|].
  rewrite (after_dispatch_subscribed a w S).
  split; [now apply rendered_last_kept|].
  unfold controlValue.
  cbn [dropdown itemList highlightPosition rendered passedElement].
  unfold rendered_dropdown, rendered_items, rendered_element, options_dirty, items_dirty.
  cbn [unrendered store set_store prevState dropdown itemList passedElement].
  rewrite P. unfold field_differs, Store.getState, Store.reduce.
  cbn [Store.state Store.options Store.groups Store.items].
  unfold Store.getOptions, getGroups, Store.getItems, Store.getState.
  split.
  - intros O G. rewrite O. cbn [Store.alloc fst snd]. rewrite G.
    cbn [Store.alloc fst snd]. rewrite !Nat.eqb_refl. cbn [negb orb].
    rewrite andb_false_r. cbn [andb]. split; reflexivity.
  - intros I. rewrite I. cbn [Store.alloc fst snd]. rewrite Nat.eqb_refl.
    cbn [negb]. rewrite andb_false_r. split; reflexivity.
Qed.

Lemma render_rebuilds_only_what_changed_witness :
  ready searchable = true
  /\ subscribed searchable = true
  /\ prevState searchable = Snap (Store.getState (store searchable))
  /\ exists w',
      dispatch (ADD_ITEM "x" "X" 1 (-1)) searchable = Normal tt w'
      /\ dropdown w' = dropdown searchable
      /\ controlValue w' = "x".
Proof.
  assert (ready searchable = true) as R by (vm_compute; reflexivity).
  assert (subscribed searchable = true) as S by (vm_compute; reflexivity).
  assert (prevState searchable = Snap (Store.getState (store searchable))) as P
      by (vm_compute; reflexivity).
  split; [exact R|]. split; [exact S|]. split; [exact P|].
  destruct (@render_rebuilds_only_what_changed (ADD_ITEM "x" "X" 1 (-1)) searchable
              R S P) as (w' & E & _ & D & _).
  exists w'. split; [exact E|]. split; [now apply D|].
  assert (Normal tt w' = dispatch (ADD_ITEM "x" "X" 1 (-1)) searchable) as E'
      by (symmetry; exact E).
  vm_compute in E'. injection E' as ->. vm_compute. reflexivity.
Defined.

(** ** The callback of [addItem] *)

Lemma calls_after_dispatch (a : action) (w : widget) :
  filter is_call (log (after_dispatch a w)) = filter is_call (log w).
Proof. now rewrite log_after_dispatch. Qed.

(** X26.  When the callback is a function, [addItem] calls it exactly once,
    after its dispatches, with the new item's id and the value as it was
    passed, not the trimmed value that is stored; no other callback is
    called, also on a single select, where the earlier items are removed. *)
Theorem addItem_calls_back_once (w : widget) (value : string)
  (label : option string) (optionId : option Z) (callback : JS.val) (name : string) :
  mounted w = true ->
  JS.default callback (callbackOnAddItem (options w)) = JS.VFun name ->
  exists w',
    addItem value label optionId callback w = Normal tt w'
    /\ filter is_call (log w')
       = filter is_call (log w)
         ++ [Call name [JS.VNum (JS.length (Store.getItems (store w)) + 1);
                        JS.VStr value]]
    /\ exists before,
        log w' = before ++ [Call name [JS.VNum (JS.length (Store.getItems (store w)) + 1);
                                       JS.VStr value]].
Proof.
  intros M C. exists (after_addItem value label optionId callback w).
  split; [now apply addItem_closed|].
  unfold after_addItem. cbv zeta. rewrite C. unfold after_callback.
  cbn [JS.truthy say log set_log]. split; [|eexists; reflexivity].
  rewrite filter_app. cbn [filter is_call]. f_equal.
  destruct (is_select_one _); [|apply calls_after_dispatch].
  unfold after_removeActiveItems. rewrite removals_calls. apply calls_after_dispatch.
Qed.

Lemma addItem_calls_back_once_witness :
  mounted (Choices.new single_select defaultOptions) = true
  /\ exists w',
      addItem " b " None (Some 2) JS.VUndefined (Choices.new single_select defaultOptions)
      = Normal tt w'
      /\ filter is_call (log w')
         = filter is_call (log (Choices.new single_select defaultOptions))
           ++ [Call "callbackOnAddItem" [JS.VNum 2; JS.VStr " b "]].
Proof.
  assert (mounted (Choices.new single_select defaultOptions) = true) as M
      by (vm_compute; reflexivity).
  split; [exact M|].
  destruct (@addItem_calls_back_once (Choices.new single_select defaultOptions)
              " b " None (Some 2) JS.VUndefined "callbackOnAddItem" M eq_refl)
    as (w' & E & L & _).
  exists w'. split; [exact E|]. rewrite L. f_equal.
Defined.
